(** * imapbackup38: a shallow embedding of the incremental IMAP backup script

    The development follows [imapbackup38.py].  Python [str] values are
    lists of Unicode code points and [bytes] values are lists of octets,
    both carried by [N]; Python [int] is [Z]; a [dict] is an
    insertion-ordered association list with the update-in-place behaviour
    of [d[k] = v].  The IMAP server, the SMTP relay, the clock and the
    file system are collaborators reached through the [Collab] interface;
    the script's calls to them thread an explicit world state and append
    to a trace of observable events. *)

From Stdlib Require Import List NArith ZArith Bool Lia String Ascii DecimalString.
Import ListNotations.

Set Implicit Arguments.
Set Warnings "-register-all".

(** ** Python strings and bytes *)

Module Py.

Definition str := list N.
Definition bytes := list N.

Definition lit (s : string) : list N :=
  map N_of_ascii (list_ascii_of_string s).

Definition LF : N := 10.
Definition CR : N := 13.
Definition TAB : N := 9.
Definition SP : N := 32.

Definition in_range (lo hi c : N) : bool := (lo <=? c)%N && (c <=? hi)%N.

(** [str.isspace] on one code point, which is also the class [\s] of a
    [str] pattern. *)
Definition isspace (c : N) : bool :=
  in_range 9 13 c || in_range 28 32 c || (c =? 133)%N || (c =? 160)%N
  || (c =? 5760)%N || in_range 8192 8202 c || (c =? 8232)%N
  || (c =? 8233)%N || (c =? 8239)%N || (c =? 8287)%N || (c =? 12288)%N.

(** The whitespace of [bytes.strip] and [bytes.split]. *)
Definition isspace_b (c : N) : bool := in_range 9 13 c || (c =? 32)%N.

Fixpoint eqb (a b : list N) : bool :=
  match a, b with
  | [], [] => true
  | x :: a', y :: b' => (x =? y)%N && eqb a' b'
  | _, _ => false
  end.

Fixpoint startswith (s p : list N) : bool :=
  match p, s with
  | [], _ => true
  | x :: p', y :: s' => (x =? y)%N && startswith s' p'
  | _ :: _, [] => false
  end.

Fixpoint dropwhile (f : N -> bool) (s : list N) : list N :=
  match s with
  | [] => []
  | c :: r => if f c then dropwhile f r else s
  end.

Fixpoint takewhile (f : N -> bool) (s : list N) : list N :=
  match s with
  | [] => []
  | c :: r => if f c then c :: takewhile f r else []
  end.

Definition lstrip_with (f : N -> bool) (s : list N) := dropwhile f s.
Definition rstrip_with (f : N -> bool) (s : list N) :=
  rev (dropwhile f (rev s)).
Definition strip_with (f : N -> bool) (s : list N) :=
  rstrip_with f (lstrip_with f s).

(** [s.strip()] for [str] and for [bytes]. *)
Definition strip (s : str) : str := strip_with isspace s.
Definition strip_b (s : bytes) : bytes := strip_with isspace_b s.
Definition rstrip_b (s : bytes) : bytes := rstrip_with isspace_b s.

(** [s.replace(old, new)] and [s.replace(old, new, count)] for a
    non-empty [old]: leftmost non-overlapping occurrences, scanning
    resumes after each match.  [skip] counts the characters of the
    current match still to be passed over; [cnt = None] is "no limit". *)
Fixpoint replace_aux (old new : list N) (cnt : option nat) (skip : nat)
  (s : list N) : list N :=
  match s with
  | [] => []
  | c :: r =>
      match skip with
      | S k => replace_aux old new cnt k r
      | O =>
          match cnt with
          | Some O => s
          | _ =>
              if startswith s old
              then new ++ replace_aux old new (option_map pred cnt)
                            (List.length old - 1) r
              else c :: replace_aux old new cnt 0 r
          end
      end
  end.

Definition replace (old new s : list N) : list N :=
  replace_aux old new None 0 s.
Definition replace_count (old new : list N) (count : nat) (s : list N) :=
  replace_aux old new (Some count) 0 s.

(** [s.split(sep)] for a non-empty [sep]; [cur] is the segment being
    accumulated, in reverse. *)
Fixpoint split_aux (sep : list N) (skip : nat) (cur : list N)
  (s : list N) : list (list N) :=
  match s with
  | [] => [rev cur]
  | c :: r =>
      match skip with
      | S k => split_aux sep k cur r
      | O =>
          if startswith s sep
          then rev cur :: split_aux sep (List.length sep - 1) [] r
          else split_aux sep 0 (c :: cur) r
      end
  end.

Definition split (sep s : list N) : list (list N) := split_aux sep 0 [] s.

(** [data.split()] on [bytes]: split on runs of ASCII whitespace, no
    empty fields. *)
Fixpoint split_ws_aux (cur : list N) (s : list N) : list (list N) :=
  match s with
  | [] => match cur with [] => [] | _ => [rev cur] end
  | c :: r =>
      if isspace_b c
      then match cur with
           | [] => split_ws_aux [] r
           | _ => rev cur :: split_ws_aux [] r
           end
      else split_ws_aux (c :: cur) r
  end.

Definition split_ws (s : bytes) : list bytes := split_ws_aux [] s.

(** [sep.join(parts)]. *)
Fixpoint join (sep : list N) (parts : list (list N)) : list N :=
  match parts with
  | [] => []
  | [p] => p
  | p :: ps => p ++ sep ++ join sep ps
  end.

(** [BLANKS_RE.sub(' ', s)] with [BLANKS_RE = re.compile(r'\s+')]: every
    maximal run of whitespace becomes one space. *)
Fixpoint blanks_sub_aux (inrun : bool) (s : str) : str :=
  match s with
  | [] => []
  | c :: r =>
      if isspace c
      then if inrun then blanks_sub_aux true r
           else SP :: blanks_sub_aux true r
      else c :: blanks_sub_aux false r
  end.

Definition blanks_sub (s : str) : str := blanks_sub_aux false s.

(** The UTF-8 decoder.  [Some c] is a decoded code point and [None] one
    decoding error: an ill-formed prefix of the input, after which
    decoding resumes; a sequence cut short by the end of the input is one
    error as a whole. *)
Definition FFFD : N := 65533.
Definition is_cont (b : N) : bool := in_range 128 191 b.

Fixpoint utf8_decode_aux (skip : nat) (s : bytes) : list (option N) :=
  match s with
  | [] => []
  | c :: r =>
      match skip with
      | S k => utf8_decode_aux k r
      | O =>
          if (c <? 128)%N then Some c :: utf8_decode_aux 0 r
          else if (c <? 194)%N then None :: utf8_decode_aux 0 r
          else if (c <? 224)%N then
            match r with
            | [] => [None]
            | c2 :: _ =>
                if is_cont c2
                then Some ((c - 192) * 64 + (c2 - 128))%N :: utf8_decode_aux 1 r
                else None :: utf8_decode_aux 0 r
            end
          else if (c <? 240)%N then
            match r with
            | [] => [None]
            | c2 :: r2 =>
                if negb (is_cont c2)
                   || (if (c2 <? 160)%N then (c =? 224)%N else (c =? 237)%N)
                then None :: utf8_decode_aux 0 r
                else
                  match r2 with
                  | [] => [None]
                  | c3 :: _ =>
                      if is_cont c3
                      then Some ((c - 224) * 4096 + (c2 - 128) * 64
                                 + (c3 - 128))%N :: utf8_decode_aux 2 r
                      else None :: utf8_decode_aux 1 r
                  end
            end
          else if (c <? 245)%N then
            match r with
            | [] => [None]
            | c2 :: r2 =>
                if negb (is_cont c2)
                   || (if (c2 <? 144)%N then (c =? 240)%N else (c =? 244)%N)
                then None :: utf8_decode_aux 0 r
                else
                  match r2 with
                  | [] => [None]
                  | c3 :: r3 =>
                      if negb (is_cont c3) then None :: utf8_decode_aux 1 r
                      else
                        match r3 with
                        | [] => [None]
                        | c4 :: _ =>
                            if is_cont c4
                            then Some ((c - 240) * 262144 + (c2 - 128) * 4096
                                       + (c3 - 128) * 64 + (c4 - 128))%N
                                 :: utf8_decode_aux 3 r
                            else None :: utf8_decode_aux 2 r
                        end
                  end
            end
          else None :: utf8_decode_aux 0 r
      end
  end.

(** [str(data, 'utf-8', 'replace')]: each error becomes U+FFFD. *)
Definition utf8_decode_replace (s : bytes) : str :=
  map (fun o => match o with Some c => c | None => FFFD end)
    (utf8_decode_aux 0 s).

(** [str(data, 'utf-8')]: [None] is [UnicodeDecodeError]. *)
Fixpoint all_some (l : list (option N)) : option str :=
  match l with
  | [] => Some []
  | Some c :: r => option_map (cons c) (all_some r)
  | None :: _ => None
  end.

Definition utf8_decode_strict (s : bytes) : option str :=
  all_some (utf8_decode_aux 0 s).

(** [needle in s] on strings. *)
Fixpoint contains (needle s : list N) : bool :=
  startswith s needle
  || match s with
     | [] => false
     | _ :: r => contains needle r
     end.

(** [s.encode('utf-8')]; [None] is [UnicodeEncodeError] (a surrogate or
    a value past U+10FFFF). *)
Definition encodable (c : N) : bool :=
  (c <? 55296)%N || ((57343 <? c)%N && (c <=? 1114111)%N).

Definition utf8_encode_char (c : N) : bytes :=
  if (c <? 128)%N then [c]
  else if (c <? 2048)%N then [192 + c / 64; 128 + c mod 64]%N
  else if (c <? 65536)%N
       then [224 + c / 4096; 128 + (c / 64) mod 64; 128 + c mod 64]%N
       else [240 + c / 262144; 128 + (c / 4096) mod 64;
             128 + (c / 64) mod 64; 128 + c mod 64]%N.

Fixpoint utf8_encode (s : str) : option bytes :=
  match s with
  | [] => Some []
  | c :: r =>
      if encodable c
      then option_map (app (utf8_encode_char c)) (utf8_encode r)
      else None
  end.

(** [int(b)] on a [bytes] token, base ten: surrounding whitespace, an
    optional sign, digits with single underscores between them; [None]
    is [ValueError]. *)
Definition is_digit (c : N) : bool := in_range 48 57 c.

Fixpoint int_digits (acc : Z) (sep : bool) (s : bytes) : option Z :=
  match s with
  | [] => if sep then None else Some acc
  | c :: r =>
      if is_digit c then int_digits (acc * 10 + (Z.of_N c - 48)) false r
      else if (c =? 95)%N && negb sep then int_digits acc true r
      else None
  end.

Definition int_of_bytes (b : bytes) : option Z :=
  match strip_b b with
  | 45%N :: r => option_map Z.opp (int_digits 0 true r)
  | 43%N :: r => int_digits 0 true r
  | s => int_digits 0 true s
  end.

(** [str(n)] on an [int]. *)
Definition str_of_int (n : Z) : str :=
  lit (DecimalString.NilZero.string_of_int (Z.to_int n)).

Definition hex_digit (d : N) : N := if (d <? 10)%N then 48 + d else 87 + d.

End Py.

(** ** [hashlib.sha1]

    The digest the synthesised identifiers are built from (FIPS 180-4),
    on 32-bit words kept in [N]. *)

Module SHA1.

Definition mask32 : N := 4294967295.
Definition w32 (x : N) : N := N.land x mask32.
Definition add32 (a b : N) : N := w32 (a + b).
Definition rotl (n x : N) : N :=
  w32 (N.lor (N.shiftl x n) (N.shiftr x (32 - n))).
Definition not32 (x : N) : N := N.lxor (w32 x) mask32.

Fixpoint be_bytes (n : nat) (x : N) : list N :=
  match n with
  | O => []
  | S k => N.land (N.shiftr x (8 * N.of_nat k)) 255 :: be_bytes k x
  end.

Definition pad (msg : Py.bytes) : Py.bytes :=
  let l := N.of_nat (List.length msg) in
  let k := N.to_nat ((119 - l mod 64) mod 64) in
  msg ++ [128%N] ++ repeat 0%N k ++ be_bytes 8 (8 * l).

Fixpoint words (n : nat) (s : Py.bytes) : list N :=
  match n with
  | O => []
  | S k =>
      match s with
      | a :: b :: c :: d :: r =>
          (N.land a 255 * 16777216 + N.land b 255 * 65536
           + N.land c 255 * 256 + N.land d 255)%N :: words k r
      | _ => []
      end
  end.

(** Message schedule, most recent word first. *)
Fixpoint extend (n : nat) (ws : list N) : list N :=
  match n with
  | O => ws
  | S k =>
      let w := rotl 1 (N.lxor (N.lxor (nth 2 ws 0%N) (nth 7 ws 0%N))
                         (N.lxor (nth 13 ws 0%N) (nth 15 ws 0%N))) in
      extend k (w :: ws)
  end.

Definition schedule (block : Py.bytes) : list N :=
  rev (extend 64 (rev (words 16 block))).

Definition state := (N * N * N * N * N)%type.

Definition round (t : nat) (st : state) (w : N) : state :=
  let '(a, b, c, d, e) := st in
  let '(f, k) :=
    if Nat.ltb t 20
    then (N.lor (N.land b c) (N.land (not32 b) d), 1518500249%N)
    else if Nat.ltb t 40
    then (N.lxor (N.lxor b c) d, 1859775393%N)
    else if Nat.ltb t 60
    then (N.lor (N.lor (N.land b c) (N.land b d)) (N.land c d),
          2400959708%N)
    else (N.lxor (N.lxor b c) d, 3395469782%N) in
  let temp := add32 (add32 (add32 (add32 (rotl 5 a) f) e) k) w in
  (temp, a, rotl 30 b, c, d).

Fixpoint rounds (t : nat) (st : state) (ws : list N) : state :=
  match ws with
  | [] => st
  | w :: r => rounds (S t) (round t st w) r
  end.

Definition compress (h : state) (block : Py.bytes) : state :=
  let '(h0, h1, h2, h3, h4) := h in
  let '(a, b, c, d, e) := rounds 0 h (schedule block) in
  (add32 h0 a, add32 h1 b, add32 h2 c, add32 h3 d, add32 h4 e).

Fixpoint blocks (n : nat) (h : state) (s : Py.bytes) : state :=
  match n with
  | O => h
  | S k => blocks k (compress h (firstn 64 s)) (skipn 64 s)
  end.

Definition init : state :=
  (1732584193, 4023233417, 2562383102, 271733878, 3285377520)%N.

Definition sha1 (msg : Py.bytes) : state :=
  let p := pad msg in blocks (List.length p / 64) init p.

Fixpoint hex_word (n : nat) (x : N) : Py.str :=
  match n with
  | O => []
  | S k => Py.hex_digit (N.land (N.shiftr x (4 * N.of_nat k)) 15)
             :: hex_word k x
  end.

(** [hashlib.sha1(data).hexdigest()] *)
Definition hexdigest (msg : Py.bytes) : Py.str :=
  let '(h0, h1, h2, h3, h4) := sha1 msg in
  hex_word 8 h0 ++ hex_word 8 h1 ++ hex_word 8 h2 ++ hex_word 8 h3
  ++ hex_word 8 h4.

End SHA1.

(** ** Dictionaries

    A Python [dict] keyed by [str]: entries in insertion order, at most
    one per key; [d[k] = v] overwrites the value of an existing key where
    it stands and appends a new key at the end. *)

Module Dict.
Section Ops.
Variable V : Type.

Definition t := list (Py.str * V).

Definition empty : t := [].

Fixpoint mem (k : Py.str) (d : t) : bool :=
    match d with
    | [] => false
    | (k', _) :: r => Py.eqb k k' || mem k r
    end.

Fixpoint get (k : Py.str) (d : t) : option V :=
    match d with
    | [] => None
    | (k', v) :: r => if Py.eqb k k' then Some v else get k r
    end.

Fixpoint set (k : Py.str) (v : V) (d : t) : t :=
    match d with
    | [] => [(k, v)]
    | (k', v') :: r =>
        if Py.eqb k k' then (k', v) :: r else (k', v') :: set k v r
    end.

Definition keys (d : t) : list Py.str := map fst d.
Definition values (d : t) : list V := map snd d.
End Ops.
End Dict.

Arguments Dict.empty {V}.

(** ** Exceptions, events and the collaborators *)

Inductive exn : Type :=
| SkipFolderException (what : Py.str) (data : Py.bytes)
| AssertionError
| IndexError
| ValueError
| UnicodeError
| OSError
| KeyError
| RecursionError
| SystemExit (code : Z).

(** What a run does that an observer can see.  [EvSendmail] is one
    relay session with its outcome: [sent] is false when opening the
    session, EHLO or [sendmail] raised. *)
Inductive event : Type :=
| EvStore (msg_set command flags : Py.str)
| EvSendmail (host : Py.str) (port : Z) (from_addr to_addr : Py.str)
    (msg : Py.bytes) (sent : bool)
| EvSmtpQuit
| EvSleep (secs : Z)
| EvMboxOpen (path : Py.str)
| EvMboxWrite (path : Py.str) (data : Py.bytes)
| EvWarnNoHeader (i : Z) (filename : Py.str)
| EvWarnMalformed (i : Z) (filename : Py.str)
| EvSkipped (e : exn)
| EvExcluded (foldername : Py.str).

(** An [imaplib] reply [(typ, data)].  [payload] is the part of [data]
    the script reads: [data[0]] of a SEARCH and [data[0][1]] of a
    FETCH.  A reply carries its data: the answer [('OK', [None])] that
    [imaplib] gives when no data came, on which [data[0][1]] is a
    [TypeError], is not among the replies of this model, and what is
    stated of a FETCH is stated of a reply with data. *)
Record response : Type := { typ : Py.str; payload : Py.bytes }.

(** The collaborators, over a world state [W].  An operation that can
    raise inside a [try] of the script reports it by [false].  A lost
    connection ([socket.error], an [imaplib] error), which ends a run
    through the handlers of [main], is outside the model. *)
Class Collab (W : Type) : Type := {
  imap_list : W -> (Py.str * list Py.bytes) * W;
  imap_select : Py.str -> W -> response * W;
  imap_search : Py.str -> W -> response * W;
  imap_fetch : list N -> Py.str -> W -> response * W;
  imap_store : Py.str -> Py.str -> Py.str -> W -> bool * W;
  imap_logout : W -> W;
  (* smtplib.SMTP(host, port), ehlo() and sendmail(from, to, msg) *)
  smtp_session : Py.str -> Z -> Py.str -> Py.str -> Py.bytes -> W -> bool * W;
  smtp_quit : W -> bool * W;
  time_sleep : Z -> W -> W;
  time_ctime : W -> Py.str;
  fs_exists : Py.str -> W -> bool;
  fs_remove : Py.str -> W -> W;
  fs_append : Py.str -> Py.bytes -> W -> W;
  (* the entries of mailbox.mbox(path), each as message.get('Message-Id') *)
  mbox_message_ids : Py.str -> W -> list (option Py.str);
  (* os.path.expanduser or os.path.abspath of the base directory *)
  fs_resolve : Py.str -> W -> Py.str;
  (* create_basedir and create_folder_structure; false is an OSError *)
  fs_prepare : Py.str -> list (Py.str * Py.str) -> W -> bool * W
}.

(** ** The state-and-exception monad of a run *)

Inductive outcome (A : Type) : Type :=
| Ret (a : A)
| Raise (e : exn).

Arguments Ret {A} a.
Arguments Raise {A} e.

Section Monad.
Context {W : Type}.

Record st : Type := mkst { world : W; trace : list event }.

Definition M (A : Type) : Type := st -> outcome A * st.

Definition ret {A} (a : A) : M A := fun s => (Ret a, s).
Definition raise {A} (e : exn) : M A := fun s => (Raise e, s).

Definition bind {A B} (m : M A) (k : A -> M B) : M B :=
    fun s =>
      match m s with
      | (Ret a, s') => k a s'
      | (Raise e, s') => (Raise e, s')
      end.

Definition emit (e : event) : M unit :=
    fun s => (Ret tt, mkst (world s) (trace s ++ [e])).

  (** A collaborator call. *)
Definition call {A} (op : W -> A * W) : M A :=
    fun s => let '(a, w) := op (world s) in (Ret a, mkst w (trace s)).

Definition effect (op : W -> W) : M unit :=
    fun s => (Ret tt, mkst (op (world s)) (trace s)).

Definition ask {A} (op : W -> A) : M A := fun s => (Ret (op (world s)), s).

  (** [assert c] *)
Definition assert (c : bool) : M unit :=
    if c then ret tt else raise AssertionError.

  (** [for x in xs: acc = body x acc] *)
Fixpoint for_each {A B} (body : A -> B -> M B) (xs : list A) (acc : B)
    : M B :=
    match xs with
    | [] => ret acc
    | x :: r => bind (body x acc) (for_each body r)
    end.
End Monad.

Arguments st W : clear implicits.
Arguments M W A : clear implicits.

Declare Scope run_scope.
Delimit Scope run_scope with run.
Notation "x <- m ;; k" := (bind m (fun x => k))
  (at level 61, m at next level, right associativity) : run_scope.
Notation "m ;;; k" := (bind m (fun _ => k))
  (at level 61, right associativity) : run_scope.
Open Scope run_scope.

(** ** The script *)

Definition OK : Py.str := Py.lit "OK".

(** [UUID], used to generate Message-Ids. *)
Definition UUID : Py.str := Py.lit "19AF1258-1AAF-44EF-9D9A-731079D6FAD7".

(** *** [MSGID_RE = re.compile("^Message\-Id\: (.+)", re.IGNORECASE + re.MULTILINE)]

    Under IGNORECASE a literal of a [str] pattern is compared with the
    lowercase of the subject character, and "i" and "s" also accept
    U+0131 and U+017F.  [tolower] lists the code points whose lowercase
    is a letter of the pattern. *)
Definition tolower (c : N) : N :=
  if Py.in_range 65 90 c then (c + 32)%N
  else if (c =? 304)%N then 105%N
  else if (c =? 8490)%N then 107%N
  else c.

Definition ci_literal (p c : N) : bool :=
  let l := tolower c in
  (l =? p)%N || ((p =? 105)%N && (l =? 305)%N)
  || ((p =? 115)%N && (l =? 383)%N).

Fixpoint ci_prefix (p s : Py.str) : option Py.str :=
  match p with
  | [] => Some s
  | x :: p' =>
      match s with
      | [] => None
      | c :: s' => if ci_literal x c then ci_prefix p' s' else None
      end
  end.

(** [MSGID_RE.match(header).group(1)]; [None] when there is no match
    (the [AttributeError] of [None.group]). *)
Definition MSGID_RE_match (header : Py.str) : option Py.str :=
  match ci_prefix (Py.lit "message-id: ") header with
  | None => None
  | Some rest =>
      match Py.takewhile (fun c => negb (c =? Py.LF)%N) rest with
      | [] => None
      | g => Some g
      end
  end.

Section Script.
Context {W : Type} {C : Collab W}.

Definition server_fetch (msg_set : list N) (parts : Py.str) : M W response :=
  call (imap_fetch msg_set parts).

Definition server_store (msg_set command flags : Py.str) : M W bool :=
  emit (EvStore msg_set command flags) ;;;
  call (imap_store msg_set command flags).

(** *** [scan_folder] *)

(** The identifier synthesised from the FROM/TO/CC/DATE/SUBJECT header
    block: [None] is the [UnicodeEncodeError] of [encode]. *)
Definition synth_msg_id (raw : Py.bytes) : option Py.str :=
  let data_str := Py.utf8_decode_replace raw in
  let header := Py.strip data_str in
  match Py.utf8_encode (Py.replace [Py.CR; Py.LF] [Py.TAB] header) with
  | None => None
  | Some header =>
      Some (Py.lit "<" ++ UUID ++ Py.lit "." ++ SHA1.hexdigest header
            ++ Py.lit ">")
  end.

(** The body of [for messagenumstr in msg_numbers]. *)
Definition scan_folder_body (messagenumstr : Py.bytes)
  (messages : Dict.t Z) : M W (Dict.t Z) :=
  r <- server_fetch messagenumstr
         (Py.lit "(BODY.PEEK[HEADER.FIELDS (MESSAGE-ID)])") ;;
  if negb (Py.eqb OK (typ r))
  then raise (SkipFolderException (Py.lit "FETCH failed: ") (payload r))
  else
    let data_str := Py.utf8_decode_replace (payload r) in
    let header := Py.strip data_str in
    let header := Py.blanks_sub header in
    match MSGID_RE_match header with
    | Some msg_id =>
        if negb (Dict.mem msg_id messages)
        then
          (* avoid adding dupes *)
          match Py.int_of_bytes messagenumstr with
          | Some n => ret (Dict.set msg_id n messages)
          | None => raise ValueError
          end
        else ret messages
    | None =>
        (* no Message-Id: synthesise one *)
        m <- server_fetch messagenumstr
               (Py.lit "(BODY[HEADER.FIELDS (FROM TO CC DATE SUBJECT)])") ;;
        if negb (Py.eqb OK (typ m))
        then raise (SkipFolderException
                      (Py.lit "FETCH " ++ messagenumstr ++ Py.lit " failed: ")
                      (payload m))
        else
          match synth_msg_id (payload m) with
          | None => raise UnicodeError
          | Some key =>
              match Py.int_of_bytes messagenumstr with
              | Some n => ret (Dict.set key n messages)
              | None => raise ValueError
              end
          end
    end.

(** Gets IDs of messages in the specified folder, returns id:num dict. *)
Definition scan_folder (foldername : Py.str) : M W (Dict.t Z) :=
  let foldername := [34%N] ++ foldername ++ [34%N] in
  r <- call (imap_select foldername) ;;
  if negb (Py.eqb OK (typ r))
  then raise (SkipFolderException (Py.lit "SELECT failed: ") (payload r))
  else
    r <- call (imap_search (Py.lit "UNSEEN")) ;;
    if negb (Py.eqb OK (typ r))
    then raise (SkipFolderException (Py.lit "SEARCH failed: ") (payload r))
    else
      let msg_numbers := Py.split_ws (payload r) in
      for_each scan_folder_body msg_numbers Dict.empty.

(** *** [scan_file] *)

(** [os.path.join(basedir, filename)] on POSIX paths. *)
Definition os_path_join (basedir filename : Py.str) : Py.str :=
  if Py.startswith filename (Py.lit "/") then filename
  else
    match rev basedir with
    | [] => filename
    | c :: _ =>
        if (c =? 47)%N then basedir ++ filename
        else basedir ++ Py.lit "/" ++ filename
    end.

(** ["{0}: {1}".format(HEADER_MESSAGE_ID, message.get(HEADER_MESSAGE_ID))]:
    [Message.get] answers [None] for an absent header and raises
    nothing, so the [except KeyError] arm of the script is never
    entered; [format] renders [None] as the text None. *)
Definition format_message_id_header (v : option Py.str) : Py.str :=
  Py.lit "Message-Id" ++ Py.lit ": "
  ++ match v with
     | Some x => x
     | None => Py.lit "None"
     end.

(** The body of [for message in mbox]; the state is [(i, messages)].
    The warning of the [except KeyError] arm would be [EvWarnNoHeader];
    nothing emits it. *)
Definition scan_file_body (filename : Py.str) (message : option Py.str)
  (acc : Z * Dict.t Py.str) : M W (Z * Dict.t Py.str) :=
  let '(i, messages) := acc in
  let header := format_message_id_header message in
  let header := Py.blanks_sub (Py.strip header) in
  match MSGID_RE_match header with
  | Some msg_id =>
      if negb (Dict.mem msg_id messages)
      then ret ((i + 1)%Z, Dict.set msg_id msg_id messages)
      else ret ((i + 1)%Z, messages)
  | None =>
      emit (EvWarnMalformed i filename) ;;;
      ret ((i + 1)%Z, messages)
  end.

(** Gets IDs of messages in the specified mbox file.  The script
    returns the empty list where this returns the empty dictionary; the
    caller only tests membership. *)
Definition scan_file (filename : Py.str) (overwrite : bool)
  (basedir : Py.str) : M W (Dict.t Py.str) :=
  if overwrite then ret Dict.empty
  else
    let fullname := os_path_join basedir filename in
    ex <- ask (fs_exists fullname) ;;
    if negb ex then ret Dict.empty
    else
      mbox <- ask (mbox_message_ids fullname) ;;
      r <- for_each (scan_file_body filename) mbox (0%Z, Dict.empty) ;;
      ret (snd r).

(** *** The reconciliation step of [main]

    [new_messages = {}; for msg_id in fol_messages.keys(): if msg_id not
    in fil_messages: new_messages[msg_id] = fol_messages[msg_id]] *)
Fixpoint reconcile_loop (ks : list Py.str) (fol_messages : Dict.t Z)
  (fil_messages : Dict.t Py.str) (new_messages : Dict.t Z)
  : option (Dict.t Z) :=
  match ks with
  | [] => Some new_messages
  | msg_id :: r =>
      if negb (Dict.mem msg_id fil_messages)
      then
        match Dict.get msg_id fol_messages with
        | Some n =>
            reconcile_loop r fol_messages fil_messages
              (Dict.set msg_id n new_messages)
        | None => None (* KeyError *)
        end
      else reconcile_loop r fol_messages fil_messages new_messages
  end.

Definition reconcile (fol_messages : Dict.t Z)
  (fil_messages : Dict.t Py.str) : option (Dict.t Z) :=
  reconcile_loop (Dict.keys fol_messages) fol_messages fil_messages
    Dict.empty.

(** *** [resend_messages] *)

Definition SEEN : Py.str := Py.lit "\Seen".

(** The body of [for msg_id in messages.keys()]; the state is
    [msgcounter].  The byte totals kept for the progress line are not
    modelled. *)
Definition resend_body (mailserver mailuser : Py.str)
  (messages : Dict.t Z) (msg_id : Py.str) (msgcounter : Z) : M W Z :=
  match Dict.get msg_id messages with
  | None => raise KeyError
  | Some num =>
      let msg_id_str := Py.str_of_int num in
      r <- server_fetch msg_id_str (Py.lit "(BODY.PEEK[])") ;;
      assert (Py.eqb OK (typ r)) ;;;
      fromdata <- server_fetch msg_id_str
                    (Py.lit "(BODY.PEEK[HEADER.FIELDS (FROM)])") ;;
      assert (Py.eqb OK (typ fromdata)) ;;;
      let fromemail := Py.rstrip_b (payload fromdata) in
      let prefix := Py.lit "From: " in
      let fromemail :=
        if Py.startswith fromemail prefix
        then skipn (List.length prefix) fromemail
        else fromemail in
      let data_bytes := payload r in
      let text_bytes := Py.replace [Py.CR] [] (Py.strip_b data_bytes) in
      (* latin1 decoding is the identity on code points *)
      sent <- call (smtp_session mailserver 25 fromemail mailuser
                      text_bytes) ;;
      emit (EvSendmail mailserver 25 fromemail mailuser text_bytes sent) ;;;
      (if sent : bool
       then server_store msg_id_str (Py.lit "+FLAGS") SEEN
       else server_store msg_id_str (Py.lit "-FLAGS") SEEN) ;;;
      emit EvSmtpQuit ;;;
      call smtp_quit ;;;
      let msgcounter := (msgcounter + 1)%Z in
      (if (msgcounter mod 30 =? 0)%Z
       then emit (EvSleep 60) ;;; effect (time_sleep 60)
       else ret tt) ;;;
      ret msgcounter
  end.

(** Resend messages from folder. *)
Definition resend_messages (mailserver mailuser : Py.str)
  (messages : Dict.t Z) : M W unit :=
  match messages with
  | [] => ret tt
  | _ =>
      for_each (resend_body mailserver mailuser messages)
        (Dict.keys messages) 0%Z ;;;
      ret tt
  end.

(** *** [download_messages] *)

(** [from_re.sub] of the script: [from_re] matches a line feed, then
    any number of [>] (group 1), then the five bytes of "From "; a match
    is replaced by the line feed, one [>], group 1 and "From ". *)
Definition GT : N := 62.
Definition is_gt (c : N) : bool := (c =? GT)%N.
Definition FROM_ : Py.bytes := Py.lit "From ".

Fixpoint from_re_sub_aux (skip : nat) (s : Py.bytes) : Py.bytes :=
  match s with
  | [] => []
  | c :: r =>
      match skip with
      | S k => from_re_sub_aux k r
      | O =>
          let k := List.length (Py.takewhile is_gt r) in
          if (c =? Py.LF)%N && Py.startswith (skipn k r) FROM_
          then [Py.LF; GT] ++ repeat GT k ++ FROM_
               ++ from_re_sub_aux (k + List.length FROM_) r
          else c :: from_re_sub_aux 0 r
      end
  end.

Definition from_re_sub (text : Py.bytes) : Py.bytes := from_re_sub_aux 0 text.

(** The text written for one message: [data_bytes.strip()], carriage
    returns removed, then the quoting of the selected mode. *)
Definition quote_message (thunderbird : bool) (data_bytes : Py.bytes)
  : Py.bytes :=
  let text_bytes := Py.replace [Py.CR] [] (Py.strip_b data_bytes) in
  if thunderbird
  then Py.replace (Py.LF :: FROM_) (Py.LF :: Py.SP :: FROM_) text_bytes
  else from_re_sub text_bytes.

Definition mbox_write (fullname : Py.str) (data : Py.bytes) : M W unit :=
  emit (EvMboxWrite fullname data) ;;;
  effect (fs_append fullname data).

(** The body of [for msg_id in messages.keys()]. *)
Definition download_body (fullname : Py.str) (thunderbird icloud : bool)
  (messages : Dict.t Z) (msg_id : Py.str) (_ : unit) : M W unit :=
  now <- ask time_ctime ;;
  let buf := Py.lit "From nobody " ++ now ++ [Py.LF] in
  let buf :=
    if Py.contains UUID msg_id
    then buf ++ Py.lit "Message-Id: " ++ msg_id ++ [Py.LF]
    else buf in
  match Py.utf8_encode buf with
  | None => raise UnicodeError
  | Some buf_bytes =>
      mbox_write fullname buf_bytes ;;;
      match Dict.get msg_id messages with
      | None => raise KeyError
      | Some num =>
          let msg_id_str := Py.str_of_int num in
          r <- server_fetch msg_id_str
                 (if icloud then Py.lit "(BODY.PEEK[])"
                  else Py.lit "(RFC822)") ;;
          assert (Py.eqb OK (typ r)) ;;;
          let text_bytes := quote_message thunderbird (payload r) in
          mbox_write fullname text_bytes ;;;
          mbox_write fullname [Py.LF; Py.LF]
      end
  end.

(** Download messages from folder and append to mailbox. *)
Definition download_messages (filename : Py.str) (messages : Dict.t Z)
  (overwrite thunderbird : bool) (basedir : Py.str) (icloud : bool)
  : M W unit :=
  let fullname := os_path_join basedir filename in
  ex <- ask (fs_exists fullname) ;;
  (if overwrite && ex then effect (fs_remove fullname) else ret tt) ;;;
  (* open(fullname, 'ab') *)
  emit (EvMboxOpen fullname) ;;;
  effect (fs_append fullname []) ;;;
  match messages with
  | [] => ret tt
  | _ =>
      for_each (download_body fullname thunderbird icloud messages)
        (Dict.keys messages) tt
  end.

End Script.

(** *** Parsing a LIST response *)

(** The nested list of name attributes. *)
Inductive attrib : Type :=
| Name (s : Py.str)
| Nested (l : list attrib).

Definition is_word (c : N) : bool :=
  Py.in_range 97 122 c || Py.in_range 65 90 c || Py.in_range 48 57 c
  || (c =? 95)%N.

(** [name_attrib_re.search(row)], the pattern being anchored at the
    start of [row]: optional whitespace, a backslash, one or more of
    [a-zA-Z0-9_], optional whitespace.  Answers the matched text and
    what follows it. *)
Definition name_attrib_re_search (row : Py.str) : option (Py.str * Py.str) :=
  match Py.dropwhile Py.isspace row with
  | 92%N :: r =>
      match Py.takewhile is_word r with
      | [] => None
      | w =>
          let rest := Py.dropwhile Py.isspace (skipn (List.length w) r) in
          Some (firstn (List.length row - List.length rest) row, rest)
      end
  | _ => None
  end.

(** Parses the nested list of attributes at the start of a LIST
    response.  The recursion of the script is on the remaining text;
    here it is on [fuel], and [None] is fuel exhausted.  The recursion
    limit of the interpreter is not in this definition:
    [parse_paren_list_limited] below has it. *)
Fixpoint parse_paren_list_fuel (fuel : nat) (row : Py.str)
  : option (exn + (list attrib * Py.str)) :=
  match fuel with
  | O => None
  | S fuel' =>
      (* eat starting paren *)
      match row with
      | [] => Some (inl IndexError)
      | c :: row' =>
          if (c =? 40)%N then parse_paren_loop fuel' [] row'
          else Some (inl AssertionError)
      end
  end

(** [while row[0] != ')'] *)
with parse_paren_loop (fuel : nat) (result : list attrib) (row : Py.str)
  : option (exn + (list attrib * Py.str)) :=
  match fuel with
  | O => None
  | S fuel' =>
      match row with
      | [] => Some (inl IndexError)
      | c :: row' =>
          if (c =? 41)%N then Some (inr (result, row'))
          else if (c =? 40)%N then
            match parse_paren_list_fuel fuel' row with
            | None => None
            | Some (inl e) => Some (inl e)
            | Some (inr (paren_list, row2)) =>
                parse_paren_loop fuel' (result ++ [Nested paren_list]) row2
            end
          else
            match name_attrib_re_search row with
            | None => Some (inl AssertionError)
            | Some (name_attrib, row2) =>
                parse_paren_loop fuel'
                  (result ++ [Name (Py.strip name_attrib)]) row2
            end
      end
  end.

Definition parse_paren_list (row : Py.str)
  : option (exn + (list attrib * Py.str)) :=
  parse_paren_list_fuel (2 * List.length row + 2) row.

(** One match of the pattern of [parse_string_list] at the start of
    [s]: optional whitespace, then either a double-quoted run of one or
    more non-quote characters (group 1) or a run of one or more
    non-whitespace characters (group 2), then optional whitespace.
    Answers the group and the length of the match. *)
Definition string_re_match (s : Py.str) : option (Py.str * nat) :=
  let s1 := Py.dropwhile Py.isspace s in
  let n1 := (List.length s - List.length s1)%nat in
  let quoted :=
    match s1 with
    | 34%N :: s2 =>
        let body := Py.takewhile (fun c => negb (c =? 34)%N) s2 in
        match body, skipn (List.length body) s2 with
        | _ :: _, 34%N :: s3 =>
            let ws := Py.takewhile Py.isspace s3 in
            Some (body, (n1 + 1 + List.length body + 1 + List.length ws)%nat)
        | _, _ => None
        end
    | _ => None
    end in
  match quoted with
  | Some m => Some m
  | None =>
      match Py.takewhile (fun c => negb (Py.isspace c)) s1 with
      | [] => None
      | tok =>
          let ws := Py.takewhile Py.isspace (skipn (List.length tok) s1) in
          Some (tok, (n1 + List.length tok + List.length ws)%nat)
      end
  end.

Definition truthy (cur : Py.str) : list Py.str :=
  match cur with
  | [] => []
  | _ => [rev cur]
  end.

(** [re.split] with that pattern, the [None] and empty items already
    left out: the groups of the matches and the non-empty text between
    them. *)
Fixpoint parse_string_list_aux (skip : nat) (cur : Py.str) (s : Py.str)
  : list Py.str :=
  match s with
  | [] => truthy cur
  | c :: r =>
      match skip with
      | S k => parse_string_list_aux k cur r
      | O =>
          match string_re_match s with
          | Some (g, n) =>
              truthy cur ++ g :: parse_string_list_aux (n - 1) [] r
          | None => parse_string_list_aux 0 (c :: cur) r
          end
      end
  end.

(** Parses the quoted and unquoted strings at the end of a LIST
    response. *)
Definition parse_string_list (row : Py.str) : list Py.str :=
  parse_string_list_aux 0 [] row.

(** Parses response of LIST command into a list:
    [[attribs, hierarchy delimiter, root name]]. *)
Definition parse_list (row : Py.str)
  : option (exn + (list attrib * Py.str * Py.str)) :=
  let row := Py.strip row in
  match parse_paren_list row with
  | None => None
  | Some (inl e) => Some (inl e)
  | Some (inr (paren_list, row)) =>
      match parse_string_list row with
      | [delim; name] => Some (inr (paren_list, delim, name))
      | _ => Some (inl AssertionError)
      end
  end.

(** The file name [get_names] gives a folder. *)
Definition map_name (thunderbird : bool) (delim foldername : Py.str)
  : Py.str :=
  if thunderbird
  then
    let filename := Py.join (Py.lit ".sbd/") (Py.split delim foldername) in
    if Py.startswith filename (Py.lit "INBOX")
    then Py.replace (Py.lit "INBOX") (Py.lit "Inbox") filename
    else filename
  else Py.join (Py.lit ".") (Py.split delim foldername) ++ Py.lit ".mbox".

Section Main.
Context {W : Type} {C : Collab W}.

(** *** [get_names] *)

(** The body of [for row in data]. *)
Definition get_names_body (thunderbird : bool) (row : Py.bytes)
  (names : list (Py.str * Py.str)) : M W (list (Py.str * Py.str)) :=
  match Py.utf8_decode_strict row with
  | None => raise UnicodeError
  | Some row_str =>
      match parse_list row_str with
      | None => raise RecursionError
      | Some (inl e) => raise e
      | Some (inr (_, delim, foldername)) =>
          ret (names ++ [(foldername, map_name thunderbird delim foldername)])
      end
  end.

(** Get list of folders, returns [[(FolderName, FileName)]]. *)
Definition get_names (thunderbird : bool) : M W (list (Py.str * Py.str)) :=
  r <- call imap_list ;;
  assert (Py.eqb (fst r) OK) ;;;
  for_each (get_names_body thunderbird) (snd r) [].

(** *** [main]

    The configuration is taken as [get_config] leaves it and the server
    as [connect_and_login] leaves it. *)
Record config : Type := {
  cfg_thunderbird : bool;
  cfg_overwrite : bool;
  cfg_folders : option Py.str;
  cfg_exclude_folders : option Py.str;
  cfg_basedir : Py.str
}.

(** The truth value of [config.get(key)]. *)
Definition cfg_true (v : option Py.str) : bool :=
  match v with
  | Some (_ :: _) => true
  | _ => false
  end.

Definition cfg_list (v : option Py.str) : list Py.str :=
  match v with
  | Some x => map Py.strip (Py.split (Py.lit ",") x)
  | None => []
  end.

Definition RELAY_HOST : Py.str := Py.lit "mx1.besserwisser.org".
Definition RELAY_USER : Py.str := Py.lit "haba@besserwisser.org".

(** The body of the [try] of [for name_pair in names]. *)
Definition main_folder (cfg : config) (basedir : Py.str)
  (exclude_folders : list Py.str) (name_pair : Py.str * Py.str)
  : M W unit :=
  let '(foldername, filename) := name_pair in
  if existsb (Py.eqb foldername) exclude_folders
  then emit (EvExcluded foldername)
  else
    fol_messages <- scan_folder foldername ;;
    fil_messages <- scan_file filename (cfg_overwrite cfg) basedir ;;
    match reconcile fol_messages fil_messages with
    | None => raise KeyError
    | Some new_messages =>
        (* download_messages(...) is commented out in the script *)
        resend_messages RELAY_HOST RELAY_USER new_messages
    end.

(** [try: ... except SkipFolderException as e: print(e)] *)
Definition except_skip (m : M W unit) : M W unit :=
  fun s =>
    match m s with
    | (Raise (SkipFolderException what data), s') =>
        emit (EvSkipped (SkipFolderException what data)) s'
    | r => r
    end.

Definition main (cfg : config) : M W unit :=
  (if cfg_true (cfg_folders cfg) && cfg_true (cfg_exclude_folders cfg)
   then raise (SystemExit 2) else ret tt) ;;;
  names <- get_names (cfg_thunderbird cfg) ;;
  let '(names, exclude_folders) :=
    if cfg_true (cfg_folders cfg)
    then
      let dirs := cfg_list (cfg_folders cfg) in
      let dirs :=
        if cfg_thunderbird cfg
        then map (fun i =>
                    if Py.startswith i (Py.lit "Inbox")
                    then Py.replace_count (Py.lit "Inbox") (Py.lit "INBOX") 1 i
                    else i) dirs
        else dirs in
      (filter (fun x => existsb (Py.eqb (fst x)) dirs) names, [])
    else if cfg_true (cfg_exclude_folders cfg)
    then (names, cfg_list (cfg_exclude_folders cfg))
    else (names, []) in
  basedir <- ask (fs_resolve (cfg_basedir cfg)) ;;
  made <- call (fs_prepare basedir names) ;;
  (* an OSError is a socket.error: the outer handler exits with 4 *)
  if negb made then raise (SystemExit 4)
  else
    for_each (fun name_pair _ =>
                except_skip (main_folder cfg basedir exclude_folders name_pair))
      names tt ;;;
    effect imap_logout.

End Main.

(** ** A mailbox to run the script against

    A small IMAP server, relay and archive directory implementing
    [Collab]; the examples below run the script on it. *)

Module Demo.

Record message : Type := {
  seen : bool;
  message_id_field : Py.bytes;  (* HEADER.FIELDS (MESSAGE-ID) *)
  identity_fields : Py.bytes;   (* HEADER.FIELDS (FROM TO CC DATE SUBJECT) *)
  from_field : Py.bytes;        (* HEADER.FIELDS (FROM) *)
  rfc822 : Py.bytes
}.

Record world : Type := {
  listing : list Py.bytes;
  mailbox : list message;
  archives : list (Py.str * list (option Py.str));
  deliveries : nat;
  failing : list nat  (* the deliveries the relay refuses, counted from 1 *)
}.

Definition set_seen (b : bool) (m : message) : message :=
  {| seen := b; message_id_field := message_id_field m;
     identity_fields := identity_fields m; from_field := from_field m;
     rfc822 := rfc822 m |}.

Definition with_mailbox (w : world) (mb : list message) : world :=
  {| listing := listing w; mailbox := mb; archives := archives w;
     deliveries := deliveries w; failing := failing w |}.

Fixpoint update_nth (n : nat) (f : message -> message) (l : list message)
  : list message :=
  match l, n with
  | [], _ => []
  | m :: r, O => f m :: r
  | m :: r, S k => m :: update_nth k f r
  end.

Definition lookup_msg (msg_set : list N) (w : world) : option (nat * message) :=
  match Py.int_of_bytes msg_set with
  | Some n =>
      if (1 <=? n)%Z
      then option_map (pair (Z.to_nat n - 1)%nat)
             (nth_error (mailbox w) (Z.to_nat n - 1))
      else None
  | None => None
  end.

Definition NO : response := {| typ := Py.lit "NO"; payload := [] |}.

Definition fetch (msg_set : list N) (parts : Py.str) (w : world)
  : response * world :=
  match lookup_msg msg_set w with
  | None => (NO, w)
  | Some (i, m) =>
      if Py.eqb parts (Py.lit "(BODY.PEEK[HEADER.FIELDS (MESSAGE-ID)])")
      then ({| typ := OK; payload := message_id_field m |}, w)
      else if Py.eqb parts
                (Py.lit "(BODY[HEADER.FIELDS (FROM TO CC DATE SUBJECT)])")
      then ({| typ := OK; payload := identity_fields m |},
            with_mailbox w (update_nth i (set_seen true) (mailbox w)))
      else if Py.eqb parts (Py.lit "(BODY.PEEK[HEADER.FIELDS (FROM)])")
      then ({| typ := OK; payload := from_field m |}, w)
      else ({| typ := OK; payload := rfc822 m |}, w)
  end.

Fixpoint unseen_numbers (n : Z) (l : list message) : list Py.str :=
  match l with
  | [] => []
  | m :: r =>
      (if seen m then [] else [Py.str_of_int n])
      ++ unseen_numbers (n + 1) r
  end.

Definition search (criterion : Py.str) (w : world) : response * world :=
  ({| typ := OK;
      payload := Py.join (Py.lit " ") (unseen_numbers 1 (mailbox w)) |}, w).

Definition store (msg_set command flags : Py.str) (w : world)
  : bool * world :=
  match lookup_msg msg_set w with
  | None => (true, w)
  | Some (i, _) =>
      (true,
       with_mailbox w
         (update_nth i (set_seen (Py.eqb command (Py.lit "+FLAGS")))
            (mailbox w)))
  end.

Definition session (host : Py.str) (port : Z) (from_addr to_addr : Py.str)
  (msg : Py.bytes) (w : world) : bool * world :=
  let n := S (deliveries w) in
  (negb (existsb (Nat.eqb n) (failing w)),
   {| listing := listing w; mailbox := mailbox w; archives := archives w;
      deliveries := n; failing := failing w |}).

Fixpoint find_archive (path : Py.str)
  (l : list (Py.str * list (option Py.str)))
  : option (list (option Py.str)) :=
  match l with
  | [] => None
  | (p, a) :: r => if Py.eqb path p then Some a else find_archive path r
  end.

#[export] Instance collab : Collab world := {|
  imap_list := fun w => ((OK, listing w), w);
  imap_select := fun _ w => ({| typ := OK; payload := [] |}, w);
  imap_search := search;
  imap_fetch := fetch;
  imap_store := store;
  imap_logout := fun w => w;
  smtp_session := session;
  smtp_quit := fun w => (true, w);
  time_sleep := fun _ w => w;
  time_ctime := fun _ => Py.lit "Thu Jan  1 00:00:00 1970";
  fs_exists := fun p w =>
    match find_archive p (archives w) with
    | Some _ => true
    | None => false
    end;
  fs_remove := fun _ w => w;
  fs_append := fun _ _ w => w;
  mbox_message_ids := fun p w =>
    match find_archive p (archives w) with
    | Some a => a
    | None => []
    end;
  fs_resolve := fun p _ => p;
  fs_prepare := fun _ _ w => (true, w)
|}.

Definition start (w : world) : st world := mkst w [].

Definition CRLF : Py.bytes := [Py.CR; Py.LF].

(** A message with a Message-Id header. *)
Definition with_id (id : string) (from subject : string) : message :=
  {| seen := false;
     message_id_field := Py.lit "Message-ID: " ++ Py.lit id ++ CRLF ++ CRLF;
     identity_fields :=
       Py.lit "From: " ++ Py.lit from ++ CRLF ++ Py.lit "Subject: "
       ++ Py.lit subject ++ CRLF ++ CRLF;
     from_field := Py.lit "From: " ++ Py.lit from ++ CRLF ++ CRLF;
     rfc822 :=
       Py.lit "Message-ID: " ++ Py.lit id ++ CRLF ++ Py.lit "From: "
       ++ Py.lit from ++ CRLF ++ Py.lit "Subject: " ++ Py.lit subject
       ++ CRLF ++ CRLF ++ Py.lit "hello" ++ CRLF |}.

(** A message without one. *)
Definition without_id (from subject : string) : message :=
  {| seen := false;
     message_id_field := CRLF;
     identity_fields :=
       Py.lit "From: " ++ Py.lit from ++ CRLF ++ Py.lit "Subject: "
       ++ Py.lit subject ++ CRLF ++ CRLF;
     from_field := Py.lit "From: " ++ Py.lit from ++ CRLF ++ CRLF;
     rfc822 :=
       Py.lit "From: " ++ Py.lit from ++ CRLF ++ Py.lit "Subject: "
       ++ Py.lit subject ++ CRLF ++ CRLF ++ Py.lit "hello" ++ CRLF |}.

Definition server (mb : list message) : world :=
  {| listing := []; mailbox := mb; archives := []; deliveries := 0;
     failing := [] |}.

(** *** Sample worlds *)

Definition INBOX : Py.str := Py.lit "INBOX".

(** Two unseen messages without a Message-Id and with the same
    From/Subject headers. *)
Definition twins : world := server [without_id "bob" "hi"; without_id "bob" "hi"].

(** Two unseen messages with the same Message-Id. *)
Definition same_id : world :=
  server [with_id "<a@x>" "bob" "hi"; with_id "<a@x>" "ann" "re"].

(** A seen message, then two unseen ones. *)
Definition one_seen : world :=
  server [set_seen true (with_id "<a@x>" "bob" "hi");
          without_id "bob" "hi"; with_id "<b@x>" "bob" "hi"].

Definition synthesised_bob_hi : Py.str :=
  Py.lit "<19AF1258-1AAF-44EF-9D9A-731079D6FAD7.9fc41a4b0cfa7f774fd5da2fe59d26561d2849ed>".

(** An archive whose only entry has no Message-Id header. *)
Definition no_header_archive : world :=
  {| listing := []; mailbox := [];
     archives := [(Py.lit "/backup/INBOX.mbox", [None])];
     deliveries := 0; failing := [] |}.

(** A LIST row naming the folder INBOX/INBOX with delimiter [/]. *)
Definition row_inbox_inbox : Py.bytes :=
  Py.lit "(\HasNoChildren) " ++ [34; 47; 34; 32; 34]%N
  ++ Py.lit "INBOX/INBOX" ++ [34%N].

Definition nested_inbox : world :=
  {| listing := [row_inbox_inbox]; mailbox := []; archives := [];
     deliveries := 0; failing := [] |}.

(** LIST rows: two well-formed ones and one with three strings after
    the attribute list. *)
Definition row_inbox : Py.bytes :=
  Py.lit "(\HasNoChildren) " ++ [34; 47; 34; 32; 34]%N ++ Py.lit "INBOX"
  ++ [34%N].

Definition row_sent : Py.bytes :=
  Py.lit "(\HasNoChildren) " ++ [34; 47; 34; 32; 34]%N ++ Py.lit "Sent"
  ++ [34%N].

Definition row_three_strings : Py.bytes :=
  Py.lit "(\HasNoChildren) " ++ [34; 47; 34; 32]%N ++ Py.lit "Sent Items".

Definition three_rows : world :=
  {| listing := [row_inbox; row_three_strings; row_sent];
     mailbox := [with_id "<a@x>" "bob" "hi"]; archives := [];
     deliveries := 0; failing := [] |}.

Definition one_folder : world :=
  {| listing := [row_inbox];
     mailbox := [with_id "<a@x>" "bob" "hi"; without_id "bob" "hi"];
     archives := [(Py.lit "/backup/INBOX.mbox", [Some (Py.lit "<a@x>")])];
     deliveries := 0; failing := [] |}.

Definition plain : config :=
  {| cfg_thunderbird := false; cfg_overwrite := false;
     cfg_folders := None; cfg_exclude_folders := None;
     cfg_basedir := Py.lit "/backup" |}.

(** A batch of 35 messages whose 31st delivery the relay refuses. *)
Definition batch35 : Dict.t Z :=
  map (fun i => (Py.lit "<" ++ Py.str_of_int (Z.of_nat i) ++ Py.lit "@x>",
                 Z.of_nat i)) (seq 1 35).

Definition relay35 : world :=
  {| listing := [];
     mailbox := map (fun _ => with_id "<a@x>" "bob" "hi") (seq 1 35);
     archives := []; deliveries := 0; failing := [31%nat] |}.

Definition store_or_sleep (e : event) : bool :=
  match e with
  | EvStore _ _ _ | EvSleep _ => true
  | _ => false
  end.

Definition stored (command : string) (i : nat) : event :=
  EvStore (Py.str_of_int (Z.of_nat i)) (Py.lit command) SEEN.

(** A fetched message whose first line and one body line both read
    From spoofed. *)
Definition spoofed_raw : Py.bytes :=
  Py.lit "From spoofed" ++ CRLF ++ Py.lit "Subject: x" ++ CRLF ++ CRLF
  ++ Py.lit "From spoofed" ++ CRLF ++ Py.lit "bye" ++ CRLF.

(** A fetched message without header lines. *)
Definition headerless_raw : Py.bytes :=
  CRLF ++ Py.lit "From spoofed" ++ CRLF.

Definition spoofed : world :=
  server [{| seen := false; message_id_field := CRLF;
             identity_fields := Py.lit "Subject: x" ++ CRLF ++ CRLF;
             from_field := CRLF; rfc822 := spoofed_raw |}].

End Demo.


(** ** Vocabulary of the statements *)

(** An item of the decoder's output that [encode] accepts back. *)
Definition decoded_ok (o : option N) : Prop :=
  match o with
  | Some c => Py.encodable c = true
  | None => True
  end.

(** A lowercase hexadecimal digit. *)
Definition is_hex (c : N) : bool :=
  Py.in_range 48 57 c || Py.in_range 97 102 c.

(** Text whose only whitespace is the plain space. *)
Definition collapsed (s : Py.str) : Prop :=
  Forall (fun c => Py.isspace c = true -> c = Py.SP) s.

(** The test of the reconciliation step on one remote entry. *)
Definition absent_from (fil_messages : Dict.t Py.str) (e : Py.str * Z) : bool :=
  negb (Dict.mem (fst e) fil_messages).

(** One pass of the resend loop, as the trace shows it: the sequence
    number, the sender, the text, and whether the relay took it. *)
Record delivery : Type := {
  dl_num : Z;
  dl_from : Py.bytes;
  dl_text : Py.bytes;
  dl_sent : bool
}.

(** The events of the pass that handles the [i]-th message of a batch. *)
Definition resend_events (mailserver mailuser : Py.str) (i : Z)
  (d : delivery) : list event :=
  [EvSendmail mailserver 25 (dl_from d) mailuser (dl_text d) (dl_sent d);
   EvStore (Py.str_of_int (dl_num d))
     (if dl_sent d then Py.lit "+FLAGS" else Py.lit "-FLAGS") SEEN;
   EvSmtpQuit]
  ++ (if (i mod 30 =? 0)%Z then [EvSleep 60] else []).

(** The events of the passes that follow the first [i] messages. *)
Fixpoint batch_events (mailserver mailuser : Py.str) (i : Z)
  (ds : list delivery) : list event :=
  match ds with
  | [] => []
  | d :: r =>
      resend_events mailserver mailuser (i + 1) d
      ++ batch_events mailserver mailuser (i + 1) r
  end.

(** Text without a line feed: one line. *)
Definition one_line (l : Py.bytes) : Prop := Forall (fun c => c <> Py.LF) l.

(** What may follow a line: nothing, or a line feed. *)
Definition line_end (rest : Py.bytes) : Prop :=
  rest = [] \/ exists r, rest = Py.LF :: r.

(** A line that reads "From " after its leading [>]s. *)
Definition is_from_line (l : Py.bytes) : bool :=
  Py.startswith (Py.dropwhile is_gt l) FROM_.

(** The default quoting of one line, and the Thunderbird one. *)
Definition quote_line (l : Py.bytes) : Py.bytes :=
  if is_from_line l then GT :: l else l.

Definition space_line (l : Py.bytes) : Py.bytes :=
  if Py.startswith l FROM_ then Py.SP :: l else l.

(** The text made of the line [first] and the lines [lines], each of
    the latter after a line feed. *)
Definition text_of (first : Py.bytes) (lines : list Py.bytes) : Py.bytes :=
  first ++ List.concat (map (cons Py.LF) lines).

(** An event a run of [main] may show: a relay session is with the
    fixed relay, on port 25, for the fixed recipient, and no mbox file
    is opened or written. *)
Definition relay_only (e : event) : Prop :=
  match e with
  | EvSendmail host port _ to_addr _ _ =>
      host = RELAY_HOST /\ port = 25%Z /\ to_addr = RELAY_USER
  | EvMboxOpen _ => False
  | EvMboxWrite _ _ => False
  | _ => True
  end.

(** A LIST row that [get_names] gets through. *)
Definition parses (row : Py.bytes) : Prop :=
  exists row_str r,
    Py.utf8_decode_strict row = Some row_str
    /\ parse_list row_str = Some (inr r).

Definition parses_b (row : Py.bytes) : bool :=
  match Py.utf8_decode_strict row with
  | Some row_str =>
      match parse_list row_str with
      | Some (inr _) => true
      | _ => false
      end
  | None => false
  end.

Section Observations.
Context {W : Type} {C : Collab W}.

(** Every event the computation [m] appends to the trace satisfies [P]. *)
Definition emits (P : event -> Prop) {A : Type} (m : M W A) : Prop :=
  forall s, exists evs, trace (snd (m s)) = trace s ++ evs /\ Forall P evs.

(** The reply to the UNSEEN search that [scan_folder foldername] issues
    from state [s], after its SELECT. *)
Definition search_reply (foldername : Py.str) (s : st W) : response :=
  fst (imap_search (Py.lit "UNSEEN")
         (snd (imap_select ([34%N] ++ foldername ++ [34%N]) (world s)))).

(** The sequence numbers the search reply lists. *)
Definition listed (r : response) (n : Z) : Prop :=
  exists tok, In tok (Py.split_ws (payload r)) /\ Py.int_of_bytes tok = Some n.

(** The Message-Id header bytes the scan of message [num] reads in state
    [s]; [None] when the FETCH is refused. *)
Definition message_id_bytes (num : Py.bytes) (s : st W) : option Py.bytes :=
  let r := fst (imap_fetch num
                  (Py.lit "(BODY.PEEK[HEADER.FIELDS (MESSAGE-ID)])")
                  (world s)) in
  if Py.eqb OK (typ r) then Some (payload r) else None.

(** The From/To/Cc/Date/Subject header bytes it reads next, when it has
    to synthesise an identifier. *)
Definition identity_bytes (num : Py.bytes) (s : st W) : option Py.bytes :=
  let w1 := snd (imap_fetch num
                   (Py.lit "(BODY.PEEK[HEADER.FIELDS (MESSAGE-ID)])")
                   (world s)) in
  let r := fst (imap_fetch num
                  (Py.lit "(BODY[HEADER.FIELDS (FROM TO CC DATE SUBJECT)])")
                  w1) in
  if Py.eqb OK (typ r) then Some (payload r) else None.

(** The scan step of message [num], run in state [s] on the index
    [messages], returns, and the index it returns holds the message
    under [msg_id] and no other new identifier. *)
Definition recorded_as (num : Py.bytes) (messages : Dict.t Z) (s : st W)
  (msg_id : Py.str) : Prop :=
  exists messages' s',
    scan_folder_body num messages s = (Ret messages', s')
    /\ Dict.mem msg_id messages' = true
    /\ (forall k, Dict.mem k messages' = true ->
                  k = msg_id \/ Dict.mem k messages = true).

End Observations.

(** ** Vocabulary of whole runs *)

(** The folders a run of [main] goes through and the folders it
    excludes, from the names [get_names] returned. *)
Definition selected (cfg : config) (names : list (Py.str * Py.str))
  : list (Py.str * Py.str) * list Py.str :=
  if cfg_true (cfg_folders cfg)
  then
    let dirs := cfg_list (cfg_folders cfg) in
    let dirs :=
      if cfg_thunderbird cfg
      then map (fun i =>
                  if Py.startswith i (Py.lit "Inbox")
                  then Py.replace_count (Py.lit "Inbox") (Py.lit "INBOX") 1 i
                  else i) dirs
      else dirs in
    (filter (fun x => existsb (Py.eqb (fst x)) dirs) names, [])
  else if cfg_true (cfg_exclude_folders cfg)
  then (names, cfg_list (cfg_exclude_folders cfg))
  else (names, []).

Section WholeRuns.
Context {W : Type} {C : Collab W}.


(** The state a run of [main] ends in, when its loop ended with
    outcome [o] in state [s]: after the logout if the loop returned. *)
Definition run_end (o : outcome unit) (s : st W) : st W :=
  match o with
  | Ret _ => mkst (imap_logout (world s)) (trace s)
  | Raise _ => s
  end.

(** What the loop of [main] does with one folder, from state [s]: the
    outcome and the state it leaves.  The folder is excluded; or its
    scan is given up with a [SkipFolderException], which is reported;
    or its scan raises something else, which ends the run; or both
    scans return, and the reconciled set of new messages goes to
    [resend_messages] with the relay host and the recipient written in
    the script. *)
Inductive folder_step (cfg : config) (basedir : Py.str)
  (exclude_folders : list Py.str)
  : Py.str * Py.str -> st W -> outcome unit -> st W -> Prop :=
| folder_excluded foldername filename s :
    existsb (Py.eqb foldername) exclude_folders = true ->
    folder_step cfg basedir exclude_folders (foldername, filename) s
      (Ret tt) (mkst (world s) (trace s ++ [EvExcluded foldername]))
| folder_skipped foldername filename s what data s1 :
    existsb (Py.eqb foldername) exclude_folders = false ->
    scan_folder foldername s
    = (Raise (SkipFolderException what data), s1) ->
    folder_step cfg basedir exclude_folders (foldername, filename) s
      (Ret tt)
      (mkst (world s1)
         (trace s1 ++ [EvSkipped (SkipFolderException what data)]))
| folder_scan_failed foldername filename s e s1 :
    existsb (Py.eqb foldername) exclude_folders = false ->
    scan_folder foldername s = (Raise e, s1) ->
    (forall what data, e <> SkipFolderException what data) ->
    folder_step cfg basedir exclude_folders (foldername, filename) s
      (Raise e) s1
| folder_relayed foldername filename s fol_messages s1 fil_messages s2
    new_messages o s3 :
    existsb (Py.eqb foldername) exclude_folders = false ->
    scan_folder foldername s = (Ret fol_messages, s1) ->
    scan_file filename (cfg_overwrite cfg) basedir s1
    = (Ret fil_messages, s2) ->
    reconcile fol_messages fil_messages = Some new_messages ->
    resend_messages (Py.lit "mx1.besserwisser.org")
      (Py.lit "haba@besserwisser.org") new_messages s2 = (o, s3) ->
    folder_step cfg basedir exclude_folders (foldername, filename) s o s3.

(** The folders of a run one after the other, up to the first one that
    ends with an exception. *)
Inductive folder_steps (cfg : config) (basedir : Py.str)
  (exclude_folders : list Py.str)
  : list (Py.str * Py.str) -> st W -> outcome unit -> st W -> Prop :=
| folders_done s :
    folder_steps cfg basedir exclude_folders [] s (Ret tt) s
| folders_next name_pair names s s1 o s2 :
    folder_step cfg basedir exclude_folders name_pair s (Ret tt) s1 ->
    folder_steps cfg basedir exclude_folders names s1 o s2 ->
    folder_steps cfg basedir exclude_folders (name_pair :: names) s o s2
| folders_stop name_pair names s e s1 :
    folder_step cfg basedir exclude_folders name_pair s (Raise e) s1 ->
    folder_steps cfg basedir exclude_folders (name_pair :: names) s
      (Raise e) s1.

End WholeRuns.

(** ** Vocabulary of the further properties *)

(** The identifier [scan_file] reads off one archive entry, given as
    [message.get('Message-Id')]; [None] when the pattern rejects the
    formatted header. *)
Definition entry_id (v : option Py.str) : option Py.str :=
  MSGID_RE_match (Py.blanks_sub (Py.strip (format_message_id_header v))).

(** A character that is no whitespace, and 7-bit text. *)
Definition nonspace (c : N) : Prop := Py.isspace c = false.
Definition ascii7 (s : list N) : Prop := Forall (fun c => (c < 128)%N) s.

(** The pattern of [MSGID_RE] before its group, in lower case. *)
Definition MSGID_PREFIX : Py.str := Py.lit "message-id: ".

(** The pair [get_names] makes of one LIST row. *)
Definition names_row (thunderbird : bool) (row : Py.bytes)
  (pair : Py.str * Py.str) : Prop :=
  exists row_str attribs delim,
    Py.utf8_decode_strict row = Some row_str
    /\ parse_list row_str = Some (inr (attribs, delim, fst pair))
    /\ snd pair = map_name thunderbird delim (fst pair).

(** A LIST row written out: the attributes, each a backslash and a
    word, between parentheses, then the delimiter and the name, each
    between double quotes. *)
Definition is_atom (w : Py.str) : Prop :=
  w <> [] /\ Forall (fun c => is_word c = true) w.

Definition quotable (x : Py.str) : Prop :=
  x <> [] /\ Forall (fun c => negb (c =? 34)%N = true) x.

Definition quoted (x : Py.str) : Py.str := 34%N :: x ++ [34%N].

Definition render_attribs (atoms : list Py.str) : Py.str :=
  40%N :: Py.join [Py.SP] (map (cons 92%N) atoms) ++ [41%N].

Definition render_row (atoms : list Py.str) (delim name : Py.str) : Py.str :=
  render_attribs atoms ++ Py.SP :: quoted delim ++ Py.SP :: quoted name.

(** The pauses and the flag changes of a trace. *)
Fixpoint sleeps (evs : list event) : list Z :=
  match evs with
  | [] => []
  | EvSleep secs :: r => secs :: sleeps r
  | _ :: r => sleeps r
  end.

Fixpoint stores (evs : list event) : list (Py.str * Py.str * Py.str) :=
  match evs with
  | [] => []
  | EvStore msg_set command flags :: r =>
      (msg_set, command, flags) :: stores r
  | _ :: r => stores r
  end.

(** An event that relays no carriage return. *)
Definition relays_no_cr (e : event) : Prop :=
  match e with
  | EvSendmail _ _ _ _ msg _ => Forall (fun c => c <> Py.CR) msg
  | _ => True
  end.

(** *** [string_from_file]

    [expanduser] is [os.path.expanduser] and [read_text path] is
    [open(path, 'r').read()], [inl] when it raises. *)
Definition string_from_file (expanduser : Py.str -> Py.str)
  (read_text : Py.str -> exn + Py.str) (value : Py.str) : exn + Py.str :=
  match value with
  | [] => inr value
  | c :: rest =>
      if negb ((c =? 92)%N || (c =? 64)%N) then inr value
      else if (c =? 92)%N then inr rest
      else
        match read_text (expanduser rest) with
        | inl e => inl e
        | inr content => inr (Py.strip content)
        end
  end.

(** A server that refuses every SELECT, with nothing else to it. *)
Module Offline.

Definition refuse : response := {| typ := Py.lit "NO"; payload := Py.lit "no such mailbox" |}.

#[export] Instance collab : Collab unit := {|
  imap_list := fun w => ((OK, []), w);
  imap_select := fun _ w => (refuse, w);
  imap_search := fun _ w => (refuse, w);
  imap_fetch := fun _ _ w => (refuse, w);
  imap_store := fun _ _ _ w => (true, w);
  imap_logout := fun w => w;
  smtp_session := fun _ _ _ _ _ w => (true, w);
  smtp_quit := fun w => (true, w);
  time_sleep := fun _ w => w;
  time_ctime := fun _ => [];
  fs_exists := fun _ _ => false;
  fs_remove := fun _ w => w;
  fs_append := fun _ _ w => w;
  mbox_message_ids := fun _ _ => [];
  fs_resolve := fun p _ => p;
  fs_prepare := fun _ _ w => (true, w)
|}.

End Offline.





(** *** The recursion limit

    [parse_paren_list] calls itself once for every opening parenthesis
    inside the list it reads, and the interpreter allows calls to nest
    only so deep.  Here that limit is explicit: [depth] is the number
    of calls of [parse_paren_list] that may still nest, and the call
    that would pass it is a [RecursionError], handled nowhere in the
    script.  A nested call is made on a row that starts with an opening
    parenthesis, so it makes no difference to it whether the error
    comes with the call or with the first call its body makes. *)
Fixpoint parse_paren_list_limited_fuel (fuel depth : nat) (row : Py.str)
  : option (exn + (list attrib * Py.str)) :=
  match fuel with
  | O => None
  | S fuel' =>
      match depth with
      | O => Some (inl RecursionError)
      | S depth' =>
          (* eat starting paren *)
          match row with
          | [] => Some (inl IndexError)
          | c :: row' =>
              if (c =? 40)%N
              then parse_paren_loop_limited fuel' depth' [] row'
              else Some (inl AssertionError)
          end
      end
  end

(** [while row[0] != ')'], with [depth] calls left for what it reads. *)
with parse_paren_loop_limited (fuel depth : nat) (result : list attrib)
  (row : Py.str) : option (exn + (list attrib * Py.str)) :=
  match fuel with
  | O => None
  | S fuel' =>
      match row with
      | [] => Some (inl IndexError)
      | c :: row' =>
          if (c =? 41)%N then Some (inr (result, row'))
          else if (c =? 40)%N then
            match parse_paren_list_limited_fuel fuel' depth row with
            | None => None
            | Some (inl e) => Some (inl e)
            | Some (inr (paren_list, row2)) =>
                parse_paren_loop_limited fuel' depth
                  (result ++ [Nested paren_list]) row2
            end
          else
            match name_attrib_re_search row with
            | None => Some (inl AssertionError)
            | Some (name_attrib, row2) =>
                parse_paren_loop_limited fuel' depth
                  (result ++ [Name (Py.strip name_attrib)]) row2
            end
      end
  end.

(** [parse_paren_list row] as [parse_list] calls it, a few calls deep
    in the run, when [limit] calls may nest inside that call. *)
Definition parse_paren_list_limited (limit : nat) (row : Py.str)
  : option (exn + (list attrib * Py.str)) :=
  parse_paren_list_limited_fuel (2 * List.length row + 2) (S limit) row.

(** The number of opening parentheses of a row. *)
Definition opening (row : Py.str) : nat :=
  List.length (filter (N.eqb 40) row).

(** * Properties *)

(** ** Strings and dictionaries *)

Lemma eqb_refl (a : list N) : Py.eqb a a = true.
Proof.
  induction a as [|x a IH]; simpl; [reflexivity|].
  now rewrite N.eqb_refl, IH.
Qed.

Lemma eqb_eq (a b : list N) : Py.eqb a b = true <-> a = b.
Proof.
  split.
  - revert b; induction a as [|x a IH]; intros [|y b]; simpl;
      try discriminate; [reflexivity|].
    intros H. apply andb_true_iff in H as [Hx Hr].
    apply N.eqb_eq in Hx. subst. f_equal. now apply IH.
  - intros ->. apply eqb_refl.
Qed.

Lemma eqb_neq (a b : list N) : Py.eqb a b = false <-> a <> b.
Proof.
  split.
  - intros H E. apply eqb_eq in E. congruence.
  - intros H. destruct (Py.eqb a b) eqn:E; [|reflexivity].
    apply eqb_eq in E. contradiction.
Qed.

Section DictFacts.
Variable V : Type.
Implicit Types (d : Dict.t V) (k : Py.str) (v : V).

Lemma mem_in_keys k d : Dict.mem k d = true <-> In k (Dict.keys d).
Proof.
  induction d as [|[k' v'] d IH]; simpl.
  - split; [discriminate | tauto].
  - rewrite orb_true_iff, IH, eqb_eq. intuition congruence.
Qed.

Lemma mem_false_keys k d : Dict.mem k d = false <-> ~ In k (Dict.keys d).
Proof.
  rewrite <- mem_in_keys. destruct (Dict.mem k d); intuition congruence.
Qed.

Lemma get_some_in k v d : Dict.get k d = Some v -> In (k, v) d.
Proof.
  induction d as [|[k' v'] d IH]; simpl; [discriminate|].
  destruct (Py.eqb k k') eqn:E.
  - apply eqb_eq in E. intros [= ->]. subst. now left.
  - intros H. right. now apply IH.
Qed.

Lemma get_of_key k d : In k (Dict.keys d) -> exists v, Dict.get k d = Some v.
Proof.
  induction d as [|[k' v'] d IH]; simpl; [tauto|].
  intros [-> | H].
  - rewrite eqb_refl. eauto.
  - destruct (Py.eqb k k'); eauto.
Qed.

Lemma get_none_mem k d : Dict.get k d = None <-> Dict.mem k d = false.
Proof.
  induction d as [|[k' v'] d IH]; simpl; [tauto|].
  destruct (Py.eqb k k'); simpl; [split; discriminate | exact IH].
Qed.

(** A key not yet present is appended. *)
Lemma set_fresh k v d : Dict.mem k d = false -> Dict.set k v d = d ++ [(k, v)].
Proof.
  induction d as [|[k' v'] d IH]; simpl; [reflexivity|].
  intros H. apply orb_false_iff in H as [E H]. rewrite E.
  now rewrite IH.
Qed.

(** [d[k] = v] leaves the keys and their order alone when [k] is there. *)
Lemma set_keys_present k v d :
  Dict.mem k d = true -> Dict.keys (Dict.set k v d) = Dict.keys d.
Proof.
  induction d as [|[k' v'] d IH]; simpl; [discriminate|].
  destruct (Py.eqb k k') eqn:E; simpl; [reflexivity|].
  intros H. now rewrite IH.
Qed.

Lemma get_set_same k v d : Dict.get k (Dict.set k v d) = Some v.
Proof.
  induction d as [|[k' v'] d IH]; simpl.
  - now rewrite eqb_refl.
  - destruct (Py.eqb k k') eqn:E; simpl; rewrite E; [reflexivity | exact IH].
Qed.

Lemma mem_set k k0 v d :
  Dict.mem k (Dict.set k0 v d) = Py.eqb k k0 || Dict.mem k d.
Proof.
  induction d as [|[k' v'] d IH]; simpl.
  - reflexivity.
  - destruct (Py.eqb k0 k') eqn:E; simpl.
    + apply eqb_eq in E. subst. now destruct (Py.eqb k k').
    + rewrite IH. destruct (Py.eqb k k'), (Py.eqb k k0); reflexivity.
Qed.

Lemma in_set k0 v0 d k v :
  In (k, v) (Dict.set k0 v0 d) -> In (k, v) d \/ (k = k0 /\ v = v0).
Proof.
  induction d as [|[k' v'] d IH]; simpl.
  - intros [[= <- <-] | []]. now right.
  - destruct (Py.eqb k0 k') eqn:E; simpl.
    + apply eqb_eq in E. subst.
      intros [[= <- <-] | H]; [now right | left; now right].
    + intros [H | H]; [left; now left|].
      destruct (IH H) as [H' | H']; [left; now right | now right].
Qed.

Lemma get_app_fresh k v pre suf :
  ~ In k (Dict.keys pre) -> Dict.get k (pre ++ (k, v) :: suf) = Some v.
Proof.
  induction pre as [|[k' v'] pre IH]; simpl; intros H.
  - now rewrite eqb_refl.
  - destruct (Py.eqb k k') eqn:E.
    + apply eqb_eq in E. subst. tauto.
    + apply IH. tauto.
Qed.

End DictFacts.

(** ** Reconciliation *)

Lemma keys_filter_sub (f : Py.str * Z -> bool) (d : Dict.t Z) k :
  In k (Dict.keys (filter f d)) -> In k (Dict.keys d).
Proof.
  unfold Dict.keys. rewrite !in_map_iff.
  intros [e [E H]]. apply filter_In in H as [H _]. eauto.
Qed.

Lemma reconcile_loop_filter (fil : Dict.t Py.str) (suf pre : Dict.t Z) :
  NoDup (Dict.keys (pre ++ suf)) ->
  reconcile_loop (Dict.keys suf) (pre ++ suf) fil (filter (absent_from fil) pre)
  = Some (filter (absent_from fil) (pre ++ suf)).
Proof.
  revert pre. induction suf as [|[k v] suf IH]; intros pre ND; simpl.
  - now rewrite app_nil_r.
  - assert (Hk : ~ In k (Dict.keys pre)).
    { unfold Dict.keys in *. rewrite map_app in ND. simpl in ND.
      apply NoDup_remove_2 in ND. intros H. apply ND, in_or_app. now left. }
    specialize (IH (pre ++ [(k, v)])).
    rewrite <- app_assoc in IH. simpl in IH. specialize (IH ND).
    rewrite filter_app in IH. simpl in IH. unfold absent_from at 2 in IH.
    simpl in IH.
    destruct (Dict.mem k fil) eqn:E; simpl in *.
    + now rewrite app_nil_r in IH.
    + rewrite get_app_fresh by exact Hk.
      rewrite set_fresh; [exact IH|].
      apply mem_false_keys. intros H. apply Hk.
      now apply keys_filter_sub in H.
Qed.

(** C1.  The reconciliation step of [main], on a remote index with one
    entry per identifier, yields exactly the remote entries whose
    identifier is absent from the local index: an identifier is in the
    result iff it is in the remote index and not in the local one, it
    keeps the sequence number it has in the remote index, and the result
    lists its entries in the order of the remote index. *)
Theorem reconcile_new_message_set (fol_messages : Dict.t Z)
  (fil_messages : Dict.t Py.str) :
  NoDup (Dict.keys fol_messages) ->
  exists new_messages,
    reconcile fol_messages fil_messages = Some new_messages
    /\ new_messages = filter (absent_from fil_messages) fol_messages
    /\ (forall msg_id,
          Dict.mem msg_id new_messages = true
          <-> Dict.mem msg_id fol_messages = true
              /\ Dict.mem msg_id fil_messages = false)
    /\ (forall msg_id,
          Dict.mem msg_id new_messages = true ->
          Dict.get msg_id new_messages = Dict.get msg_id fol_messages)
    /\ Dict.keys new_messages
       = filter (fun k => negb (Dict.mem k fil_messages))
           (Dict.keys fol_messages).
Proof.
  intros ND. eexists. split; [|split; [reflexivity|]].
  - exact (reconcile_loop_filter fil_messages fol_messages [] ND).
  - assert (Hmem : forall msg_id,
      Dict.mem msg_id (filter (absent_from fil_messages) fol_messages) = true
      <-> Dict.mem msg_id fol_messages = true
          /\ Dict.mem msg_id fil_messages = false).
    { intros k. rewrite !mem_in_keys. unfold Dict.keys.
      rewrite !in_map_iff. split.
      - intros [[k' v] [E H]]. simpl in E. subst k'.
        apply filter_In in H as [H Hf]. unfold absent_from in Hf.
        simpl in Hf. apply negb_true_iff in Hf.
        split; [exists (k, v); now split | exact Hf].
      - intros [[[k' v] [E H]] Hf]. simpl in E. subst k'.
        exists (k, v). split; [reflexivity|].
        apply filter_In. split; [exact H|].
        unfold absent_from. simpl. now rewrite Hf. }
    split; [exact Hmem|]. split.
    + intros k Hk. apply Hmem in Hk as [_ Hf].
      clear Hmem. induction fol_messages as [|[k' v] d IH]; [reflexivity|].
      simpl. unfold absent_from at 1. simpl.
      destruct (Py.eqb k k') eqn:E.
      * apply eqb_eq in E. subst k'. rewrite Hf. simpl.
        now rewrite eqb_refl.
      * assert (ND' : NoDup (Dict.keys d)) by now inversion ND.
        destruct (negb (Dict.mem k' fil_messages)); simpl;
          [rewrite E|]; now apply IH.
    + clear. induction fol_messages as [|[k v] d IH]; [reflexivity|].
      simpl. unfold absent_from at 1. simpl.
      destruct (negb (Dict.mem k fil_messages)); simpl; now rewrite IH.
Qed.


(** ** Runs *)

Ltac break_run H :=
  repeat
    (match type of H with
     | context [match ?x with _ => _ end] => destruct x eqn:?
     | context [if ?x then _ else _] => destruct x eqn:?
     end;
     try discriminate; cbv beta iota in H);
  try (inversion H; subst; clear H).

Section FolderScan.
Context {W : Type} {C : Collab W}.

Lemma for_each_invariant {A B : Type} (P : B -> Prop)
  (body : A -> B -> M W B) (xs : list A) :
  (forall x acc s acc' s',
      In x xs -> P acc -> body x acc s = (Ret acc', s') -> P acc') ->
  forall acc s r s',
    P acc -> for_each body xs acc s = (Ret r, s') -> P r.
Proof.
  induction xs as [|x xs IH]; intros Hbody acc s r s' Hacc Hrun.
  - simpl in Hrun. unfold ret in Hrun. now inversion Hrun; subst.
  - simpl in Hrun. unfold bind in Hrun.
    destruct (body x acc s) as [[acc1|e] s1] eqn:E; [|discriminate].
    eapply IH; [| |exact Hrun].
    + intros y a t a' t' Hy. apply Hbody. now right.
    + eapply Hbody; [now left | exact Hacc | exact E].
Qed.

(** What one step of the folder scan can do to the index: nothing, or
    one assignment of this message's number. *)
Lemma scan_folder_body_ret (tok : Py.bytes) (d d' : Dict.t Z) (s s' : st W) :
  scan_folder_body tok d s = (Ret d', s') ->
  d' = d
  \/ exists k n, Py.int_of_bytes tok = Some n /\ d' = Dict.set k n d.
Proof.
  unfold scan_folder_body, bind, server_fetch, call, raise, ret.
  intros H. break_run H; eauto 10.
Qed.

Lemma reconcile_loop_sub (fil : Dict.t Py.str) (fol : Dict.t Z) ks :
  forall acc new,
    reconcile_loop ks fol fil acc = Some new ->
    (forall e, In e acc -> In e fol) ->
    forall e, In e new -> In e fol.
Proof.
  induction ks as [|k ks IH]; simpl; intros acc new H Hacc.
  - now inversion H; subst.
  - destruct (negb (Dict.mem k fil)); [|now apply (IH acc)].
    destruct (Dict.get k fol) as [n|] eqn:G; [|discriminate].
    apply (IH _ _ H). intros [k' v'] Hin.
    apply in_set in Hin as [Hin | [-> ->]]; [now apply Hacc|].
    now apply get_some_in.
Qed.

(** C9.  A folder scan that returns an index has put into it only
    sequence numbers listed by the reply to its UNSEEN search, so a
    message the search leaves out (one already flagged Seen) has no entry
    in the remote index, and none in the set of new messages reconciled
    from it, whatever the local index holds. *)
Theorem scan_folder_only_unseen (foldername : Py.str) (s s' : st W)
  (messages : Dict.t Z) :
  scan_folder foldername s = (Ret messages, s') ->
  (forall msg_id n,
      In (msg_id, n) messages -> listed (search_reply foldername s) n)
  /\ (forall fil_messages new_messages msg_id n,
        reconcile messages fil_messages = Some new_messages ->
        In (msg_id, n) new_messages ->
        listed (search_reply foldername s) n).
Proof.
  intros Hrun.
  assert (Hall : forall msg_id n,
             In (msg_id, n) messages -> listed (search_reply foldername s) n).
  { unfold scan_folder, bind, call, raise in Hrun. unfold search_reply.
    destruct (imap_select _ (world s)) as [r1 w1].
    cbv beta iota in Hrun. cbn [fst snd world trace].
    destruct (negb (Py.eqb OK (typ r1))); [discriminate|].
    cbn [world trace] in Hrun.
    destruct (imap_search _ w1) as [r2 w2].
    cbv beta iota in Hrun. cbn [fst snd].
    destruct (negb (Py.eqb OK (typ r2))); [discriminate|].
    revert Hrun.
    apply (for_each_invariant
             (fun d : Dict.t Z => forall k n, In (k, n) d -> listed r2 n));
      [|intros k n []].
    intros tok acc t acc' t' Htok Hacc Hbody k n Hin.
    apply scan_folder_body_ret in Hbody as [-> | [k0 [n0 [Hint ->]]]].
    - eapply Hacc; eauto.
    - apply in_set in Hin as [Hin | [-> ->]]; [eapply Hacc; eauto|].
      exists tok. now split. }
  split; [exact Hall|].
  intros fil new k n Hrec Hin.
  apply (Hall k). revert Hin.
  apply (reconcile_loop_sub _ _ _ _ Hrec). intros e [].
Qed.

End FolderScan.

(** ** Text: decoding, stripping, replacing, digests *)

Ltac bool_arith :=
  repeat
    (match goal with
     | H : context [(?a <? ?b)%N] |- _ =>
         destruct (N.ltb_spec a b); cbn [andb orb negb] in H
     | H : context [(?a <=? ?b)%N] |- _ =>
         destruct (N.leb_spec a b); cbn [andb orb negb] in H
     | H : context [(?a =? ?b)%N] |- _ =>
         destruct (N.eqb_spec a b); cbn [andb orb negb] in H
     | |- context [(?a <? ?b)%N] =>
         destruct (N.ltb_spec a b); cbn [andb orb negb]
     | |- context [(?a <=? ?b)%N] =>
         destruct (N.leb_spec a b); cbn [andb orb negb]
     | |- context [(?a =? ?b)%N] =>
         destruct (N.eqb_spec a b); cbn [andb orb negb]
     end;
     try discriminate);
  try reflexivity; try lia.

Lemma utf8_decode_aux_ok (s : Py.bytes) :
  forall skip, Forall decoded_ok (Py.utf8_decode_aux skip s).
Proof.
  induction s as [|c r IH]; intros skip; [constructor|].
  destruct skip as [|k]; [|apply IH].
  cbn [Py.utf8_decode_aux].
  repeat
    match goal with
    | |- Forall _ (if ?b then _ else _) => destruct b eqn:?
    | |- Forall _ (match ?l with [] => _ | _ :: _ => _ end) => destruct l
    | |- Forall _ (_ :: _) => constructor
    | |- Forall _ [] => constructor
    | |- Forall _ (Py.utf8_decode_aux _ _) => apply IH
    | |- decoded_ok None => exact I
    end;
  unfold decoded_ok, Py.encodable, Py.is_cont, Py.in_range in *;
  bool_arith.
Qed.

Lemma utf8_decode_replace_encodable (b : Py.bytes) :
  Forall (fun c => Py.encodable c = true) (Py.utf8_decode_replace b).
Proof.
  unfold Py.utf8_decode_replace.
  induction (utf8_decode_aux_ok b 0) as [|o l Ho _ IH]; simpl;
    constructor; [|exact IH].
  destruct o; [exact Ho | reflexivity].
Qed.

Section Preserved.
Variable P : N -> Prop.

Lemma dropwhile_Forall f s : Forall P s -> Forall P (Py.dropwhile f s).
Proof.
  induction 1 as [|c r Hc Hr IH]; simpl; [constructor|].
  destruct (f c); [exact IH | now constructor].
Qed.

Lemma takewhile_Forall f s : Forall P s -> Forall P (Py.takewhile f s).
Proof.
  induction 1 as [|c r Hc Hr IH]; simpl; [constructor|].
  destruct (f c); now constructor.
Qed.

Lemma strip_with_Forall f s : Forall P s -> Forall P (Py.strip_with f s).
Proof.
  intros H. unfold Py.strip_with, Py.rstrip_with, Py.lstrip_with.
  apply Forall_rev, dropwhile_Forall, Forall_rev, dropwhile_Forall, H.
Qed.

Lemma replace_aux_Forall old new s :
  Forall P new -> Forall P s ->
  forall cnt skip, Forall P (Py.replace_aux old new cnt skip s).
Proof.
  intros Hnew. induction 1 as [|c r Hc Hr IH]; intros cnt skip;
    [constructor|].
  cbn [Py.replace_aux]. destruct skip; [|apply IH].
  destruct cnt as [[|n]|].
  - now constructor.
  - destruct (Py.startswith (c :: r) old).
    + apply Forall_app. split; [exact Hnew | apply IH].
    + constructor; [exact Hc | apply IH].
  - destruct (Py.startswith (c :: r) old).
    + apply Forall_app. split; [exact Hnew | apply IH].
    + constructor; [exact Hc | apply IH].
Qed.

Lemma blanks_sub_aux_Forall s :
  P Py.SP -> Forall P s -> forall inrun, Forall P (Py.blanks_sub_aux inrun s).
Proof.
  intros Hsp. induction 1 as [|c r Hc Hr IH]; intros inrun; simpl;
    [constructor|].
  destruct (Py.isspace c); [destruct inrun|]; try constructor; auto.
Qed.

End Preserved.

Lemma utf8_encode_total (s : Py.str) :
  Forall (fun c => Py.encodable c = true) s ->
  exists b, Py.utf8_encode s = Some b.
Proof.
  induction 1 as [|c r Hc Hr [b IH]]; simpl; [eauto|].
  rewrite Hc, IH. simpl. eauto.
Qed.

(** The text the synthesis path digests always encodes. *)
Lemma identity_text_encodes (raw : Py.bytes) :
  exists text,
    Py.utf8_encode
      (Py.replace [Py.CR; Py.LF] [Py.TAB]
         (Py.strip (Py.utf8_decode_replace raw))) = Some text.
Proof.
  apply utf8_encode_total. apply replace_aux_Forall.
  - repeat constructor.
  - apply strip_with_Forall, utf8_decode_replace_encodable.
Qed.

Lemma hex_word_length n x : List.length (SHA1.hex_word n x) = n.
Proof. induction n; simpl; congruence. Qed.

Lemma hex_word_hex n x : forallb is_hex (SHA1.hex_word n x) = true.
Proof.
  induction n as [|n IH]; [reflexivity|].
  cbn [SHA1.hex_word forallb]. rewrite IH, andb_true_r.
  assert (H : (N.land (N.shiftr x (4 * N.of_nat n)) 15 < 16)%N).
  { change 15%N with (N.ones 4). rewrite N.land_ones.
    apply N.mod_lt. discriminate. }
  revert H. generalize (N.land (N.shiftr x (4 * N.of_nat n)) 15). intros d H.
  unfold is_hex, Py.hex_digit, Py.in_range. bool_arith.
Qed.

(** A SHA-1 hex digest is forty lowercase hexadecimal digits. *)
Lemma hexdigest_shape (msg : Py.bytes) :
  List.length (SHA1.hexdigest msg) = 40%nat
  /\ forallb is_hex (SHA1.hexdigest msg) = true.
Proof.
  unfold SHA1.hexdigest. destruct (SHA1.sha1 msg) as [[[[h0 h1] h2] h3] h4].
  split.
  - rewrite !length_app, !hex_word_length. reflexivity.
  - rewrite !forallb_app, !hex_word_hex. reflexivity.
Qed.

(** ** Message identity *)

Lemma ci_prefix_Forall (P : N -> Prop) p :
  forall s rest, ci_prefix p s = Some rest -> Forall P s -> Forall P rest.
Proof.
  induction p as [|x p IH]; simpl; intros s rest H Hs.
  - now inversion H; subst.
  - destruct s as [|c s]; [discriminate|].
    destruct (ci_literal x c); [|discriminate].
    inversion Hs; subst. eauto.
Qed.

Lemma blanks_sub_collapsed (s : Py.str) : collapsed (Py.blanks_sub s).
Proof.
  unfold collapsed, Py.blanks_sub. generalize false.
  induction s as [|c r IH]; intros inrun; simpl; [constructor|].
  destruct (Py.isspace c) eqn:E; [destruct inrun|]; try constructor; auto.
  congruence.
Qed.

(** A Message-Id the pattern accepts has its whitespace collapsed. *)
Lemma MSGID_RE_match_collapsed (s msg_id : Py.str) :
  MSGID_RE_match (Py.blanks_sub s) = Some msg_id -> collapsed msg_id.
Proof.
  unfold MSGID_RE_match.
  destruct (ci_prefix _ _) as [rest|] eqn:E; [|discriminate].
  intros H.
  assert (Hrest : collapsed rest).
  { eapply ci_prefix_Forall; [exact E | apply blanks_sub_collapsed]. }
  apply (takewhile_Forall (fun c => negb (c =? Py.LF)%N)) in Hrest.
  destruct (Py.takewhile _ rest); [discriminate|].
  now inversion H; subst.
Qed.

Section Identity.
Context {W : Type} {C : Collab W}.

(** The step on a message whose Message-Id the pattern accepts. *)
Lemma scan_folder_body_genuine (num : Py.bytes) (d : Dict.t Z) (s : st W)
  (mid : Py.bytes) (msg_id : Py.str) (n : Z) :
  message_id_bytes num s = Some mid ->
  MSGID_RE_match
    (Py.blanks_sub (Py.strip (Py.utf8_decode_replace mid))) = Some msg_id ->
  Py.int_of_bytes num = Some n ->
  exists s',
    scan_folder_body num d s
    = (Ret (if Dict.mem msg_id d then d else Dict.set msg_id n d), s').
Proof.
  unfold message_id_bytes, scan_folder_body, bind, server_fetch, call.
  intros Hmid Hre Hint.
  destruct (imap_fetch num _ (world s)) as [r w1]. cbn [fst] in Hmid.
  destruct (Py.eqb OK (typ r)); [|discriminate].
  inversion Hmid; subst mid. cbn [negb]. cbv beta iota. rewrite Hre.
  destruct (Dict.mem msg_id d); cbn [negb]; [|rewrite Hint];
    unfold ret; eauto.
Qed.

(** The step on a message without one: the synthesised key is assigned
    this message's number, whether or not the key was there. *)
Lemma scan_folder_body_synthesised (num : Py.bytes) (d : Dict.t Z) (s : st W)
  (mid hdr : Py.bytes) (key : Py.str) (n : Z) :
  message_id_bytes num s = Some mid ->
  MSGID_RE_match
    (Py.blanks_sub (Py.strip (Py.utf8_decode_replace mid))) = None ->
  identity_bytes num s = Some hdr ->
  synth_msg_id hdr = Some key ->
  Py.int_of_bytes num = Some n ->
  exists s', scan_folder_body num d s = (Ret (Dict.set key n d), s').
Proof.
  unfold message_id_bytes, identity_bytes, scan_folder_body, bind,
    server_fetch, call.
  intros Hmid Hre Hhdr Hkey Hint.
  destruct (imap_fetch num _ (world s)) as [r w1]. cbn [fst snd] in *.
  destruct (Py.eqb OK (typ r)); [|discriminate].
  inversion Hmid; subst mid. cbn [negb]. cbv beta iota. rewrite Hre.
  cbn [world trace].
  destruct (imap_fetch num _ w1) as [r2 w2]. cbn [fst] in Hhdr.
  destruct (Py.eqb OK (typ r2)); [|discriminate].
  inversion Hhdr; subst hdr. cbn [negb]. cbv beta iota.
  rewrite Hkey, Hint. unfold ret. eauto.
Qed.

Lemma recorded_by_set (num : Py.bytes) (d : Dict.t Z) (s s' : st W)
  (key : Py.str) (n : Z) :
  scan_folder_body num d s = (Ret (Dict.set key n d), s') ->
  recorded_as num d s key.
Proof.
  intros H. exists (Dict.set key n d), s'. split; [exact H|]. split.
  - now rewrite mem_set, eqb_refl.
  - intros k. rewrite mem_set, orb_true_iff, eqb_eq. tauto.
Qed.

(** C3.  Message identity is a function of the header bytes alone.  Take
    two scan steps, in any two states, on any two indexes, of messages
    whose Message-Id header bytes are identical.  If the pattern accepts
    the header, both steps record their message under the same
    identifier, the header value with its whitespace collapsed.  If not,
    and the From/To/Cc/Date/Subject header bytes are identical as well,
    both record it under the same synthesised identifier: [<], the
    namespace token, a dot, the forty hexadecimal digits of the SHA-1 of
    the UTF-8 text in which every CR LF is one tab, and [>]. *)
Theorem message_identity_deterministic (n1 n2 : Py.bytes)
  (d1 d2 : Dict.t Z) (s1 s2 : st W) (mid : Py.bytes) :
  Py.int_of_bytes n1 <> None ->
  Py.int_of_bytes n2 <> None ->
  message_id_bytes n1 s1 = Some mid ->
  message_id_bytes n2 s2 = Some mid ->
  match MSGID_RE_match
          (Py.blanks_sub (Py.strip (Py.utf8_decode_replace mid))) with
  | Some msg_id =>
      recorded_as n1 d1 s1 msg_id /\ recorded_as n2 d2 s2 msg_id
      /\ collapsed msg_id
  | None =>
      forall hdr,
        identity_bytes n1 s1 = Some hdr ->
        identity_bytes n2 s2 = Some hdr ->
        exists text digest,
          Py.utf8_encode
            (Py.replace [Py.CR; Py.LF] [Py.TAB]
               (Py.strip (Py.utf8_decode_replace hdr))) = Some text
          /\ digest = SHA1.hexdigest text
          /\ List.length digest = 40%nat
          /\ forallb is_hex digest = true
          /\ recorded_as n1 d1 s1
               (Py.lit "<" ++ UUID ++ Py.lit "." ++ digest ++ Py.lit ">")
          /\ recorded_as n2 d2 s2
               (Py.lit "<" ++ UUID ++ Py.lit "." ++ digest ++ Py.lit ">")
  end.
Proof.
  intros Hn1 Hn2 Hm1 Hm2.
  destruct (Py.int_of_bytes n1) as [z1|] eqn:Z1; [|congruence].
  destruct (Py.int_of_bytes n2) as [z2|] eqn:Z2; [|congruence].
  destruct (MSGID_RE_match _) as [msg_id|] eqn:Hre.
  - assert (Hrec : forall num d s z,
               message_id_bytes num s = Some mid ->
               Py.int_of_bytes num = Some z -> recorded_as num d s msg_id).
    { intros num d s z Hm Hz.
      destruct (scan_folder_body_genuine num d s Hm Hre Hz) as [s' Hs].
      destruct (Dict.mem msg_id d) eqn:Hd.
      - exists d, s'. repeat split; auto.
      - eapply recorded_by_set; exact Hs. }
    repeat split; eauto using MSGID_RE_match_collapsed.
  - intros hdr Hh1 Hh2.
    destruct (identity_text_encodes hdr) as [text Htext].
    exists text, (SHA1.hexdigest text).
    destruct (hexdigest_shape text) as [Hlen Hhex].
    assert (Hkey : synth_msg_id hdr
                   = Some (Py.lit "<" ++ UUID ++ Py.lit "."
                           ++ SHA1.hexdigest text ++ Py.lit ">")).
    { unfold synth_msg_id. now rewrite Htext. }
    repeat split; auto.
    + destruct (scan_folder_body_synthesised n1 d1 s1 Hm1 Hre Hh1 Hkey Z1)
        as [s' Hs].
      eapply recorded_by_set; exact Hs.
    + destruct (scan_folder_body_synthesised n2 d2 s2 Hm2 Hre Hh2 Hkey Z2)
        as [s' Hs].
      eapply recorded_by_set; exact Hs.
Qed.

End Identity.

(** ** The local index *)

Section LocalIndex.
Context {W : Type} {C : Collab W}.

(** An entry without the header is indexed under the text None, and no
    warning is logged. *)
Lemma scan_file_body_no_header filename i (messages : Dict.t Py.str)
  (s : st W) :
  scan_file_body filename None (i, messages) s
  = (Ret ((i + 1)%Z,
          if Dict.mem (Py.lit "None") messages then messages
          else Dict.set (Py.lit "None") (Py.lit "None") messages), s).
Proof.
  unfold scan_file_body.
  change (MSGID_RE_match
            (Py.blanks_sub (Py.strip (format_message_id_header None))))
    with (Some (Py.lit "None")).
  cbv beta iota. destruct (Dict.mem (Py.lit "None") messages); reflexivity.
Qed.

(** An entry whose header the pattern rejects is warned about and adds
    nothing. *)
Lemma scan_file_body_malformed filename v i (messages : Dict.t Py.str)
  (s : st W) :
  MSGID_RE_match (Py.blanks_sub (Py.strip (format_message_id_header v)))
  = None ->
  scan_file_body filename v (i, messages) s
  = (Ret ((i + 1)%Z, messages),
     mkst (world s) (trace s ++ [EvWarnMalformed i filename])).
Proof. intros H. unfold scan_file_body. now rewrite H. Qed.

(** A header with an empty value is one the pattern rejects. *)
Lemma empty_message_id_rejected :
  MSGID_RE_match
    (Py.blanks_sub (Py.strip (format_message_id_header (Some []))))
  = None.
Proof. reflexivity. Qed.

Lemma scan_file_loop_returns filename mbox :
  forall acc (s : st W),
    exists r s', for_each (scan_file_body filename) mbox acc s = (Ret r, s').
Proof.
  induction mbox as [|m mbox IH]; intros [i messages] s; cbn [for_each].
  - unfold ret. eauto.
  - unfold bind.
    assert (H : exists r s1,
               scan_file_body filename m (i, messages) s = (Ret r, s1)).
    { unfold scan_file_body.
      destruct (MSGID_RE_match _);
        [destruct (negb _)|]; unfold ret, bind, emit; eauto. }
    destruct H as [r [s1 ->]]. apply IH.
Qed.

(** The scan of an archive never raises, whatever its entries. *)
Lemma scan_file_returns filename overwrite basedir (s : st W) :
  exists messages s',
    scan_file filename overwrite basedir s = (Ret messages, s').
Proof.
  unfold scan_file. destruct overwrite; [unfold ret; eauto|].
  unfold bind, ask. cbv beta iota.
  destruct (negb _); [unfold ret; eauto|].
  cbv beta iota.
  destruct (scan_file_loop_returns filename
              (mbox_message_ids (os_path_join basedir filename) (world s))
              (0%Z, Dict.empty) s) as [r [s' ->]].
  unfold ret. eauto.
Qed.

(** The synthesis path assigns this message's number to its key even
    when the key is there with another number. *)
Lemma scan_folder_body_synthesised_last (num : Py.bytes) (d : Dict.t Z)
  (s : st W) (mid hdr : Py.bytes) (key : Py.str) (n : Z) :
  message_id_bytes num s = Some mid ->
  MSGID_RE_match
    (Py.blanks_sub (Py.strip (Py.utf8_decode_replace mid))) = None ->
  identity_bytes num s = Some hdr ->
  synth_msg_id hdr = Some key ->
  Py.int_of_bytes num = Some n ->
  exists d' s',
    scan_folder_body num d s = (Ret d', s') /\ Dict.get key d' = Some n.
Proof.
  intros H1 H2 H3 H4 H5.
  destruct (scan_folder_body_synthesised num d s H1 H2 H3 H4 H5) as [s' Hs].
  exists (Dict.set key n d), s'. split; [exact Hs | apply get_set_same].
Qed.

(** The genuine path leaves an identifier that is there with the number
    it has. *)
Lemma scan_folder_body_genuine_first (num : Py.bytes) (d : Dict.t Z)
  (s : st W) (mid : Py.bytes) (msg_id : Py.str) (n : Z) :
  message_id_bytes num s = Some mid ->
  MSGID_RE_match
    (Py.blanks_sub (Py.strip (Py.utf8_decode_replace mid))) = Some msg_id ->
  Py.int_of_bytes num = Some n ->
  Dict.mem msg_id d = true ->
  exists s', scan_folder_body num d s = (Ret d, s').
Proof.
  intros H1 H2 H3 H4.
  destruct (scan_folder_body_genuine num d s H1 H2 H3) as [s' Hs].
  rewrite H4 in Hs. eauto.
Qed.

End LocalIndex.

(** ** The script run on the demonstration mailbox *)

Module Runs.
Import Demo.

(** C2.  First-seen-wins holds for genuine Message-Ids only.  Of two
    messages with the same Message-Id the index keeps number 1; of two
    messages without one and with identical From/Subject headers it
    keeps number 2, the later one: the synthesised key is assigned
    without the membership test that guards the genuine key. *)
Theorem scan_folder_synthesised_duplicate :
  fst (scan_folder INBOX (start same_id)) = Ret [(Py.lit "<a@x>", 1%Z)]
  /\ fst (scan_folder INBOX (start twins)) = Ret [(synthesised_bob_hi, 2%Z)].
Proof. split; vm_compute; reflexivity. Qed.

(** C6.  An archive entry without a Message-Id header is indexed under
    the text None, and nothing is logged: [Message.get] answers [None],
    the formatted header reads "Message-Id: None", and the pattern
    accepts it. *)
Theorem scan_file_missing_message_id :
  scan_file (Py.lit "INBOX.mbox") false (Py.lit "/backup")
    (start no_header_archive)
  = (Ret [(Py.lit "None", Py.lit "None")], start no_header_archive).
Proof. vm_compute. reflexivity. Qed.

(** C7.  In Thunderbird mode every INBOX of the joined name is
    rewritten, not the leading one only: INBOX/INBOX is mapped to
    Inbox.sbd/Inbox.  The inverse mapping in [main] replaces one
    occurrence. *)
Theorem get_names_rewrites_every_inbox :
  fst (get_names true (start nested_inbox))
  = Ret [(Py.lit "INBOX/INBOX", Py.lit "Inbox.sbd/Inbox")]
  /\ map_name true (Py.lit "/") (Py.lit "INBOX/INBOX")
     <> Py.lit "Inbox.sbd/INBOX"
  /\ Py.replace_count (Py.lit "Inbox") (Py.lit "INBOX") 1
       (Py.lit "Inbox.sbd/Inbox") = Py.lit "INBOX.sbd/Inbox".
Proof.
  split; [vm_compute; reflexivity|].
  split; [vm_compute; discriminate | vm_compute; reflexivity].
Qed.

Lemma scan_folder_only_unseen_witness :
  exists messages s',
    scan_folder INBOX (start one_seen) = (Ret messages, s')
    /\ (forall msg_id n,
          In (msg_id, n) messages ->
          listed (search_reply INBOX (start one_seen)) n).
Proof.
  eexists. eexists. split; [vm_compute; reflexivity|].
  eapply (scan_folder_only_unseen INBOX (start one_seen)).
  vm_compute. reflexivity.
Defined.

Lemma message_identity_deterministic_witness :
  exists digest,
    List.length digest = 40%nat
    /\ recorded_as (Py.lit "1") [] (start twins)
         (Py.lit "<" ++ UUID ++ Py.lit "." ++ digest ++ Py.lit ">")
    /\ recorded_as (Py.lit "2") [(Py.lit "<a@x>", 1%Z)] (start one_seen)
         (Py.lit "<" ++ UUID ++ Py.lit "." ++ digest ++ Py.lit ">").
Proof.
  assert (H1 : Py.int_of_bytes (Py.lit "1") <> None)
    by (vm_compute; discriminate).
  assert (H2 : Py.int_of_bytes (Py.lit "2") <> None)
    by (vm_compute; discriminate).
  assert (H3 : message_id_bytes (Py.lit "1") (start twins) = Some CRLF)
    by (vm_compute; reflexivity).
  assert (H4 : message_id_bytes (Py.lit "2") (start one_seen) = Some CRLF)
    by (vm_compute; reflexivity).
  pose proof (message_identity_deterministic (Py.lit "1") (Py.lit "2") []
                [(Py.lit "<a@x>", 1%Z)] (start twins) (start one_seen)
                H1 H2 H3 H4) as H.
  change (MSGID_RE_match
            (Py.blanks_sub (Py.strip (Py.utf8_decode_replace CRLF))))
    with (@None Py.str) in H.
  cbv beta iota in H.
  destruct (H (Py.lit "From: bob" ++ CRLF ++ Py.lit "Subject: hi" ++ CRLF
               ++ CRLF))
    as [text [digest [_ [_ [Hlen [_ [R1 R2]]]]]]];
    [vm_compute; reflexivity | vm_compute; reflexivity |].
  exists digest. auto.
Defined.

End Runs.

(** ** The relay dispatcher *)

Section Resend.
Context {W : Type} {C : Collab W}.
Variables mailserver mailuser : Py.str.

(** One pass either stops at a refused FETCH, before any event, or runs
    to its end: session, flag, quit, and the pause when due. *)
Lemma resend_body_run (messages : Dict.t Z) (k : Py.str) (c num : Z)
  (s : st W) :
  Dict.get k messages = Some num ->
  (fst (resend_body mailserver mailuser messages k c s) = Raise AssertionError
   /\ trace (snd (resend_body mailserver mailuser messages k c s)) = trace s)
  \/ exists d,
       dl_num d = num
       /\ fst (resend_body mailserver mailuser messages k c s)
          = Ret (c + 1)%Z
       /\ trace (snd (resend_body mailserver mailuser messages k c s))
          = trace s ++ resend_events mailserver mailuser (c + 1) d.
Proof.
  intros Hget. unfold resend_body. rewrite Hget.
  unfold server_fetch, server_store.
  unfold bind, call, assert, emit, effect, ret, raise.
  cbn [world trace].
  destruct (imap_fetch (Py.str_of_int num) (Py.lit "(BODY.PEEK[])") (world s))
    as [r w1].
  cbv beta iota zeta. cbn [world trace].
  destruct (Py.eqb OK (typ r)); [|left; split; reflexivity].
  cbv beta iota zeta. cbn [world trace].
  destruct (imap_fetch (Py.str_of_int num) _ w1) as [r2 w2].
  cbv beta iota zeta. cbn [world trace].
  destruct (Py.eqb OK (typ r2)); [|left; split; reflexivity].
  cbv beta iota zeta. cbn [world trace].
  set (from_ := if Py.startswith _ _ then _ else _).
  set (text_ := Py.replace [Py.CR] [] _).
  destruct (smtp_session mailserver 25 from_ mailuser text_ w2) as [sent w3].
  right.
  exists {| dl_num := num; dl_from := from_; dl_text := text_;
            dl_sent := sent |}.
  split; [reflexivity|].
  unfold resend_events. cbn [dl_num dl_from dl_text dl_sent].
  cbv beta iota zeta. cbn [world trace].
  destruct sent; cbv beta iota zeta; cbn [world trace];
    match goal with
    | |- context [imap_store ?a ?b ?c ?w] =>
        destruct (imap_store a b c w) as [stored w4]
    end;
    cbv beta iota zeta; cbn [world trace];
    destruct (smtp_quit w4) as [quit w5];
    cbv beta iota zeta; cbn [world trace];
    destruct ((c + 1) mod 30 =? 0)%Z;
    cbv beta iota zeta; cbn [world trace fst snd];
    (split; [reflexivity|]);
    rewrite <- ?app_assoc; reflexivity.
Qed.

Lemma resend_loop_run (messages : Dict.t Z) (ks : list Py.str) :
  (forall k, In k ks -> In k (Dict.keys messages)) ->
  forall (c : Z) (s : st W),
    let r := for_each (resend_body mailserver mailuser messages) ks c s in
    ((exists c', fst r = Ret c') \/ fst r = Raise AssertionError)
    /\ exists ds,
         trace (snd r) = trace s ++ batch_events mailserver mailuser c ds
         /\ map (fun d => Some (dl_num d)) ds
            = firstn (List.length ds)
                (map (fun k => Dict.get k messages) ks)
         /\ ((exists c', fst r = Ret c') ->
             List.length ds = List.length ks).
Proof.
  induction ks as [|k ks IH]; intros Hks c s.
  - cbn. split; [left; eauto|]. exists []. cbn.
    rewrite app_nil_r. auto.
  - destruct (get_of_key k messages (Hks k (or_introl eq_refl))) as [num Hget].
    cbn [for_each]. unfold bind.
    destruct (resend_body_run messages k c s Hget)
      as [[Hraise Htr] | [d [Hnum [Hret Htr]]]];
      destruct (resend_body mailserver mailuser messages k c s) as [[c1|e] s1];
      cbn [fst snd] in *; try discriminate.
    + inversion Hraise; subst e. cbn [fst snd].
      split; [now right|]. exists []. cbn. rewrite app_nil_r.
      split; [exact Htr|]. split; [reflexivity|].
      intros [c' Hc']. discriminate.
    + inversion Hret; subst c1.
      destruct (IH (fun k' H => Hks k' (or_intror H)) (c + 1)%Z s1)
        as [Hout [ds [Hds [Hnums Hlen]]]].
      split; [exact Hout|].
      exists (d :: ds). cbn [batch_events List.length firstn map].
      rewrite Hds, Htr, <- app_assoc. split; [reflexivity|].
      split; [now rewrite Hget, Hnum, Hnums|].
      intros H. now rewrite (Hlen H).
Qed.

(** A batch ends normally or by the assertion on a refused FETCH. *)
Lemma resend_messages_outcome (messages : Dict.t Z) (s : st W) :
  fst (resend_messages mailserver mailuser messages s) = Ret tt
  \/ fst (resend_messages mailserver mailuser messages s)
     = Raise AssertionError.
Proof.
  unfold resend_messages. destruct messages as [|e m] eqn:Hm;
    [now left|].
  rewrite <- Hm. clear Hm e m. unfold bind.
  destruct (resend_loop_run messages (Dict.keys messages)
              (fun k H => H) 0%Z s) as [Hout _].
  destruct (for_each _ _ _ _) as [[c1|e] s1]; unfold ret;
    cbn [fst snd] in *; [now left|].
  destruct Hout as [[c' Hc'] | Hout]; [discriminate|].
  inversion Hout; subst e. now right.
Qed.




End Resend.

(** ** What a run of [main] shows *)

Section Emits.
Context {W : Type} {C : Collab W}.
Variable P : event -> Prop.

Lemma emits_ret {A} (a : A) : emits P (ret (W := W) a).
Proof. intros s. exists []. cbn. now rewrite app_nil_r. Qed.

Lemma emits_raise {A} (e : exn) : emits P (raise (W := W) (A := A) e).
Proof. intros s. exists []. cbn. now rewrite app_nil_r. Qed.

Lemma emits_emit (e : event) : P e -> emits P (emit (W := W) e).
Proof. intros He s. exists [e]. cbn. auto. Qed.

Lemma emits_call {A} (op : W -> A * W) : emits P (call op).
Proof.
  intros s. exists []. unfold call. destruct (op (world s)).
  cbn. now rewrite app_nil_r.
Qed.

Lemma emits_effect (op : W -> W) : emits P (effect op).
Proof. intros s. exists []. cbn. now rewrite app_nil_r. Qed.

Lemma emits_ask {A} (op : W -> A) : emits P (ask op).
Proof. intros s. exists []. cbn. now rewrite app_nil_r. Qed.

Lemma emits_assert (c : bool) : emits P (assert (W := W) c).
Proof. destruct c; [apply emits_ret | apply emits_raise]. Qed.

Lemma emits_bind {A B} (m : M W A) (k : A -> M W B) :
  emits P m -> (forall a, emits P (k a)) -> emits P (bind m k).
Proof.
  intros Hm Hk s. unfold bind. destruct (Hm s) as [e1 [H1 F1]].
  destruct (m s) as [[a|e] s1]; cbn [snd] in *.
  - destruct (Hk a s1) as [e2 [H2 F2]]. exists (e1 ++ e2).
    rewrite H2, H1, app_assoc. split; [reflexivity|].
    apply Forall_app. now split.
  - exists e1. now split.
Qed.

Lemma emits_for_each {A B} (body : A -> B -> M W B) (xs : list A) :
  (forall x acc, emits P (body x acc)) ->
  forall acc, emits P (for_each body xs acc).
Proof.
  intros Hbody. induction xs as [|x xs IH]; intros acc; cbn [for_each].
  - apply emits_ret.
  - apply emits_bind; [apply Hbody | exact IH].
Qed.

Lemma emits_except_skip (m : M W unit) :
  emits P m -> (forall e, P (EvSkipped e)) -> emits P (except_skip m).
Proof.
  intros Hm Hp s. unfold except_skip. destruct (Hm s) as [e1 [H1 F1]].
  destruct (m s) as [[a|e] s1]; cbn [snd] in *;
    [exists e1; now split|].
  destruct e; try (exists e1; now split).
  cbn. exists (e1 ++ [EvSkipped (SkipFolderException what data)]).
  rewrite H1, app_assoc. split; [reflexivity|].
  apply Forall_app. split; [exact F1|]. constructor; [apply Hp | constructor].
Qed.

End Emits.

Ltac emits_step :=
  match goal with
  | |- emits _ (bind _ _) => apply emits_bind; [|intros]
  | |- emits _ (ret _) => apply emits_ret
  | |- emits _ (raise _) => apply emits_raise
  | |- emits _ (emit _) => apply emits_emit; cbn; auto
  | |- emits _ (call _) => apply emits_call
  | |- emits _ (effect _) => apply emits_effect
  | |- emits _ (ask _) => apply emits_ask
  | |- emits _ (assert _) => apply emits_assert
  | |- emits _ (for_each _ _ _) => apply emits_for_each; intros
  | |- emits _ (match ?x with _ => _ end) => destruct x
  | |- emits _ (if ?x then _ else _) => destruct x
  end.

Ltac emits_run := cbv zeta; repeat (emits_step; cbv zeta).

Section MainTrace.
Context {W : Type} {C : Collab W}.

Lemma scan_folder_emits foldername :
  emits relay_only (scan_folder (W := W) foldername).
Proof.
  unfold scan_folder, scan_folder_body, server_fetch. emits_run.
Qed.

Lemma scan_file_emits filename overwrite basedir :
  emits relay_only (scan_file (W := W) filename overwrite basedir).
Proof. unfold scan_file, scan_file_body. emits_run. Qed.

Lemma resend_messages_emits messages :
  emits relay_only (resend_messages (W := W) RELAY_HOST RELAY_USER messages).
Proof.
  unfold resend_messages, resend_body, server_fetch, server_store.
  emits_run.
Qed.

Lemma get_names_emits thunderbird :
  emits relay_only (get_names (W := W) thunderbird).
Proof. unfold get_names, get_names_body. emits_run. Qed.

Lemma main_folder_emits cfg basedir excl name_pair :
  emits relay_only (main_folder (W := W) cfg basedir excl name_pair).
Proof.
  unfold main_folder. destruct name_pair as [foldername filename].
  destruct (existsb (Py.eqb foldername) excl); [apply emits_emit; exact I|].
  apply emits_bind; [apply scan_folder_emits | intros fol].
  apply emits_bind; [apply scan_file_emits | intros fil].
  destruct (reconcile fol fil);
    [apply resend_messages_emits | apply emits_raise].
Qed.

Lemma reconcile_loop_total (fil : Dict.t Py.str) (fol : Dict.t Z) ks :
  (forall k, In k ks -> In k (Dict.keys fol)) ->
  forall acc, exists new, reconcile_loop ks fol fil acc = Some new.
Proof.
  induction ks as [|k ks IH]; intros Hks acc; cbn [reconcile_loop];
    [eauto|].
  destruct (negb (Dict.mem k fil)).
  - destruct (get_of_key k fol (Hks k (or_introl eq_refl))) as [n ->].
    apply IH. intros k' H. apply Hks. now right.
  - apply IH. intros k' H. apply Hks. now right.
Qed.

(** The reconciliation step never raises. *)
Lemma reconcile_total (fol : Dict.t Z) (fil : Dict.t Py.str) :
  exists new, reconcile fol fil = Some new.
Proof. apply reconcile_loop_total. auto. Qed.

(** What the loop of [main] does with one folder is one of the four
    things [folder_step] lists. *)
Lemma main_folder_step (cfg : config) (basedir : Py.str)
  (excl : list Py.str) (name_pair : Py.str * Py.str) (s : st W) :
  exists o s1,
    folder_step cfg basedir excl name_pair s o s1
    /\ except_skip (main_folder cfg basedir excl name_pair) s = (o, s1).
Proof.
  destruct name_pair as [foldername filename].
  unfold except_skip, main_folder.
  destruct (existsb (Py.eqb foldername) excl) eqn:Hex.
  { eexists. eexists. split; [now apply folder_excluded | reflexivity]. }
  unfold bind.
  destruct (scan_folder foldername s) as [[fol|e] s1] eqn:Hfol.
  - destruct (scan_file_returns filename (cfg_overwrite cfg) basedir s1)
      as [fil [s2 Hfil]].
    rewrite Hfil. destruct (reconcile_total fol fil) as [new Hnew].
    rewrite Hnew.
    pose proof (resend_messages_outcome RELAY_HOST RELAY_USER new s2) as Hout.
    destruct (resend_messages RELAY_HOST RELAY_USER new s2)
      as [o s3] eqn:Hres.
    exists o, s3. split.
    + eapply folder_relayed; eauto.
    + cbn [fst] in Hout. destruct Hout as [-> | ->]; reflexivity.
  - destruct e;
      try (eexists; eexists;
           split; [eapply folder_scan_failed; eauto; discriminate
                  | reflexivity]).
    eexists. eexists. split; [eapply folder_skipped; eauto | reflexivity].
Qed.

Lemma main_loop_steps (cfg : config) (basedir : Py.str)
  (excl : list Py.str) (names : list (Py.str * Py.str)) :
  forall s : st W,
    exists o s1,
      folder_steps cfg basedir excl names s o s1
      /\ for_each (fun name_pair _ =>
                     except_skip (main_folder cfg basedir excl name_pair))
           names tt s = (o, s1).
Proof.
  induction names as [|name_pair names IH]; intros s.
  - exists (Ret tt), s. split; [constructor | reflexivity].
  - destruct (main_folder_step cfg basedir excl name_pair s)
      as [o [s1 [Hstep Hrun]]].
    cbn [for_each]. unfold bind. rewrite Hrun.
    destruct o as [[]|e].
    + destruct (IH s1) as [o' [s2 [Hsteps Hloop]]].
      exists o', s2. split; [|exact Hloop].
      eapply folders_next; eauto.
    + exists (Raise e), s1. split; [|reflexivity].
      now apply folders_stop.
Qed.

(** C10.  A run of [main] that gets to its per-folder loop goes
    through the selected folders in the order of the listing, up to the
    first one that ends with an exception; and every folder it reaches
    that is not excluded and whose two scans return has its reconciled
    set of new messages handed to [resend_messages] with the relay host
    mx1.besserwisser.org and the recipient haba@besserwisser.org: this
    is the only thing the loop does with the set.  The run ends as the
    last folder did, after the logout if that one returned.  And in a
    whole run of [main], whatever the configuration and the
    collaborators, every relay session is with that host, on port 25,
    for that recipient, and no mbox file is opened or written:
    [download_messages] is not called. *)
Theorem main_hands_new_messages_to_relay (cfg : config) :
  (forall (s s0 : st W) (names : list (Py.str * Py.str)) (w1 : W),
      cfg_true (cfg_folders cfg) && cfg_true (cfg_exclude_folders cfg)
      = false ->
      get_names (cfg_thunderbird cfg) s = (Ret names, s0) ->
      fs_prepare (fs_resolve (cfg_basedir cfg) (world s0))
        (fst (selected cfg names)) (world s0) = (true, w1) ->
      exists o s1,
        folder_steps cfg (fs_resolve (cfg_basedir cfg) (world s0))
          (snd (selected cfg names)) (fst (selected cfg names))
          (mkst w1 (trace s0)) o s1
        /\ main cfg s = (o, run_end o s1))
  /\ (RELAY_HOST = Py.lit "mx1.besserwisser.org"
      /\ RELAY_USER = Py.lit "haba@besserwisser.org")
  /\ emits relay_only (main (W := W) cfg).
Proof.
  split; [|split; [split; reflexivity|]].
  - intros s s0 names w1 Hboth Hnames Hprep.
    destruct (main_loop_steps cfg (fs_resolve (cfg_basedir cfg) (world s0))
                (snd (selected cfg names)) (fst (selected cfg names))
                (mkst w1 (trace s0))) as [o [s1 [Hsteps Hloop]]].
    exists o, s1. split; [exact Hsteps|].
    unfold main. rewrite Hboth. unfold bind at 1. unfold ret at 1.
    cbv beta iota. unfold bind at 1. rewrite Hnames. cbv beta iota.
    change (if cfg_true (cfg_folders cfg)
            then _
            else if cfg_true (cfg_exclude_folders cfg) then _ else _)
      with (selected cfg names).
    destruct (selected cfg names) as [sel excl]. cbn [fst snd] in *.
    unfold bind at 1, ask. cbv beta iota.
    unfold bind at 1, call. rewrite Hprep. cbv beta iota. cbn [negb].
    unfold bind. rewrite Hloop.
    destruct o as [[]|e]; reflexivity.
  - unfold main.
    apply emits_bind; [destruct (_ && _); [apply emits_raise | apply emits_ret]
                      | intros _].
    apply emits_bind; [apply get_names_emits | intros names].
    match goal with
    | |- emits _ (let '(_, _) := ?x in _) => destruct x as [names' excl]
    end.
    apply emits_bind; [apply emits_ask | intros basedir].
    apply emits_bind; [apply emits_call | intros made].
    destruct (negb made); [apply emits_raise|].
    apply emits_bind; [|intros _; apply emits_effect].
    apply emits_for_each. intros name_pair [].
    apply emits_except_skip; [apply main_folder_emits | intros; exact I].
Qed.

End MainTrace.

(** ** The LIST parser terminates

    The fuel [parse_paren_list] starts with is never used up: every
    step of the loop takes at least one character of the row. *)

Lemma dropwhile_length f (s : list N) :
  (List.length (Py.dropwhile f s) <= List.length s)%nat.
Proof.
  induction s as [|c r IH]; simpl; [lia|].
  destruct (f c); simpl; lia.
Qed.

Lemma takewhile_length f (s : list N) :
  (List.length (Py.takewhile f s) <= List.length s)%nat.
Proof.
  induction s as [|c r IH]; simpl; [lia|].
  destruct (f c); simpl; lia.
Qed.

Lemma name_attrib_re_search_shorter row m rest :
  name_attrib_re_search row = Some (m, rest) ->
  (List.length rest + 2 <= List.length row)%nat.
Proof.
  unfold name_attrib_re_search.
  pose proof (dropwhile_length Py.isspace row) as Hd.
  destruct (Py.dropwhile Py.isspace row) as [|c r]; [discriminate|].
  destruct c as [|p]; [discriminate|].
  destruct (Pos.eq_dec p 92) as [->|Hp].
  - destruct (Py.takewhile is_word r) as [|x w] eqn:Hw; [discriminate|].
    intros H. inversion H; subst. clear H.
    pose proof (dropwhile_length Py.isspace
                  (skipn (List.length (x :: w)) r)) as H1.
    pose proof (takewhile_length is_word r) as H2. rewrite Hw in H2.
    rewrite length_skipn in H1. simpl in *. lia.
  - intros H. exfalso.
    do 7 (destruct p as [p|p|]; try discriminate); now elim Hp.
Qed.

Lemma parse_paren_fuel_enough (fuel : nat) :
  (forall row,
      (1 <= fuel)%nat -> (2 * List.length row <= fuel)%nat ->
      parse_paren_list_fuel fuel row <> None
      /\ forall a rest,
           parse_paren_list_fuel fuel row = Some (inr (a, rest)) ->
           (List.length rest + 2 <= List.length row)%nat)
  /\ (forall result row,
        (2 * List.length row + 1 <= fuel)%nat ->
        parse_paren_loop fuel result row <> None
        /\ forall a rest,
             parse_paren_loop fuel result row = Some (inr (a, rest)) ->
             (List.length rest + 1 <= List.length row)%nat).
Proof.
  induction fuel as [|fuel [IHp IHl]]; [split; intros; lia|].
  split.
  - intros row _ Hfuel. cbn [parse_paren_list_fuel].
    destruct row as [|c row']; [split; [discriminate | intros; discriminate]|].
    destruct (c =? 40)%N;
      [|split; [discriminate | intros; discriminate]].
    simpl in Hfuel.
    destruct (IHl [] row') as [Hn Hs]; [lia|].
    split; [exact Hn|]. intros a rest H. apply Hs in H. simpl. lia.
  - intros result row Hfuel. cbn [parse_paren_loop].
    destruct row as [|c row']; [split; [discriminate | intros; discriminate]|].
    simpl in Hfuel.
    destruct (c =? 41)%N.
    { split; [discriminate|]. intros a rest H. inversion H; subst.
      simpl. lia. }
    destruct (c =? 40)%N.
    + destruct (IHp (c :: row')) as [Hn Hs]; [lia | simpl; lia |].
      destruct (parse_paren_list_fuel fuel (c :: row'))
        as [[e | [paren_list row2]]|]; [| |now elim Hn].
      * split; [discriminate | intros; discriminate].
      * specialize (Hs _ _ eq_refl). simpl in Hs.
        destruct (IHl (result ++ [Nested paren_list]) row2) as [Hn2 Hs2];
          [lia|].
        split; [exact Hn2|]. intros a rest H. apply Hs2 in H. simpl. lia.
    + destruct (name_attrib_re_search (c :: row'))
        as [[name_attrib row2]|] eqn:E;
        [|split; [discriminate | intros; discriminate]].
      apply name_attrib_re_search_shorter in E. simpl in E.
      destruct (IHl (result ++ [Name (Py.strip name_attrib)]) row2)
        as [Hn2 Hs2]; [lia|].
      split; [exact Hn2|]. intros a rest H. apply Hs2 in H. simpl. lia.
Qed.

(** [parse_paren_list] always answers: a list of attributes with the
    rest of the row, or the error of the script. *)
Lemma parse_paren_list_total (row : Py.str) : parse_paren_list row <> None.
Proof.
  unfold parse_paren_list.
  apply (parse_paren_fuel_enough (2 * List.length row + 2)); lia.
Qed.

(** So does [parse_list]. *)
Lemma parse_list_total (row : Py.str) : parse_list row <> None.
Proof.
  unfold parse_list. pose proof (parse_paren_list_total (Py.strip row)) as H.
  destruct (parse_paren_list (Py.strip row)) as [[e | [a rest]]|];
    [discriminate | | now elim H].
  destruct (parse_string_list rest) as [|x [|y [|z l]]]; discriminate.
Qed.

(** ** A malformed LIST row *)

Lemma parses_b_sound (row : Py.bytes) : parses_b row = true -> parses row.
Proof.
  unfold parses_b, parses.
  destruct (Py.utf8_decode_strict row) as [row_str|]; [|discriminate].
  destruct (parse_list row_str) as [[e|r]|] eqn:E; try discriminate.
  intros _. exists row_str, r. split; [reflexivity | exact E].
Qed.

Section ListErrors.
Context {W : Type} {C : Collab W}.

Lemma get_names_body_parses thunderbird row names (s : st W) :
  parses row ->
  exists names', get_names_body thunderbird row names s = (Ret names', s).
Proof.
  intros [row_str [[[attrs delim] name] [Hdec Hparse]]].
  unfold get_names_body. rewrite Hdec, Hparse. unfold ret. eauto.
Qed.

Lemma get_names_loop_raises thunderbird (e : exn) row rows_after :
  forall rows_before names (s : st W),
    Forall parses rows_before ->
    (forall names', get_names_body thunderbird row names' s = (Raise e, s)) ->
    for_each (get_names_body thunderbird)
      (rows_before ++ row :: rows_after) names s
    = (Raise e, s).
Proof.
  induction rows_before as [|r rows IH]; intros names s Hpre Hrow.
  - cbn [app for_each]. unfold bind. now rewrite Hrow.
  - inversion Hpre as [|? ? Hr Hrows]; subst.
    cbn [app for_each]. unfold bind.
    destruct (get_names_body_parses thunderbird names s Hr) as [names' ->].
    now apply IH.
Qed.

(** C5 as the script has it.  A LIST row whose text after the attribute
    list does not split into exactly two strings makes [parse_list] fail
    with an [AssertionError]; when the rows before it parse, [get_names]
    raises it, having named no folder, and [main] ends with it: no
    handler of [main] takes an [AssertionError], and no folder is
    scanned. *)
Theorem malformed_list_row_ends_run (cfg : config) (s : st W) (w' : W)
  (rows_before rows_after : list Py.bytes) (row : Py.bytes)
  (row_str : Py.str) (attrs : list attrib) (rest : Py.str) :
  cfg_true (cfg_folders cfg) && cfg_true (cfg_exclude_folders cfg) = false ->
  imap_list (world s) = ((OK, rows_before ++ row :: rows_after), w') ->
  Forall parses rows_before ->
  Py.utf8_decode_strict row = Some row_str ->
  parse_paren_list (Py.strip row_str) = Some (inr (attrs, rest)) ->
  List.length (parse_string_list rest) <> 2%nat ->
  parse_list row_str = Some (inl AssertionError)
  /\ (forall thunderbird,
        get_names thunderbird s = (Raise AssertionError, mkst w' (trace s)))
  /\ main cfg s = (Raise AssertionError, mkst w' (trace s)).
Proof.
  intros Hcfg Hlist Hpre Hdec Hparen Hlen.
  assert (Hrow : parse_list row_str = Some (inl AssertionError)).
  { unfold parse_list. rewrite Hparen.
    destruct (parse_string_list rest) as [|a [|b [|c l]]];
      try reflexivity.
    now elim Hlen. }
  assert (Hnames : forall thunderbird,
             get_names thunderbird s
             = (Raise AssertionError, mkst w' (trace s))).
  { intros thunderbird. unfold get_names, bind, call. rewrite Hlist.
    cbn [fst snd]. rewrite eqb_refl. cbn [assert]. unfold ret at 1.
    apply get_names_loop_raises; [exact Hpre|].
    intros names'. unfold get_names_body. now rewrite Hdec, Hrow. }
  split; [exact Hrow|]. split; [exact Hnames|].
  unfold main. rewrite Hcfg. unfold bind at 1. unfold ret at 1.
  unfold bind at 1. now rewrite Hnames.
Qed.

End ListErrors.

(** ** Boundary quoting, line by line *)

Lemma skipn_takewhile f (s : list N) :
  skipn (List.length (Py.takewhile f s)) s = Py.dropwhile f s.
Proof.
  induction s as [|c r IH]; [reflexivity|].
  simpl. destruct (f c); [exact IH | reflexivity].
Qed.

Lemma takewhile_dropwhile f (s : list N) :
  Py.takewhile f s ++ Py.dropwhile f s = s.
Proof.
  induction s as [|c r IH]; [reflexivity|].
  simpl. destruct (f c); simpl; [now rewrite IH | reflexivity].
Qed.

Lemma takewhile_is_gt (s : list N) :
  Py.takewhile is_gt s = repeat GT (List.length (Py.takewhile is_gt s)).
Proof.
  induction s as [|c r IH]; [reflexivity|].
  simpl. destruct (is_gt c) eqn:E; [|reflexivity].
  simpl. apply N.eqb_eq in E. now rewrite E, <- IH.
Qed.

Lemma takewhile_app_line l rest :
  line_end rest ->
  Py.takewhile is_gt (l ++ rest) = Py.takewhile is_gt l.
Proof.
  intros Hrest. induction l as [|c r IH]; simpl.
  - destruct Hrest as [-> | [r ->]]; reflexivity.
  - destruct (is_gt c); [now rewrite IH | reflexivity].
Qed.

Lemma dropwhile_app_line l rest :
  line_end rest ->
  Py.dropwhile is_gt (l ++ rest) = Py.dropwhile is_gt l ++ rest.
Proof.
  intros Hrest. induction l as [|c r IH]; simpl.
  - destruct Hrest as [-> | [r ->]]; reflexivity.
  - destruct (is_gt c); [exact IH | reflexivity].
Qed.

Lemma startswith_app_line p :
  one_line p ->
  forall x rest, line_end rest ->
    Py.startswith (x ++ rest) p = Py.startswith x p.
Proof.
  induction 1 as [|a p Ha Hp IH]; intros x rest Hrest.
  - now destruct x, rest.
  - destruct x as [|c x]; simpl.
    + destruct Hrest as [-> | [r ->]]; [reflexivity|].
      cbn [Py.startswith].
      destruct (N.eqb_spec a Py.LF); [contradiction | reflexivity].
    + now rewrite IH.
Qed.

Lemma startswith_split s p :
  Py.startswith s p = true -> s = p ++ skipn (List.length p) s.
Proof.
  revert s. induction p as [|a p IH]; intros s H; [reflexivity|].
  destruct s as [|c s]; [discriminate|]. simpl in H.
  apply andb_true_iff in H as [E H]. apply N.eqb_eq in E. subst.
  simpl. f_equal. now apply IH.
Qed.

Lemma skipn_app_plus (a b : list N) n :
  skipn (List.length a + n) (a ++ b) = skipn n b.
Proof. induction a as [|x a IH]; [reflexivity | exact IH]. Qed.

Lemma skipn_app_length (a b : list N) : skipn (List.length a) (a ++ b) = b.
Proof. induction a as [|x a IH]; [reflexivity | exact IH]. Qed.

Lemma one_line_skipn n l : one_line l -> one_line (skipn n l).
Proof.
  intros H. revert n. induction H as [|c r Hc Hr IH]; intros [|n]; simpl;
    try constructor; auto.
Qed.

Lemma one_line_FROM : one_line FROM_.
Proof. repeat constructor; discriminate. Qed.

Lemma from_re_sub_aux_skip n :
  forall s, from_re_sub_aux n s = from_re_sub_aux 0 (skipn n s).
Proof.
  induction n as [|n IH]; intros s; [reflexivity|].
  destruct s as [|c r]; [reflexivity|]. cbn [from_re_sub_aux skipn].
  apply IH.
Qed.

(** Inside a line nothing matches. *)
Lemma from_re_sub_aux_line l rest :
  one_line l ->
  from_re_sub_aux 0 (l ++ rest) = l ++ from_re_sub_aux 0 rest.
Proof.
  induction 1 as [|c r Hc Hr IH]; [reflexivity|].
  cbn [app from_re_sub_aux].
  destruct (N.eqb_spec c Py.LF); [contradiction|].
  cbn [andb]. now rewrite IH.
Qed.

(** A line feed and the line after it. *)
Lemma from_re_sub_aux_next l rest :
  one_line l -> line_end rest ->
  from_re_sub_aux 0 (Py.LF :: l ++ rest)
  = Py.LF :: quote_line l ++ from_re_sub_aux 0 rest.
Proof.
  intros Hl Hrest. cbn [from_re_sub_aux].
  rewrite N.eqb_refl. cbn [andb].
  rewrite skipn_takewhile, dropwhile_app_line by exact Hrest.
  rewrite (startswith_app_line one_line_FROM) by exact Hrest.
  unfold quote_line, is_from_line.
  destruct (Py.startswith (Py.dropwhile is_gt l) FROM_) eqn:E.
  - rewrite from_re_sub_aux_skip, takewhile_app_line by exact Hrest.
    rewrite <- takewhile_is_gt.
    apply startswith_split in E.
    assert (Hl' : l = Py.takewhile is_gt l ++ FROM_
                      ++ skipn (List.length FROM_) (Py.dropwhile is_gt l)).
    { rewrite <- E. symmetry. apply takewhile_dropwhile. }
    set (k := List.length (Py.takewhile is_gt l)) in *.
    set (tl := skipn (List.length FROM_) (Py.dropwhile is_gt l)) in *.
    assert (Hskip : skipn (k + List.length FROM_) (l ++ rest) = tl ++ rest).
    { rewrite Hl' at 1. rewrite <- !app_assoc. subst k.
      rewrite skipn_app_plus. apply skipn_app_length. }
    rewrite Hskip, from_re_sub_aux_line.
    + cbn [app]. f_equal. f_equal. rewrite Hl' at 2.
      now rewrite <- !app_assoc.
    + subst tl. apply one_line_skipn.
      unfold one_line. apply dropwhile_Forall. exact Hl.
  - now rewrite from_re_sub_aux_line.
Qed.

Lemma line_end_concat (f : Py.bytes -> Py.bytes) lines :
  line_end (List.concat (map (fun l => Py.LF :: f l) lines)).
Proof. destruct lines; [now left | right; simpl; eauto]. Qed.

(** In the default mode every line of the text but the first is
    quoted by itself: a line that reads "From " after zero or more [>]
    gets exactly one more [>], any other line is left as it is.  The
    first line is never changed. *)
Lemma from_re_sub_lines first lines :
  one_line first -> Forall one_line lines ->
  from_re_sub (text_of first lines) = text_of first (map quote_line lines).
Proof.
  intros Hfirst Hlines. unfold from_re_sub, text_of.
  rewrite from_re_sub_aux_line by exact Hfirst. f_equal.
  induction Hlines as [|l lines Hl _ IH]; [reflexivity|].
  cbn [map List.concat app].
  rewrite from_re_sub_aux_next, IH.
  - reflexivity.
  - exact Hl.
  - apply (line_end_concat (fun l => l)).
Qed.

Lemma replace_aux_skip old new n :
  forall s,
    Py.replace_aux old new None n s
    = Py.replace_aux old new None 0 (skipn n s).
Proof.
  induction n as [|n IH]; intros s; [reflexivity|].
  destruct s as [|c r]; [reflexivity|]. cbn [Py.replace_aux skipn].
  apply IH.
Qed.

Lemma thunderbird_line l rest :
  one_line l ->
  Py.replace (Py.LF :: FROM_) (Py.LF :: Py.SP :: FROM_) (l ++ rest)
  = l ++ Py.replace (Py.LF :: FROM_) (Py.LF :: Py.SP :: FROM_) rest.
Proof.
  unfold Py.replace. induction 1 as [|c r Hc Hr IH]; [reflexivity|].
  cbn [app Py.replace_aux Py.startswith].
  destruct (N.eqb_spec Py.LF c); [now elim Hc|].
  cbn [andb]. now rewrite IH.
Qed.

Lemma thunderbird_next l rest :
  one_line l -> line_end rest ->
  Py.replace (Py.LF :: FROM_) (Py.LF :: Py.SP :: FROM_) (Py.LF :: l ++ rest)
  = Py.LF :: space_line l
    ++ Py.replace (Py.LF :: FROM_) (Py.LF :: Py.SP :: FROM_) rest.
Proof.
  intros Hl Hrest. unfold Py.replace at 1.
  cbn [Py.replace_aux Py.startswith option_map]. rewrite N.eqb_refl.
  cbn [andb].
  rewrite (startswith_app_line one_line_FROM) by exact Hrest.
  unfold space_line. destruct (Py.startswith l FROM_) eqn:E.
  - rewrite replace_aux_skip.
    apply startswith_split in E.
    set (tl := skipn (List.length FROM_) l) in *.
    assert (Hskip : skipn (List.length (Py.LF :: FROM_) - 1) (l ++ rest)
                    = tl ++ rest).
    { rewrite E at 1. rewrite <- app_assoc.
      cbn [List.length]. rewrite Nat.sub_succ, Nat.sub_0_r.
      apply skipn_app_length. }
    rewrite Hskip. fold (Py.replace (Py.LF :: FROM_) (Py.LF :: Py.SP :: FROM_)
                           (tl ++ rest)).
    rewrite thunderbird_line by (subst tl; now apply one_line_skipn).
    cbn [app]. f_equal. f_equal. rewrite E at 1.
    now rewrite <- app_assoc.
  - fold (Py.replace (Py.LF :: FROM_) (Py.LF :: Py.SP :: FROM_) (l ++ rest)).
    now rewrite thunderbird_line.
Qed.

(** In Thunderbird mode every line but the first that starts with
    "From " gets a leading space, and no other line changes. *)
Lemma thunderbird_lines first lines :
  one_line first -> Forall one_line lines ->
  Py.replace (Py.LF :: FROM_) (Py.LF :: Py.SP :: FROM_) (text_of first lines)
  = text_of first (map space_line lines).
Proof.
  intros Hfirst Hlines. unfold text_of.
  rewrite thunderbird_line by exact Hfirst. f_equal.
  induction Hlines as [|l lines Hl _ IH]; [reflexivity|].
  cbn [map List.concat app].
  rewrite thunderbird_next, IH.
  - reflexivity.
  - exact Hl.
  - apply (line_end_concat (fun l => l)).
Qed.

(** A quoted line never reads as an envelope line. *)
Lemma quote_line_not_envelope l :
  Py.startswith (quote_line l) FROM_ = false.
Proof.
  unfold quote_line, is_from_line.
  destruct (Py.startswith (Py.dropwhile is_gt l) FROM_) eqn:E;
    [reflexivity|].
  destruct l as [|c r]; [reflexivity|].
  cbn [Py.dropwhile] in E. destruct (is_gt c) eqn:G; [|exact E].
  apply N.eqb_eq in G. subst c. reflexivity.
Qed.

Lemma space_line_not_envelope l :
  Py.startswith (space_line l) FROM_ = false.
Proof.
  unfold space_line. destruct (Py.startswith l FROM_) eqn:E;
    [reflexivity | exact E].
Qed.

(** ** More runs on the demonstration mailbox *)

Module Scenarios.
Import Demo.

Lemma reconcile_new_message_set_witness :
  NoDup (Dict.keys [(Py.lit "<a@x>", 1%Z); (Py.lit "<b@x>", 2%Z);
                    (Py.lit "<c@x>", 3%Z)])
  /\ reconcile [(Py.lit "<a@x>", 1%Z); (Py.lit "<b@x>", 2%Z);
                (Py.lit "<c@x>", 3%Z)]
       [(Py.lit "<b@x>", Py.lit "<b@x>")]
     = Some [(Py.lit "<a@x>", 1%Z); (Py.lit "<c@x>", 3%Z)].
Proof.
  assert (ND : NoDup (Dict.keys [(Py.lit "<a@x>", 1%Z); (Py.lit "<b@x>", 2%Z);
                                 (Py.lit "<c@x>", 3%Z)])).
  { repeat constructor; simpl; intuition discriminate. }
  split; [exact ND|].
  destruct (@reconcile_new_message_set _ [(Py.lit "<b@x>", Py.lit "<b@x>")]
              ND) as [new [H1 [H2 _]]].
  rewrite H1, H2. reflexivity.
Defined.

(** The scenario of the batch of 35: thirty messages marked seen, one
    pause, the 31st marked unseen, the last four marked seen. *)
Example resend_batch_of_35 :
  fst (resend_messages RELAY_HOST RELAY_USER batch35 (start relay35)) = Ret tt
  /\ filter store_or_sleep
       (trace (snd (resend_messages RELAY_HOST RELAY_USER batch35
                      (start relay35))))
     = map (stored "+FLAGS") (seq 1 30) ++ [EvSleep 60]
       ++ [stored "-FLAGS" 31] ++ map (stored "+FLAGS") (seq 32 4).
Proof. split; vm_compute; reflexivity. Qed.


(** C5, the counterexample.  Of three LIST rows the second has three
    strings after its attribute list; the first and the third are well
    formed.  The run does not go on to the other folders: [main] ends
    with the [AssertionError] and nothing has been relayed, though the
    mailbox holds an unseen message. *)
Lemma malformed_list_row_stops_every_folder :
  parses row_inbox /\ parses row_sent
  /\ main plain (start three_rows) = (Raise AssertionError, start three_rows)
  /\ fst (main plain (start three_rows)) <> Ret tt.
Proof.
  split; [apply parses_b_sound; vm_compute; reflexivity|].
  split; [apply parses_b_sound; vm_compute; reflexivity|].
  split; [vm_compute; reflexivity | vm_compute; discriminate].
Qed.

Lemma malformed_list_row_ends_run_witness :
  parse_list (Py.lit "(\HasNoChildren) " ++ [34; 47; 34; 32]%N
              ++ Py.lit "Sent Items") = Some (inl AssertionError)
  /\ main plain (start three_rows) = (Raise AssertionError, start three_rows).
Proof.
  assert (Hpre : Forall parses [row_inbox]).
  { constructor; [|constructor].
    apply parses_b_sound. vm_compute. reflexivity. }
  destruct (@malformed_list_row_ends_run world collab plain
              (start three_rows) three_rows [row_inbox] [row_sent]
              row_three_strings
              (Py.lit "(\HasNoChildren) " ++ [34; 47; 34; 32]%N
               ++ Py.lit "Sent Items")
              [Name (Py.lit "\HasNoChildren")]
              ([32; 34; 47; 34; 32]%N ++ Py.lit "Sent Items"))
    as [H1 [_ H3]].
  - reflexivity.
  - reflexivity.
  - exact Hpre.
  - vm_compute. reflexivity.
  - vm_compute. reflexivity.
  - vm_compute. discriminate.
  - split; [exact H1 | exact H3].
Defined.

Lemma main_hands_new_messages_to_relay_witness :
  exists o s1,
    folder_steps plain (Py.lit "/backup") []
      [(INBOX, Py.lit "INBOX.mbox")] (start one_folder) o s1
    /\ main plain (start one_folder) = (o, run_end o s1).
Proof.
  destruct (main_hands_new_messages_to_relay (W := world) plain) as [H _].
  destruct (H (start one_folder) (start one_folder)
              [(INBOX, Py.lit "INBOX.mbox")] one_folder)
    as [o [s1 [Hsteps Hmain]]].
  - reflexivity.
  - vm_compute. reflexivity.
  - vm_compute. reflexivity.
  - exists o, s1. split; [exact Hsteps | exact Hmain].
Defined.

(** The run of [main] on one folder holding a known and a new message:
    the new one is relayed and marked seen. *)
Example main_one_folder :
  fst (main plain (start one_folder)) = Ret tt
  /\ filter store_or_sleep (trace (snd (main plain (start one_folder))))
     = [stored "+FLAGS" 2].
Proof. split; vm_compute; reflexivity. Qed.

(** C4.  The first line of the text escapes the quoting, in both modes:
    the pattern and the replaced text both start with a line feed, and
    no line feed precedes the first line.  A fetched message whose first
    line reads From spoofed is written with that line as it is, right
    after the envelope line; so is a message without header lines, whose
    body line becomes the first line once the text is stripped.  The
    later line From spoofed is quoted. *)
Theorem quote_message_first_line_unquoted :
  quote_message false spoofed_raw
  = Py.lit "From spoofed" ++ [Py.LF] ++ Py.lit "Subject: x"
    ++ [Py.LF; Py.LF] ++ Py.lit ">From spoofed" ++ [Py.LF] ++ Py.lit "bye"
  /\ quote_message true spoofed_raw
     = Py.lit "From spoofed" ++ [Py.LF] ++ Py.lit "Subject: x"
       ++ [Py.LF; Py.LF] ++ Py.lit " From spoofed" ++ [Py.LF] ++ Py.lit "bye"
  /\ quote_message false headerless_raw = Py.lit "From spoofed"
  /\ quote_message true headerless_raw = Py.lit "From spoofed"
  /\ trace (snd (download_messages (Py.lit "INBOX.mbox")
                   [(Py.lit "<a@x>", 1%Z)] false false (Py.lit "/backup")
                   false (start spoofed)))
     = [EvMboxOpen (Py.lit "/backup/INBOX.mbox");
        EvMboxWrite (Py.lit "/backup/INBOX.mbox")
          (Py.lit "From nobody Thu Jan  1 00:00:00 1970" ++ [Py.LF]);
        EvMboxWrite (Py.lit "/backup/INBOX.mbox")
          (Py.lit "From spoofed" ++ [Py.LF] ++ Py.lit "Subject: x"
           ++ [Py.LF; Py.LF] ++ Py.lit ">From spoofed" ++ [Py.LF]
           ++ Py.lit "bye");
        EvMboxWrite (Py.lit "/backup/INBOX.mbox") [Py.LF; Py.LF]].
Proof. repeat split; vm_compute; reflexivity. Qed.

End Scenarios.

(** * Further properties of the script *)

(** ** The two indexes *)

Lemma set_keys_NoDup (V : Type) (k : Py.str) (v : V) (d : Dict.t V) :
  NoDup (Dict.keys d) -> NoDup (Dict.keys (Dict.set k v d)).
Proof.
  intros ND. destruct (Dict.mem k d) eqn:E.
  - now rewrite set_keys_present.
  - rewrite set_fresh by exact E. unfold Dict.keys. rewrite map_app.
    simpl. apply NoDup_app; [exact ND | repeat constructor; intros [] |].
    intros x Hx [<- | []]. apply mem_false_keys in E. contradiction.
Qed.

Lemma set_length (V : Type) (k : Py.str) (v : V) (d : Dict.t V) :
  (List.length (Dict.set k v d) <= S (List.length d))%nat.
Proof.
  induction d as [|[k' v'] d IH]; simpl; [lia|].
  destruct (Py.eqb k k'); simpl; lia.
Qed.

Lemma filter_absent_empty (d : Dict.t Z) : filter (absent_from []) d = d.
Proof. induction d as [|e d IH]; simpl; congruence. Qed.

Lemma reconcile_filter (fol : Dict.t Z) (fil : Dict.t Py.str) :
  NoDup (Dict.keys fol) ->
  reconcile fol fil = Some (filter (absent_from fil) fol).
Proof. intros ND. exact (reconcile_loop_filter fil fol [] ND). Qed.

Section Indexes.
Context {W : Type} {C : Collab W}.

Lemma for_each_length_bound {A V : Type}
  (body : A -> Dict.t V -> M W (Dict.t V)) :
  (forall x d s d' s',
      body x d s = (Ret d', s') ->
      (List.length d' <= S (List.length d))%nat) ->
  forall xs d s r s',
    for_each body xs d s = (Ret r, s') ->
    (List.length r <= List.length d + List.length xs)%nat.
Proof.
  intros Hbody. induction xs as [|x xs IH]; intros d s r s' H.
  - cbn in H. inversion H; subst. lia.
  - cbn [for_each] in H. unfold bind in H.
    destruct (body x d s) as [[d1|e] s1] eqn:E; [|discriminate].
    apply Hbody in E. apply IH in H. simpl. lia.
Qed.

Lemma scan_folder_keys_unique (foldername : Py.str) (s s' : st W)
  (messages : Dict.t Z) :
  scan_folder foldername s = (Ret messages, s') ->
  NoDup (Dict.keys messages)
  /\ (List.length messages
      <= List.length (Py.split_ws (payload (search_reply foldername s))))%nat.
Proof.
  intros Hrun.
  unfold scan_folder, bind, call, raise in Hrun. unfold search_reply.
  destruct (imap_select _ (world s)) as [r1 w1].
  cbv beta iota in Hrun. cbn [fst snd world trace].
  destruct (negb (Py.eqb OK (typ r1))); [discriminate|].
  cbn [world trace] in Hrun.
  destruct (imap_search _ w1) as [r2 w2].
  cbv beta iota in Hrun. cbn [fst snd].
  destruct (negb (Py.eqb OK (typ r2))); [discriminate|].
  split.
  - revert Hrun.
    apply (for_each_invariant (fun d : Dict.t Z => NoDup (Dict.keys d)));
      [|constructor].
    intros tok acc t acc' t' _ Hacc Hbody.
    apply scan_folder_body_ret in Hbody as [-> | [k [n [_ ->]]]];
      [exact Hacc | now apply set_keys_NoDup].
  - apply (for_each_length_bound scan_folder_body) in Hrun; [exact Hrun|].
    intros tok d t d' t' Hbody.
    apply scan_folder_body_ret in Hbody as [-> | [k [n [_ ->]]]];
      [lia | apply set_length].
Qed.

(** X1.  The remote index [scan_folder] returns has one entry per
    identifier and no more entries than the UNSEEN reply lists numbers;
    so the reconciliation step applied to it is the filter on the
    identifiers absent from the local index. *)
Theorem scan_folder_index_well_formed (foldername : Py.str) (s s' : st W)
  (messages : Dict.t Z) :
  scan_folder foldername s = (Ret messages, s') ->
  NoDup (Dict.keys messages)
  /\ (List.length messages
      <= List.length (Py.split_ws (payload (search_reply foldername s))))%nat
  /\ forall fil_messages,
       reconcile messages fil_messages
       = Some (filter (absent_from fil_messages) messages).
Proof.
  intros Hrun.
  destruct (scan_folder_keys_unique foldername s Hrun) as [ND Hlen].
  repeat split; [exact ND | exact Hlen |].
  intros fil. exact (reconcile_loop_filter fil messages [] ND).
Qed.

(** X2.  In overwrite mode the archive is not consulted: every message
    of the remote index is handed to the relay. *)
Theorem overwrite_relays_whole_index (cfg : config) (basedir : Py.str)
  (excl : list Py.str) (foldername filename : Py.str) (s s1 : st W)
  (fol_messages : Dict.t Z) :
  cfg_overwrite cfg = true ->
  existsb (Py.eqb foldername) excl = false ->
  scan_folder foldername s = (Ret fol_messages, s1) ->
  main_folder cfg basedir excl (foldername, filename) s
  = resend_messages RELAY_HOST RELAY_USER fol_messages s1.
Proof.
  intros Hov Hex Hfol.
  destruct (scan_folder_keys_unique foldername s Hfol) as [ND _].
  unfold main_folder. rewrite Hex. unfold bind. rewrite Hfol.
  unfold scan_file. rewrite Hov. unfold ret.
  unfold Dict.empty.
  now rewrite (@reconcile_filter fol_messages [] ND), filter_absent_empty.
Qed.

(** X3.  When the local index holds every identifier of the remote
    index, nothing is new; and reconciling the set of new messages
    again with the same local index changes nothing. *)
Theorem reconcile_settled (fol_messages : Dict.t Z)
  (fil_messages : Dict.t Py.str) :
  NoDup (Dict.keys fol_messages) ->
  ((forall msg_id, In msg_id (Dict.keys fol_messages) ->
                   Dict.mem msg_id fil_messages = true) ->
   reconcile fol_messages fil_messages = Some [])
  /\ exists new_messages,
       reconcile fol_messages fil_messages = Some new_messages
       /\ reconcile new_messages fil_messages = Some new_messages.
Proof.
  intros ND. split.
  - intros Hall.
    rewrite (@reconcile_filter fol_messages fil_messages ND).
    apply f_equal. clear ND.
    induction fol_messages as [|[k v] d IH]; [reflexivity|].
    simpl. unfold absent_from at 1. simpl.
    rewrite (Hall k (or_introl eq_refl)). simpl.
    apply IH. intros k' H. apply Hall. now right.
  - exists (filter (absent_from fil_messages) fol_messages).
    split; [exact (@reconcile_filter fol_messages fil_messages ND)|].
    assert (ND' : NoDup (Dict.keys
                           (filter (absent_from fil_messages) fol_messages))).
    { clear -ND. induction fol_messages as [|[k v] d IH]; [constructor|].
      inversion ND; subst. simpl. destruct (absent_from _ _); [|now apply IH].
      simpl. constructor; [|now apply IH].
      intros H. now apply keys_filter_sub in H. }
    rewrite (@reconcile_filter _ fil_messages ND'). apply f_equal.
    clear. induction fol_messages as [|e d IH]; [reflexivity|].
    simpl. destruct (absent_from fil_messages e) eqn:E; [|exact IH].
    simpl. now rewrite E, IH.
Qed.

(** X4.  The scan of an existing archive never raises and leaves the
    world as it is.  The local index it returns has one entry per
    identifier, each identifier mapped to itself, and holds an
    identifier exactly when some entry of the archive yields it. *)
Theorem scan_file_index (filename basedir : Py.str) (s : st W) :
  fs_exists (os_path_join basedir filename) (world s) = true ->
  exists messages s',
    scan_file filename false basedir s = (Ret messages, s')
    /\ world s' = world s
    /\ NoDup (Dict.keys messages)
    /\ (forall k v, In (k, v) messages -> v = k)
    /\ (forall k,
          Dict.mem k messages = true
          <-> exists v,
                In v (mbox_message_ids (os_path_join basedir filename)
                        (world s))
                /\ entry_id v = Some k).
Proof.
  intros Hex. unfold scan_file, bind, ask. rewrite Hex.
  cbv beta iota. cbn [negb].
  set (mbox := mbox_message_ids (os_path_join basedir filename) (world s)).
  clearbody mbox.
  assert (Hloop : forall (mbox : list (option Py.str)) i d (t : st W),
             NoDup (Dict.keys d) ->
             (forall k v, In (k, v) d -> v = k) ->
             exists i' d' t',
               for_each (scan_file_body filename) mbox (i, d) t
               = (Ret (i', d'), t')
               /\ world t' = world t
               /\ NoDup (Dict.keys d')
               /\ (forall k v, In (k, v) d' -> v = k)
               /\ (forall k,
                     Dict.mem k d' = true
                     <-> Dict.mem k d = true
                         \/ exists v, In v mbox /\ entry_id v = Some k)).
  { clear. induction mbox as [|m mbox IH]; intros i d t ND Hval.
    - exists i, d, t. cbn. repeat split; auto.
      intros [H | [v [[] _]]]. exact H.
    - cbn [for_each]. unfold bind, scan_file_body.
      fold (entry_id m). destruct (entry_id m) as [k0|] eqn:Em.
      + destruct (negb (Dict.mem k0 d)) eqn:Ek; unfold ret.
        * destruct (IH (i + 1)%Z (Dict.set k0 k0 d) t) as
            [i' [d' [t' [H1 [H2 [H3 [H4 H5]]]]]]].
          { now apply set_keys_NoDup. }
          { intros k v Hin. apply in_set in Hin as [Hin | [-> ->]]; auto. }
          exists i', d', t'. repeat split; auto.
          -- intros H. apply H5 in H as [H | [v [Hv Hk]]].
             ++ rewrite mem_set, orb_true_iff, eqb_eq in H.
                destruct H as [-> | H]; [right; exists m; simpl; auto|].
                now left.
             ++ right. exists v. simpl. auto.
          -- intros H. apply H5. rewrite mem_set, orb_true_iff, eqb_eq.
             destruct H as [H | [v [[<- | Hv] Hk]]]; auto.
             ++ left. left. congruence.
             ++ right. eauto.
        * destruct (IH (i + 1)%Z d t ND Hval) as
            [i' [d' [t' [H1 [H2 [H3 [H4 H5]]]]]]].
          exists i', d', t'. repeat split; auto.
          -- intros H. apply H5 in H as [H | [v [Hv Hk]]]; auto.
             right. exists v. simpl. auto.
          -- intros H. apply H5.
             destruct H as [H | [v [[<- | Hv] Hk]]]; auto.
             ++ left. apply negb_false_iff in Ek. congruence.
             ++ right. eauto.
      + unfold emit, ret. cbn [world trace].
        destruct (IH (i + 1)%Z d
                    (mkst (world t) (trace t ++ [EvWarnMalformed i filename]))
                    ND Hval) as [i' [d' [t' [H1 [H2 [H3 [H4 H5]]]]]]].
        exists i', d', t'. repeat split; auto.
        -- intros H. apply H5 in H as [H | [v [Hv Hk]]]; auto.
           right. exists v. simpl. auto.
        -- intros H. apply H5.
           destruct H as [H | [v [[<- | Hv] Hk]]]; auto.
           ++ congruence.
           ++ right. eauto. }
  destruct (Hloop mbox 0%Z Dict.empty s) as
    [i' [d' [t' [H1 [H2 [H3 [H4 H5]]]]]]];
    [constructor | intros k v [] |].
  exists d', t'. rewrite H1. unfold ret. cbn [snd].
  repeat split; auto.
  - intros H. apply H5 in H as [H | H]; [discriminate | exact H].
  - intros H. apply H5. now right.
Qed.

End Indexes.

(** ** Identifiers, from the header to the archive and back *)

Lemma dropwhile_all f (p r : list N) :
  Forall (fun c => f c = true) p -> Py.dropwhile f (p ++ r) = Py.dropwhile f r.
Proof.
  induction 1 as [|c p Hc _ IH]; [reflexivity|]. simpl. now rewrite Hc.
Qed.

Lemma takewhile_all f (s : list N) :
  Forall (fun c => f c = true) s -> Py.takewhile f s = s.
Proof.
  induction 1 as [|c s Hc _ IH]; [reflexivity|]. simpl. now rewrite Hc, IH.
Qed.

(** Stripping text that starts with a non-blank, ends with a non-blank
    and is followed by blanks only takes the blanks off. *)
Lemma strip_with_framed f (a z : N) (m tl : list N) :
  f a = false -> f z = false -> Forall (fun c => f c = true) tl ->
  Py.strip_with f ((a :: m ++ [z]) ++ tl) = a :: m ++ [z].
Proof.
  intros Ha Hz Htl. unfold Py.strip_with, Py.rstrip_with, Py.lstrip_with.
  rewrite <- app_comm_cons. cbn [Py.dropwhile]. rewrite Ha.
  rewrite app_comm_cons, rev_app_distr.
  rewrite dropwhile_all by now apply Forall_rev.
  rewrite app_comm_cons, rev_app_distr.
  cbn [rev app Py.dropwhile]. rewrite Hz.
  cbn [rev]. rewrite rev_app_distr, rev_involutive. reflexivity.
Qed.

Lemma blanks_sub_aux_nonspace (p r : Py.str) :
  Forall nonspace p ->
  Py.blanks_sub_aux false (p ++ r) = p ++ Py.blanks_sub_aux false r.
Proof.
  induction 1 as [|c p Hc _ IH]; [reflexivity|].
  cbn [app Py.blanks_sub_aux]. rewrite Hc. now rewrite IH.
Qed.

Lemma blanks_sub_aux_token (s : Py.str) (b : bool) :
  Forall nonspace s -> Py.blanks_sub_aux b s = s.
Proof.
  intros H. destruct H as [|c s Hc Hs]; [reflexivity|].
  cbn [Py.blanks_sub_aux]. rewrite Hc.
  rewrite <- (app_nil_r s) at 1.
  rewrite blanks_sub_aux_nonspace by exact Hs. cbn. now rewrite app_nil_r.
Qed.

(** A header name, one space and a value without blanks are left as
    they are by the whitespace collapse. *)
Lemma blanks_sub_header (n0 id : Py.str) :
  Forall nonspace n0 -> Forall nonspace id ->
  Py.blanks_sub (n0 ++ Py.SP :: id) = n0 ++ Py.SP :: id.
Proof.
  intros Hn Hid. unfold Py.blanks_sub.
  rewrite blanks_sub_aux_nonspace by exact Hn.
  cbn [Py.blanks_sub_aux]. change (Py.isspace Py.SP) with true.
  cbv beta iota. now rewrite blanks_sub_aux_token.
Qed.

Lemma ci_prefix_app (p q r : Py.str) :
  ci_prefix p q = Some [] -> ci_prefix p (q ++ r) = Some r.
Proof.
  revert q. induction p as [|x p IH]; intros q H.
  - simpl in H. inversion H; subst. reflexivity.
  - destruct q as [|c q]; [discriminate|]. simpl in *.
    destruct (ci_literal x c); [now apply IH | discriminate].
Qed.

Lemma nonspace_not_LF (s : Py.str) :
  Forall nonspace s ->
  Forall (fun c => negb (c =? Py.LF)%N = true) s.
Proof.
  apply Forall_impl. intros c Hc.
  destruct (N.eqb_spec c Py.LF) as [->|]; [discriminate Hc | reflexivity].
Qed.

(** The pattern on a header whose name matches and whose value is one
    token. *)
Lemma MSGID_RE_match_token (name id : Py.str) :
  ci_prefix MSGID_PREFIX name = Some [] ->
  id <> [] -> Forall nonspace id ->
  MSGID_RE_match (name ++ id) = Some id.
Proof.
  intros Hname Hne Hid. unfold MSGID_RE_match.
  fold MSGID_PREFIX. rewrite (ci_prefix_app _ _ id Hname).
  rewrite takewhile_all by now apply nonspace_not_LF.
  destruct id; [now elim Hne | reflexivity].
Qed.

Lemma entry_id_token (msg_id : Py.str) :
  msg_id <> [] -> Forall nonspace msg_id ->
  entry_id (Some msg_id) = Some msg_id.
Proof.
  intros Hne Hid. unfold entry_id, format_message_id_header.
  destruct (exists_last Hne) as [m [z Hz]].
  assert (Hzs : Py.isspace z = false).
  { rewrite Hz in Hid. apply Forall_app in Hid as [_ Hid].
    now inversion Hid. }
  change (Py.lit "Message-Id" ++ Py.lit ": " ++ msg_id)
    with (Py.lit "Message-Id: " ++ msg_id).
  assert (Hstrip : Py.strip (Py.lit "Message-Id: " ++ msg_id)
                   = Py.lit "Message-Id: " ++ msg_id).
  { rewrite Hz.
    pose proof (@strip_with_framed Py.isspace 77 z
                  (Py.lit "essage-Id: " ++ m) [] eq_refl Hzs
                  (Forall_nil _)) as H.
    rewrite app_nil_r, <- app_assoc in H. exact H. }
  rewrite Hstrip.
  change (Py.lit "Message-Id: " ++ msg_id)
    with (Py.lit "Message-Id:" ++ Py.SP :: msg_id).
  rewrite blanks_sub_header;
    [|repeat constructor | exact Hid].
  change (Py.lit "Message-Id:" ++ Py.SP :: msg_id)
    with (Py.lit "Message-Id: " ++ msg_id).
  now apply MSGID_RE_match_token.
Qed.

Section ArchiveRoundTrip.
Context {W : Type} {C : Collab W}.

(** X5.  An identifier without whitespace that stands in the archive
    as the value of a Message-Id header is the identifier [scan_file]
    reads off that entry: the step of the scan on that entry indexes it
    under itself, unless it is there already, and logs nothing. *)
Theorem archived_identifier_read_back (filename msg_id : Py.str) (i : Z)
  (messages : Dict.t Py.str) (s : st W) :
  msg_id <> [] -> Forall nonspace msg_id ->
  entry_id (Some msg_id) = Some msg_id
  /\ scan_file_body filename (Some msg_id) (i, messages) s
     = (Ret ((i + 1)%Z,
             if Dict.mem msg_id messages then messages
             else Dict.set msg_id msg_id messages), s).
Proof.
  intros Hne Hid. pose proof (entry_id_token Hne Hid) as H.
  split; [exact H|]. unfold scan_file_body. unfold entry_id in H.
  rewrite H. destruct (Dict.mem msg_id messages); reflexivity.
Qed.

End ArchiveRoundTrip.

Lemma contains_here (needle r : list N) : Py.contains needle (needle ++ r) = true.
Proof.
  assert (H : forall p s, Py.startswith (p ++ s) p = true).
  { induction p as [|x p IH]; intros s; [now destruct s|].
    simpl. now rewrite N.eqb_refl, IH. }
  destruct needle as [|x n]; [now destruct r|].
  cbn [app Py.contains]. change (x :: n ++ r) with ((x :: n) ++ r).
  now rewrite H.
Qed.

Lemma contains_later (needle : list N) (c : N) (s : list N) :
  Py.contains needle s = true -> Py.contains needle (c :: s) = true.
Proof. intros H. cbn [Py.contains]. rewrite H. apply orb_true_r. Qed.

Lemma is_hex_nonspace (s : Py.str) :
  forallb is_hex s = true -> Forall nonspace s.
Proof.
  induction s as [|c s IH]; [constructor|].
  cbn [forallb]. intros H. apply andb_true_iff in H as [Hc Hs].
  constructor; [|now apply IH].
  unfold nonspace, Py.isspace. unfold is_hex, Py.in_range in *.
  bool_arith.
Qed.

(** X6.  A synthesised identifier carries the namespace token, so
    [download_messages] writes it as a Message-Id line; and
    [scan_file] reads that line back as the same identifier. *)
Theorem synthesised_identifier_survives (raw : Py.bytes) (key : Py.str) :
  synth_msg_id raw = Some key ->
  Py.contains UUID key = true /\ entry_id (Some key) = Some key.
Proof.
  unfold synth_msg_id. destruct (Py.utf8_encode _) as [text|]; [|discriminate].
  intros H.
  assert (Hk : key = Py.lit "<" ++ UUID ++ Py.lit "." ++ SHA1.hexdigest text
                     ++ Py.lit ">") by congruence.
  rewrite Hk. clear H Hk. split.
  - match goal with
    | |- Py.contains _ (_ ++ ?x) = true =>
        change (Py.contains UUID (60%N :: x) = true)
    end.
    apply contains_later, contains_here.
  - destruct (hexdigest_shape text) as [_ Hhex].
    apply entry_id_token; [discriminate|].
    apply Forall_app. split; [repeat constructor|].
    apply Forall_app. split; [repeat constructor|].
    apply Forall_app. split; [repeat constructor|].
    apply Forall_app. split; [now apply is_hex_nonspace | repeat constructor].
Qed.

Ltac range_arith :=
  repeat
    (match goal with
     | |- context [(?a <? ?b)%N] =>
         destruct (N.ltb_spec a b); cbn [andb orb negb]
     | |- context [(?a <=? ?b)%N] =>
         destruct (N.leb_spec a b); cbn [andb orb negb]
     | |- context [(?a =? ?b)%N] =>
         destruct (N.eqb_spec a b); cbn [andb orb negb]
     end;
     try (exfalso; lia));
  try reflexivity.

Lemma isspace_printable (c : N) :
  (33 <= c)%N -> (c < 128)%N -> Py.isspace c = false.
Proof. intros H1 H2. unfold Py.isspace, Py.in_range. range_arith. Qed.

Lemma utf8_decode_ascii (b : Py.bytes) :
  ascii7 b -> Py.utf8_decode_replace b = b.
Proof.
  unfold Py.utf8_decode_replace.
  induction 1 as [|c r Hc _ IH]; [reflexivity|].
  cbn [Py.utf8_decode_aux]. apply N.ltb_lt in Hc. rewrite Hc.
  cbn [map]. now rewrite IH.
Qed.

Lemma utf8_encode_ascii (s : Py.str) :
  ascii7 s -> Py.utf8_encode s = Some s.
Proof.
  induction 1 as [|c r Hc _ IH]; [reflexivity|].
  cbn [Py.utf8_encode]. unfold Py.encodable, Py.utf8_encode_char.
  assert (H1 : (c <? 55296)%N = true) by (apply N.ltb_lt; lia).
  assert (H2 : (c <? 128)%N = true) by (apply N.ltb_lt; lia).
  rewrite H1, H2, IH. reflexivity.
Qed.

(** A 7-bit character whose lower case is [p] is accepted for the
    pattern letter [p], and is a blank only if [p] is. *)
Lemma tolower_facts (c p : N) :
  (c < 128)%N -> tolower c = p ->
  ci_literal p c = true
  /\ (Py.isspace p = false -> Py.isspace c = false)
  /\ (p = 32%N -> c = 32%N).
Proof.
  intros Hc Hp. unfold ci_literal. rewrite Hp, N.eqb_refl. cbn [orb].
  split; [reflexivity|]. revert Hp. unfold tolower, Py.in_range.
  destruct (N.leb_spec 65 c); destruct (N.leb_spec c 90); cbn [andb];
    try (destruct (N.eqb_spec c 304); [lia|];
         destruct (N.eqb_spec c 8490); [lia|];
         intros ->; split; [tauto | intros ->; reflexivity]).
  intros <-. split; [intros _; apply isspace_printable; lia | lia].
Qed.

Lemma header_name_shape (name : Py.str) :
  map tolower name = MSGID_PREFIX -> ascii7 name ->
  exists a n1,
    name = (a :: n1) ++ [Py.SP]
    /\ Forall nonspace (a :: n1)
    /\ ci_prefix MSGID_PREFIX name = Some [].
Proof.
  change MSGID_PREFIX
    with [109; 101; 115; 115; 97; 103; 101; 45; 105; 100; 58; 32]%N.
  intros Hmap Hascii.
  destruct name as [|c1 [|c2 [|c3 [|c4 [|c5 [|c6 [|c7 [|c8 [|c9 [|c10
    [|c11 [|c12 [|]]]]]]]]]]]]]; try discriminate.
  cbn [map] in Hmap.
  injection Hmap as E1 E2 E3 E4 E5 E6 E7 E8 E9 E10 E11 E12.
  repeat match goal with
         | H : ascii7 (_ :: _) |- _ => inversion H; clear H; subst
         | H : Forall _ (_ :: _) |- _ => inversion H; clear H; subst
         end.
  repeat match goal with
         | H : tolower ?c = ?p, L : (?c < 128)%N |- _ =>
             let F := fresh "F" in
             destruct (tolower_facts L H) as [? [F ?]];
             try (specialize (F eq_refl)); clear H
         end.
  match goal with
  | H : 32%N = 32%N -> ?c = 32%N |- _ => specialize (H eq_refl); subst c
  end.
  exists c1, [c2; c3; c4; c5; c6; c7; c8; c9; c10; c11].
  split; [reflexivity|]. split.
  - repeat constructor; assumption.
  - cbn [ci_prefix].
    repeat match goal with
           | H : ci_literal _ _ = true |- _ => rewrite H; clear H
           end.
    reflexivity.
Qed.

Section Headers.
Context {W : Type} {C : Collab W}.

(** X7.  A Message-Id header line in any letter case, whose value is one
    non-empty 7-bit token and which ends the header block, gives the
    message that token, unchanged, as its identifier: the scan step
    records the message under it unless it is already there. *)
Theorem message_id_header_verbatim (num name id : Py.bytes)
  (d : Dict.t Z) (s : st W) (n : Z) :
  map tolower name = MSGID_PREFIX ->
  ascii7 name -> ascii7 id -> id <> [] -> Forall nonspace id ->
  message_id_bytes num s = Some (name ++ id ++ [Py.CR; Py.LF; Py.CR; Py.LF]) ->
  Py.int_of_bytes num = Some n ->
  MSGID_RE_match
    (Py.blanks_sub
       (Py.strip
          (Py.utf8_decode_replace
             (name ++ id ++ [Py.CR; Py.LF; Py.CR; Py.LF])))) = Some id
  /\ exists s',
       scan_folder_body num d s
       = (Ret (if Dict.mem id d then d else Dict.set id n d), s').
Proof.
  intros Hname Han Hai Hne Hid Hbytes Hint.
  assert (Hre : MSGID_RE_match
                  (Py.blanks_sub
                     (Py.strip
                        (Py.utf8_decode_replace
                           (name ++ id ++ [Py.CR; Py.LF; Py.CR; Py.LF]))))
                = Some id).
  { rewrite utf8_decode_ascii.
    2:{ apply Forall_app. split; [exact Han|].
        apply Forall_app. split; [exact Hai|].
        repeat constructor. }
    destruct (header_name_shape Hname Han) as [a [n1 [Hn [Hns Hci]]]].
    destruct (exists_last Hne) as [i0 [z Hz]].
    assert (Hzs : Py.isspace z = false).
    { rewrite Hz in Hid. apply Forall_app in Hid as [_ Hid].
      now inversion Hid. }
    assert (Has : Py.isspace a = false) by now inversion Hns.
    assert (Hstrip : Py.strip (name ++ id ++ [Py.CR; Py.LF; Py.CR; Py.LF])
                     = name ++ id).
    { rewrite Hn, Hz.
      pose proof (@strip_with_framed Py.isspace a z
                    (n1 ++ [Py.SP] ++ i0) [Py.CR; Py.LF; Py.CR; Py.LF]
                    Has Hzs) as H.
      unfold Py.strip.
      replace (((a :: n1) ++ [Py.SP]) ++ (i0 ++ [z])
               ++ [Py.CR; Py.LF; Py.CR; Py.LF])
        with ((a :: (n1 ++ [Py.SP] ++ i0) ++ [z])
              ++ [Py.CR; Py.LF; Py.CR; Py.LF])
        by (cbn [app]; now rewrite <- !app_assoc).
      rewrite H by (repeat constructor).
      cbn [app]. now rewrite <- !app_assoc. }
    rewrite Hstrip. rewrite Hn at 1. rewrite <- app_assoc.
    cbn [app]. change (a :: n1 ++ Py.SP :: id)
      with ((a :: n1) ++ Py.SP :: id).
    rewrite blanks_sub_header by assumption.
    replace ((a :: n1) ++ Py.SP :: id) with (name ++ id)
      by (rewrite Hn, <- app_assoc; reflexivity).
    now apply MSGID_RE_match_token. }
  split; [exact Hre|].
  exact (scan_folder_body_genuine num d s Hbytes Hre Hint).
Qed.

End Headers.

(** X8.  For a 7-bit header block the synthesised identifier is the
    SHA-1 of the block itself, stripped and with every CR LF turned
    into one tab, in hexadecimal between the namespace token and the
    brackets. *)
Theorem synth_msg_id_ascii (raw : Py.bytes) :
  ascii7 raw ->
  synth_msg_id raw
  = Some (Py.lit "<" ++ UUID ++ Py.lit "."
          ++ SHA1.hexdigest
               (Py.replace [Py.CR; Py.LF] [Py.TAB] (Py.strip raw))
          ++ Py.lit ">").
Proof.
  intros H. unfold synth_msg_id. rewrite utf8_decode_ascii by exact H.
  rewrite utf8_encode_ascii; [reflexivity|].
  apply replace_aux_Forall; [repeat constructor|].
  now apply strip_with_Forall.
Qed.

(** ** The folder listing *)

Lemma opening_dropwhile f (row : Py.str) :
  (opening (Py.dropwhile f row) <= opening row)%nat.
Proof.
  unfold opening. induction row as [|c r IH]; [apply Nat.le_refl|].
  cbn [Py.dropwhile]. destruct (f c); [|apply Nat.le_refl].
  cbn [filter]. destruct (40 =? c)%N; cbn [List.length]; lia.
Qed.

Lemma opening_skipn n (row : Py.str) :
  (opening (skipn n row) <= opening row)%nat.
Proof.
  unfold opening. revert row.
  induction n as [|n IH]; intros [|c r]; cbn [skipn]; try apply Nat.le_refl.
  specialize (IH r). cbn [filter].
  destruct (40 =? c)%N; cbn [List.length]; lia.
Qed.

Lemma opening_cons c (row : Py.str) :
  opening (c :: row) = ((if (c =? 40)%N then 1 else 0) + opening row)%nat.
Proof.
  unfold opening. cbn [filter]. rewrite (N.eqb_sym 40 c).
  destruct (c =? 40)%N; reflexivity.
Qed.

Lemma name_attrib_re_search_opening row m rest :
  name_attrib_re_search row = Some (m, rest) ->
  (opening rest <= opening row)%nat.
Proof.
  unfold name_attrib_re_search.
  pose proof (opening_dropwhile Py.isspace row) as Hd.
  destruct (Py.dropwhile Py.isspace row) as [|c r]; [discriminate|].
  rewrite opening_cons in Hd.
  destruct (c =? 92)%N eqn:Ec.
  - apply N.eqb_eq in Ec. subst c.
    destruct (Py.takewhile is_word r) as [|x w]; [discriminate|].
    intros H. inversion H; subst. clear H.
    pose proof (opening_dropwhile Py.isspace
                  (skipn (List.length (x :: w)) r)) as H1.
    pose proof (opening_skipn (List.length (x :: w)) r) as H2.
    change (92 =? 40)%N with false in Hd. cbv iota in Hd.
    cbn [List.length skipn] in H1, H2. lia.
  - intros H. exfalso. apply N.eqb_neq in Ec.
    destruct c as [|p]; [discriminate|].
    do 7 (destruct p as [p|p|]; try discriminate). now elim Ec.
Qed.

(** What the parser leaves holds no more opening parentheses than what
    it was given. *)
Lemma parse_paren_opening (fuel : nat) :
  (forall row a rest,
      parse_paren_list_fuel fuel row = Some (inr (a, rest)) ->
      (opening rest <= opening row)%nat)
  /\ (forall result row a rest,
        parse_paren_loop fuel result row = Some (inr (a, rest)) ->
        (opening rest <= opening row)%nat).
Proof.
  induction fuel as [|fuel [IHp IHl]]; [split; intros; discriminate|].
  split.
  - intros row a rest. cbn [parse_paren_list_fuel].
    destruct row as [|c row']; [discriminate|]. rewrite opening_cons.
    destruct (c =? 40)%N; [|discriminate].
    intros H. apply IHl in H. lia.
  - intros result row a rest. cbn [parse_paren_loop].
    destruct row as [|c row']; [discriminate|].
    destruct (c =? 41)%N eqn:E41.
    { intros H. inversion H; subst. rewrite opening_cons.
      destruct (c =? 40)%N; lia. }
    destruct (c =? 40)%N eqn:E40.
    + destruct (parse_paren_list_fuel fuel (c :: row'))
        as [[e | [pl row2]]|] eqn:Ep; try discriminate.
      apply IHp in Ep. intros H. apply IHl in H. lia.
    + destruct (name_attrib_re_search (c :: row'))
        as [[na row2]|] eqn:En; [|discriminate].
      apply name_attrib_re_search_opening in En.
      intros H. apply IHl in H. lia.
Qed.

(** With calls to spare the limit is never met. *)
Lemma parse_paren_limited_spare (fuel : nat) :
  (forall depth row,
      (opening row < depth)%nat ->
      parse_paren_list_limited_fuel fuel depth row
      = parse_paren_list_fuel fuel row)
  /\ (forall depth result row,
        (opening row < depth \/ (opening row = 0 /\ depth = 0))%nat ->
        parse_paren_loop_limited fuel depth result row
        = parse_paren_loop fuel result row).
Proof.
  induction fuel as [|fuel [IHp IHl]]; [split; reflexivity|].
  split.
  - intros depth row Hd.
    cbn [parse_paren_list_limited_fuel parse_paren_list_fuel].
    destruct depth as [|depth']; [lia|].
    destruct row as [|c row']; [reflexivity|].
    rewrite opening_cons in Hd.
    destruct (c =? 40)%N; [|reflexivity].
    apply IHl. lia.
  - intros depth result row Hd.
    cbn [parse_paren_loop_limited parse_paren_loop].
    destruct row as [|c row']; [reflexivity|].
    destruct (c =? 41)%N; [reflexivity|].
    destruct (c =? 40)%N eqn:E40.
    + assert (Hlt : (opening (c :: row') < depth)%nat).
      { rewrite opening_cons, E40 in *. lia. }
      rewrite (IHp depth (c :: row') Hlt).
      destruct (parse_paren_list_fuel fuel (c :: row'))
        as [[e | [pl row2]]|] eqn:Ep; try reflexivity.
      apply (proj1 (parse_paren_opening fuel)) in Ep.
      apply IHl. lia.
    + destruct (name_attrib_re_search (c :: row'))
        as [[na row2]|] eqn:En; [|reflexivity].
      apply name_attrib_re_search_opening in En.
      apply IHl. lia.
Qed.

(** Short of the limit, the limited parser answers as the other does. *)
Lemma parse_paren_limited_agrees (fuel : nat) :
  (forall depth row r,
      parse_paren_list_limited_fuel fuel depth row = Some r ->
      r = inl RecursionError \/ parse_paren_list_fuel fuel row = Some r)
  /\ (forall depth result row r,
        parse_paren_loop_limited fuel depth result row = Some r ->
        r = inl RecursionError \/ parse_paren_loop fuel result row = Some r).
Proof.
  induction fuel as [|fuel [IHp IHl]]; [split; intros; discriminate|].
  split.
  - intros depth row r.
    cbn [parse_paren_list_limited_fuel parse_paren_list_fuel].
    destruct depth as [|depth']; [intros [= <-]; now left|].
    destruct row as [|c row']; [intros H; now right|].
    destruct (c =? 40)%N; [apply IHl | intros H; now right].
  - intros depth result row r.
    cbn [parse_paren_loop_limited parse_paren_loop].
    destruct row as [|c row']; [intros H; now right|].
    destruct (c =? 41)%N; [intros H; now right|].
    destruct (c =? 40)%N.
    + destruct (parse_paren_list_limited_fuel fuel depth (c :: row'))
        as [[e | [pl row2]]|] eqn:Ep; [| |discriminate].
      * apply IHp in Ep as [Ep | Ep].
        -- inversion Ep; subst. intros [= <-]. now left.
        -- rewrite Ep. intros H. now right.
      * apply IHp in Ep as [Ep | Ep]; [discriminate|].
        rewrite Ep. apply IHl.
    + destruct (name_attrib_re_search (c :: row')) as [[na row2]|];
        [apply IHl | intros H; now right].
Qed.

(** The loop of the limited parser ends as well. *)
Lemma parse_paren_limited_fuel_enough (fuel : nat) :
  (forall depth row,
      (1 <= fuel)%nat -> (2 * List.length row <= fuel)%nat ->
      parse_paren_list_limited_fuel fuel depth row <> None)
  /\ (forall depth result row,
        (2 * List.length row + 1 <= fuel)%nat ->
        parse_paren_loop_limited fuel depth result row <> None).
Proof.
  induction fuel as [|fuel [IHp IHl]]; [split; intros; lia|].
  split.
  - intros depth row _ Hfuel. cbn [parse_paren_list_limited_fuel].
    destruct depth as [|depth']; [discriminate|].
    destruct row as [|c row']; [discriminate|].
    destruct (c =? 40)%N; [|discriminate].
    simpl in Hfuel. apply IHl. lia.
  - intros depth result row Hfuel. cbn [parse_paren_loop_limited].
    destruct row as [|c row']; [discriminate|].
    simpl in Hfuel.
    destruct (c =? 41)%N; [discriminate|].
    destruct (c =? 40)%N.
    + pose proof (IHp depth (c :: row')) as Hn.
      destruct (parse_paren_list_limited_fuel fuel depth (c :: row'))
        as [[e | [pl row2]]|] eqn:Ep;
        [discriminate | | apply Hn; simpl; lia].
      apply (proj1 (parse_paren_limited_agrees fuel)) in Ep
        as [Ep | Ep]; [discriminate|].
      apply (proj1 (parse_paren_fuel_enough fuel)) in Ep;
        [|lia | simpl; lia].
      apply IHl. simpl in Ep. lia.
    + destruct (name_attrib_re_search (c :: row'))
        as [[na row2]|] eqn:E; [|discriminate].
      apply name_attrib_re_search_shorter in E. simpl in E.
      apply IHl. lia.
Qed.

(** X9.  With the recursion limit of the interpreter taken into account,
    [parse_paren_list] always answers: the loop ends on every row.  It
    answers the attributes with a rest of the row that is shorter than
    the row by two characters at least, or an error; the error is the
    script's own or a [RecursionError].  Whenever the answer is not a
    [RecursionError] it is the answer the parser gives when no limit is
    set; and the limit is not met by a row that has no more opening
    parentheses than calls may nest. *)
Theorem parse_paren_list_progress (limit : nat) (row : Py.str) :
  parse_paren_list_limited limit row <> None
  /\ (forall attribs rest,
        parse_paren_list_limited limit row = Some (inr (attribs, rest)) ->
        (List.length rest + 2 <= List.length row)%nat)
  /\ (forall e,
        parse_paren_list_limited limit row = Some (inl e) ->
        e = RecursionError \/ e = AssertionError \/ e = IndexError)
  /\ (forall r,
        parse_paren_list_limited limit row = Some r ->
        r = inl RecursionError \/ parse_paren_list row = Some r)
  /\ ((opening row <= limit)%nat ->
      parse_paren_list_limited limit row = parse_paren_list row).
Proof.
  unfold parse_paren_list_limited, parse_paren_list.
  set (fuel := (2 * List.length row + 2)%nat).
  assert (Hagree : forall r,
             parse_paren_list_limited_fuel fuel (S limit) row = Some r ->
             r = inl RecursionError \/ parse_paren_list_fuel fuel row = Some r)
    by apply (proj1 (parse_paren_limited_agrees fuel)).
  split; [apply (proj1 (parse_paren_limited_fuel_enough fuel)); subst fuel; lia|].
  split.
  { intros attribs rest H. apply Hagree in H as [H | H]; [discriminate|].
    apply (proj1 (parse_paren_fuel_enough fuel)) in H;
      [exact H | subst fuel; lia | subst fuel; lia]. }
  split.
  { intros e H. apply Hagree in H as [H | H]; [inversion H; now left|].
    right. revert H. generalize fuel row e. clear.
    intros fuel.
    assert (H : (forall row e,
                    parse_paren_list_fuel fuel row = Some (inl e) ->
                    e = AssertionError \/ e = IndexError)
                /\ (forall result row e,
                      parse_paren_loop fuel result row = Some (inl e) ->
                      e = AssertionError \/ e = IndexError)).
    { induction fuel as [|fuel [IHp IHl]]; [split; intros; discriminate|].
      split.
      - intros row e. cbn [parse_paren_list_fuel].
        destruct row as [|c row']; [intros [= <-]; now right|].
        destruct (c =? 40)%N; [apply IHl | intros [= <-]; now left].
      - intros result row e. cbn [parse_paren_loop].
        destruct row as [|c row']; [intros [= <-]; now right|].
        destruct (c =? 41)%N; [discriminate|].
        destruct (c =? 40)%N.
        + destruct (parse_paren_list_fuel fuel (c :: row'))
            as [[e0 | [pl row2]]|] eqn:Ep; [| |discriminate].
          * intros [= <-]. eapply IHp; exact Ep.
          * apply IHl.
        + destruct (name_attrib_re_search (c :: row')) as [[na row2]|];
            [apply IHl | intros [= <-]; now left]. }
    apply H. }
  split; [exact Hagree|].
  intros H. apply (proj1 (parse_paren_limited_spare fuel)). lia.
Qed.

Ltac break_match H :=
  repeat (match type of H with
          | context [match ?x with _ => _ end] => destruct x eqn:?
          end; try discriminate).

Lemma string_re_match_group (s g : Py.str) (n : nat) :
  string_re_match s = Some (g, n) -> g <> [].
Proof.
  unfold string_re_match. cbv zeta.
  generalize (Py.dropwhile Py.isspace s). intros s1.
  match goal with
  | |- match ?q with _ => _ end = _ -> _ => destruct q as [[g' n']|] eqn:Q
  end.
  - intros H. inversion H; subst. clear H.
    break_match Q. inversion Q; subst. discriminate.
  - clear Q. intros H. break_match H. inversion H; subst. discriminate.
Qed.

(** X10.  The strings [parse_string_list] returns are never empty. *)
Theorem parse_string_list_nonempty (row : Py.str) :
  Forall (fun tok => tok <> []) (parse_string_list row).
Proof.
  unfold parse_string_list.
  assert (Htruthy : forall cur, Forall (fun tok : Py.str => tok <> [])
                                  (truthy cur)).
  { intros [|c cur]; [constructor|]. constructor; [|constructor].
    simpl. intros H. apply app_eq_nil in H as [_ H]. discriminate. }
  assert (H : forall skip cur,
             Forall (fun tok : Py.str => tok <> [])
               (parse_string_list_aux skip cur row)); [|apply H].
  induction row as [|c r IH]; intros skip cur; cbn [parse_string_list_aux].
  - apply Htruthy.
  - destruct skip; [|apply IH].
    destruct (string_re_match (c :: r)) as [[g n]|] eqn:E; [|apply IH].
    apply Forall_app. split; [apply Htruthy|].
    constructor; [|apply IH].
    eapply string_re_match_group; exact E.
Qed.

Lemma split_aux_nonempty sep (s : list N) :
  forall skip cur, Py.split_aux sep skip cur s <> [].
Proof.
  induction s as [|c r IH]; intros skip cur; cbn [Py.split_aux];
    [discriminate|].
  destruct skip; [|apply IH].
  destruct (Py.startswith (c :: r) sep); [discriminate | apply IH].
Qed.

Lemma join_cons sep (p : list N) (ps : list (list N)) :
  ps <> [] -> Py.join sep (p :: ps) = p ++ sep ++ Py.join sep ps.
Proof. destruct ps; [intros H; now elim H | reflexivity]. Qed.

(** Splitting on a separator and joining with another is replacing the
    one by the other. *)
Lemma join_split_aux (sep new : list N) (s : list N) :
  forall skip cur,
    Py.join new (Py.split_aux sep skip cur s)
    = rev cur ++ Py.replace_aux sep new None skip s.
Proof.
  induction s as [|c r IH]; intros skip cur;
    cbn [Py.split_aux Py.replace_aux].
  - cbn. now rewrite app_nil_r.
  - destruct skip; [|apply IH].
    destruct (Py.startswith (c :: r) sep).
    + rewrite join_cons by apply split_aux_nonempty.
      rewrite IH. reflexivity.
    + rewrite IH. cbn [rev]. now rewrite <- app_assoc.
Qed.

(** X11.  The file name of a folder is its name with every occurrence
    of the hierarchy delimiter replaced: by a dot, with .mbox appended,
    or in Thunderbird mode by .sbd/, every INBOX of the result then
    reading Inbox when the result starts with INBOX. *)
Theorem map_name_replaces_delimiter (delim foldername : Py.str) :
  delim <> [] ->
  map_name false delim foldername
  = Py.replace delim (Py.lit ".") foldername ++ Py.lit ".mbox"
  /\ map_name true delim foldername
     = (let filename := Py.replace delim (Py.lit ".sbd/") foldername in
        if Py.startswith filename (Py.lit "INBOX")
        then Py.replace (Py.lit "INBOX") (Py.lit "Inbox") filename
        else filename).
Proof.
  intros _. unfold map_name, Py.split, Py.replace. rewrite !join_split_aux.
  split; reflexivity.
Qed.

Section Listing.
Context {W : Type} {C : Collab W}.

Lemma get_names_loop_parses thunderbird rows :
  Forall parses rows ->
  forall acc (s : st W),
    exists new,
      for_each (get_names_body thunderbird) rows acc s = (Ret (acc ++ new), s)
      /\ Forall2 (names_row thunderbird) rows new.
Proof.
  induction 1 as [|row rows Hrow _ IH]; intros acc s.
  - exists []. cbn. rewrite app_nil_r. split; [reflexivity | constructor].
  - destruct Hrow as [row_str [[[attribs delim] name] [Hdec Hparse]]].
    cbn [for_each]. unfold bind, get_names_body at 1.
    rewrite Hdec, Hparse. unfold ret at 1.
    destruct (IH (acc ++ [(name, map_name thunderbird delim name)]) s)
      as [new [Hrun Hall]].
    exists ((name, map_name thunderbird delim name) :: new).
    rewrite Hrun, <- app_assoc. split; [reflexivity|].
    constructor; [|exact Hall].
    exists row_str, attribs, delim. auto.
Qed.

Lemma get_names_loop_returns thunderbird rows :
  forall acc (s s' : st W) names,
    for_each (get_names_body thunderbird) rows acc s = (Ret names, s') ->
    Forall parses rows.
Proof.
  induction rows as [|row rows IH]; intros acc s s' names H; [constructor|].
  cbn [for_each] in H. unfold bind in H.
  destruct (get_names_body thunderbird row acc s) as [[acc1|e] s1] eqn:E;
    [|discriminate].
  constructor; [|eapply IH; exact H].
  unfold get_names_body in E.
  destruct (Py.utf8_decode_strict row) as [row_str|] eqn:Hdec;
    [|discriminate].
  destruct (parse_list row_str) as [[e|r]|] eqn:Hparse; try discriminate.
  exists row_str, r. auto.
Qed.

(** X12.  [get_names] returns exactly when every row of the LIST reply
    parses; it then returns one pair per row, in the order of the rows,
    each made of the name of the row and its file name, and has done
    nothing but the LIST. *)
Theorem get_names_all_rows (thunderbird : bool) (s : st W)
  (rows : list Py.bytes) (w' : W) :
  imap_list (world s) = ((OK, rows), w') ->
  (Forall parses rows ->
   exists names,
     get_names thunderbird s = (Ret names, mkst w' (trace s))
     /\ Forall2 (names_row thunderbird) rows names)
  /\ (forall names s',
        get_names thunderbird s = (Ret names, s') -> Forall parses rows).
Proof.
  intros Hlist. unfold get_names, bind, call. rewrite Hlist.
  cbn [fst snd]. rewrite eqb_refl. cbn [assert]. unfold ret.
  split.
  - intros Hrows.
    destruct (get_names_loop_parses thunderbird Hrows []
                (mkst w' (trace s))) as [new [Hrun Hall]].
    exists new. split; [exact Hrun | exact Hall].
  - intros names s' H. eapply get_names_loop_returns; exact H.
Qed.

End Listing.

(** ** Parsing a LIST row that was written out *)

Lemma takewhile_prefix f (x tl : list N) :
  Forall (fun c => f c = true) x ->
  match tl with
  | [] => True
  | c :: _ => f c = false
  end ->
  Py.takewhile f (x ++ tl) = x.
Proof.
  intros Hx Htl. induction Hx as [|c x Hc _ IH]; cbn [app Py.takewhile].
  - destruct tl as [|c tl]; [reflexivity|].
    cbn [Py.takewhile]. now rewrite Htl.
  - now rewrite Hc, IH.
Qed.

Lemma firstn_app_length (a b : list N) : firstn (List.length a) (a ++ b) = a.
Proof. induction a as [|x a IH]; [reflexivity | simpl; now rewrite IH]. Qed.

Lemma is_word_nonspace (c : N) : is_word c = true -> Py.isspace c = false.
Proof.
  unfold is_word, Py.in_range. intros H. apply isspace_printable;
    revert H; range_arith; try discriminate; intros _; lia.
Qed.

Lemma is_word_not_paren (c : N) :
  is_word c = true -> (c =? 41)%N = false /\ (c =? 40)%N = false.
Proof.
  unfold is_word, Py.in_range. intros H.
  split; apply N.eqb_neq; intros ->; discriminate H.
Qed.

(** One attribute at the head of the row, the next thing being a blank
    and then [t], or [t] at once. *)
Lemma name_attrib_re_search_atom (w ws t : Py.str) :
  is_atom w ->
  ws = [] \/ ws = [Py.SP] ->
  match ws ++ t with
  | [] => True
  | c :: _ => is_word c = false
  end ->
  match t with
  | [] => True
  | c :: _ => Py.isspace c = false
  end ->
  exists m,
    name_attrib_re_search (92%N :: w ++ ws ++ t) = Some (m, t)
    /\ Py.strip m = 92%N :: w.
Proof.
  intros [Hne Hw] Hws Hnext Ht. unfold name_attrib_re_search.
  cbn [Py.dropwhile]. change (Py.isspace 92) with false. cbv beta iota.
  rewrite (takewhile_prefix is_word (ws ++ t) Hw Hnext).
  destruct w as [|x w'] eqn:Ew; [now elim Hne|]. rewrite <- Ew in *.
  assert (Hw0 : match w with [] => @None (Py.str * Py.str) | _ :: _ =>
      Some (firstn (List.length (92%N :: w ++ ws ++ t) - List.length t)
              (92%N :: w ++ ws ++ t), t) end
      = Some (92%N :: w ++ ws, t)).
  { rewrite Ew. rewrite <- Ew. f_equal. f_equal.
    replace (List.length (92%N :: w ++ ws ++ t) - List.length t)%nat
      with (List.length (92%N :: w ++ ws)).
    - change (92%N :: w ++ ws ++ t) with ((92%N :: w) ++ ws ++ t).
      rewrite app_assoc. apply firstn_app_length.
    - cbn [List.length]. rewrite !length_app. lia. }
  exists (92%N :: w ++ ws). split.
  - rewrite skipn_app_length.
    assert (Hd : Py.dropwhile Py.isspace (ws ++ t) = t).
    { destruct Hws as [-> | ->]; cbn [app Py.dropwhile].
      - destruct t as [|c t']; [reflexivity|].
        cbn [Py.dropwhile]. now rewrite Ht.
      - change (Py.isspace Py.SP) with true. cbv beta iota.
        destruct t as [|c t']; [reflexivity|].
        cbn [Py.dropwhile]. now rewrite Ht. }
    rewrite Hd. rewrite Ew in Hw0 |- *. exact Hw0.
  - destruct (exists_last Hne) as [w0 [z Hz]].
    assert (Hzs : Py.isspace z = false).
    { rewrite Hz in Hw. apply Forall_app in Hw as [_ Hw].
      inversion Hw; subst. now apply is_word_nonspace. }
    rewrite Hz. unfold Py.strip.
    change (92%N :: (w0 ++ [z]) ++ ws) with ((92%N :: w0 ++ [z]) ++ ws).
    apply strip_with_framed; [reflexivity | exact Hzs |].
    destruct Hws as [-> | ->]; repeat constructor.
Qed.

Lemma join_atoms_head (atoms : list Py.str) (rest : Py.str) :
  match Py.join [Py.SP] (map (cons 92%N) atoms) ++ 41%N :: rest with
  | [] => True
  | c :: _ => Py.isspace c = false /\ is_word c = false
  end.
Proof.
  destruct atoms as [|w [|w' atoms]]; cbn; auto.
Qed.

Lemma parse_paren_loop_atoms (rest : Py.str) (atoms : list Py.str) :
  Forall is_atom atoms ->
  forall fuel result,
    (List.length atoms + 1 <= fuel)%nat ->
    parse_paren_loop fuel result
      (Py.join [Py.SP] (map (cons 92%N) atoms) ++ 41%N :: rest)
    = Some (inr (result ++ map (fun w => Name (92%N :: w)) atoms, rest)).
Proof.
  induction 1 as [|w atoms Hw Hatoms IH]; intros fuel result Hfuel.
  - destruct fuel; [simpl in Hfuel; lia|]. cbn. now rewrite app_nil_r.
  - destruct fuel; [simpl in Hfuel; lia|]. simpl in Hfuel.
    set (t := Py.join [Py.SP] (map (cons 92%N) atoms) ++ 41%N :: rest).
    assert (Hrow : exists ws,
               (ws = [] \/ ws = [Py.SP])
               /\ Py.join [Py.SP] (map (cons 92%N) (w :: atoms))
                  ++ 41%N :: rest = 92%N :: w ++ ws ++ t
               /\ match ws ++ t with
                  | [] => True
                  | c :: _ => is_word c = false
                  end).
    { subst t. destruct atoms as [|w' atoms'].
      - exists []. split; [now left|]. split; reflexivity.
      - exists [Py.SP]. split; [now right|]. split; [|reflexivity].
        cbn [map]. rewrite join_cons by discriminate.
        cbn [app]. rewrite <- !app_assoc. reflexivity. }
    destruct Hrow as [ws [Hws [Hrow Hnext]]]. rewrite Hrow.
    pose proof (join_atoms_head atoms rest) as Hhead. fold t in Hhead.
    destruct (@name_attrib_re_search_atom w ws t) as [m [Hm Hstrip]]; auto.
    { destruct t; [exact I | tauto]. }
    cbn [parse_paren_loop]. change (92 =? 41)%N with false.
    change (92 =? 40)%N with false. cbv beta iota.
    rewrite Hm, Hstrip. subst t. rewrite IH by lia.
    rewrite <- app_assoc. reflexivity.
Qed.

Lemma join_atoms_length (atoms : list Py.str) :
  (List.length atoms
   <= List.length (Py.join [Py.SP] (map (cons 92%N) atoms)))%nat.
Proof.
  induction atoms as [|w atoms IH]; [simpl; lia|].
  cbn [map]. destruct atoms as [|w' atoms'].
  - simpl. lia.
  - rewrite join_cons by discriminate. rewrite !length_app.
    simpl in *. lia.
Qed.

(** The attribute list of a written row parses back. *)
Lemma parse_paren_list_rendered (atoms : list Py.str) (rest : Py.str) :
  Forall is_atom atoms ->
  parse_paren_list (render_attribs atoms ++ rest)
  = Some (inr (map (fun w => Name (92%N :: w)) atoms, rest)).
Proof.
  intros Hatoms. unfold parse_paren_list, render_attribs.
  cbn [app]. rewrite <- app_assoc. cbn [app].
  set (row := Py.join [Py.SP] (map (cons 92%N) atoms) ++ 41%N :: rest).
  replace (2 * List.length (40%N :: row) + 2)%nat
    with (S (2 * List.length row + 3))%nat by (simpl; lia).
  cbn [parse_paren_list_fuel]. change (40 =? 40)%N with true.
  cbv beta iota. subst row.
  rewrite parse_paren_loop_atoms; [reflexivity | exact Hatoms |].
  pose proof (join_atoms_length atoms). rewrite length_app. lia.
Qed.

Lemma parse_string_list_aux_skip (k : nat) :
  forall cur s,
    parse_string_list_aux k cur s
    = parse_string_list_aux 0 cur (skipn k s).
Proof.
  induction k as [|k IH]; intros cur s; [reflexivity|].
  destruct s as [|c r]; [reflexivity|].
  cbn [parse_string_list_aux skipn]. apply IH.
Qed.

(** One quoted string at the head of the text. *)
Lemma string_re_match_quoted (pre x ws t : Py.str) :
  Forall (fun c => Py.isspace c = true) pre ->
  quotable x ->
  Forall (fun c => Py.isspace c = true) ws ->
  match t with
  | [] => True
  | c :: _ => Py.isspace c = false
  end ->
  string_re_match (pre ++ 34%N :: x ++ 34%N :: ws ++ t)
  = Some (x, (List.length pre + 1 + List.length x + 1 + List.length ws)%nat).
Proof.
  intros Hpre [Hne Hx] Hws Ht. unfold string_re_match. cbv zeta.
  rewrite dropwhile_all by exact Hpre.
  cbn [Py.dropwhile]. change (Py.isspace 34) with false. cbv beta iota.
  rewrite (takewhile_prefix (fun c => negb (c =? 34)%N) (34%N :: ws ++ t) Hx)
    by reflexivity.
  destruct x as [|x0 x'] eqn:Ex; [now elim Hne|]. rewrite <- Ex.
  replace (List.length (x0 :: x')) with (List.length x) by now rewrite Ex.
  rewrite skipn_app_length. cbv beta iota.
  rewrite (takewhile_prefix Py.isspace t Hws) by exact Ht.
  f_equal. f_equal. rewrite !length_app. cbn [List.length].
  rewrite !length_app. cbn [List.length]. lia.
Qed.

Lemma parse_string_list_aux_match (c : N) (r cur g : Py.str) (n : nat) :
  string_re_match (c :: r) = Some (g, n) ->
  parse_string_list_aux 0 cur (c :: r)
  = truthy cur ++ g :: parse_string_list_aux 0 [] (skipn (n - 1) r).
Proof.
  intros H. cbn [parse_string_list_aux]. rewrite H.
  now rewrite parse_string_list_aux_skip.
Qed.

(** The delimiter and the name of a written row parse back. *)
Lemma parse_string_list_rendered (delim name : Py.str) :
  quotable delim -> quotable name ->
  parse_string_list (Py.SP :: quoted delim ++ Py.SP :: quoted name)
  = [delim; name].
Proof.
  intros Hd Hn. unfold parse_string_list, quoted.
  replace (Py.SP :: (34%N :: delim ++ [34%N])
           ++ Py.SP :: 34%N :: name ++ [34%N])
    with (Py.SP :: 34%N :: delim ++ 34%N :: Py.SP :: 34%N :: name ++ [34%N])
    by (cbn [app]; now rewrite <- app_assoc).
  pose proof (@string_re_match_quoted [Py.SP] delim [Py.SP]
                (34%N :: name ++ [34%N])
                ltac:(repeat constructor) Hd ltac:(repeat constructor)
                eq_refl) as H1.
  cbn [app] in H1.
  rewrite (@parse_string_list_aux_match _ _ [] _ _ H1). cbn [truthy app].
  replace (skipn (List.length [Py.SP] + 1 + List.length delim + 1
                  + List.length [Py.SP] - 1)
             (34%N :: delim ++ 34%N :: Py.SP :: 34%N :: name ++ [34%N]))
    with (34%N :: name ++ [34%N]).
  2:{ replace (List.length [Py.SP] + 1 + List.length delim + 1
               + List.length [Py.SP] - 1)%nat
        with (S (List.length delim + 2)) by (simpl; lia).
      cbn [skipn]. now rewrite skipn_app_plus. }
  pose proof (@string_re_match_quoted [] name [] []
                (Forall_nil _) Hn (Forall_nil _) I) as H2.
  cbn [app] in H2.
  rewrite (@parse_string_list_aux_match _ _ [] _ _ H2). cbn [truthy app].
  replace (skipn (List.length (@nil N) + 1 + List.length name + 1
                  + List.length (@nil N) - 1) (name ++ [34%N]))
    with (@nil N).
  - reflexivity.
  - replace (List.length (@nil N) + 1 + List.length name + 1
             + List.length (@nil N) - 1)%nat
      with (List.length name + 1)%nat by (simpl; lia).
    now rewrite skipn_app_plus.
Qed.

(** X13.  A LIST row written out as its attributes between
    parentheses, the delimiter between double quotes and the name
    between double quotes parses back to these: the attributes in
    order, the delimiter, and the name with any blanks it holds. *)
Theorem parse_list_rendered (atoms : list Py.str) (delim name : Py.str) :
  Forall is_atom atoms -> quotable delim -> quotable name ->
  parse_list (render_row atoms delim name)
  = Some (inr (map (fun w => Name (92%N :: w)) atoms, delim, name)).
Proof.
  intros Hatoms Hd Hn. unfold parse_list.
  assert (Hstrip : Py.strip (render_row atoms delim name)
                   = render_row atoms delim name).
  { unfold render_row, render_attribs, quoted, Py.strip.
    set (J := Py.join [Py.SP] (map (cons 92%N) atoms)).
    replace ((40%N :: J ++ [41%N])
             ++ Py.SP :: (34%N :: delim ++ [34%N])
             ++ Py.SP :: 34%N :: name ++ [34%N])
      with ((40%N :: (J ++ 41%N :: Py.SP :: 34%N :: delim
                      ++ 34%N :: Py.SP :: 34%N :: name) ++ [34%N]) ++ []).
    - rewrite strip_with_framed by (reflexivity || constructor).
      now rewrite app_nil_r.
    - rewrite app_nil_r. cbn [app]. rewrite <- !app_assoc. cbn [app].
      rewrite <- !app_assoc. reflexivity. }
  rewrite Hstrip. unfold render_row.
  rewrite parse_paren_list_rendered by exact Hatoms.
  now rewrite parse_string_list_rendered.
Qed.

(** ** More on the relay dispatcher *)

Lemma sleeps_app (a b : list event) : sleeps (a ++ b) = sleeps a ++ sleeps b.
Proof.
  induction a as [|e a IH]; [reflexivity|].
  destruct e; cbn [app sleeps]; now rewrite ?IH.
Qed.

Lemma stores_app (a b : list event) : stores (a ++ b) = stores a ++ stores b.
Proof.
  induction a as [|e a IH]; [reflexivity|].
  destruct e; cbn [app stores]; now rewrite ?IH.
Qed.

Lemma div30_step (c : Z) :
  (0 <= c)%Z ->
  ((c + 1) / 30 = c / 30 + (if (c + 1) mod 30 =? 0 then 1 else 0))%Z.
Proof.
  intros Hc. destruct (Z.eqb_spec ((c + 1) mod 30) 0) as [E | E];
    Z.div_mod_to_equations; lia.
Qed.

Lemma batch_events_counts (mailserver mailuser : Py.str)
  (ds : list delivery) :
  forall c,
    (0 <= c)%Z ->
    Forall (fun secs => secs = 60%Z)
      (sleeps (batch_events mailserver mailuser c ds))
    /\ Z.of_nat (List.length (sleeps (batch_events mailserver mailuser c ds)))
       = ((c + Z.of_nat (List.length ds)) / 30 - c / 30)%Z
    /\ stores (batch_events mailserver mailuser c ds)
       = map (fun d => (Py.str_of_int (dl_num d),
                        if dl_sent d then Py.lit "+FLAGS"
                        else Py.lit "-FLAGS", SEEN)) ds.
Proof.
  induction ds as [|d ds IH]; intros c Hc.
  - cbn. repeat split; [constructor|]. rewrite Z.add_0_r. lia.
  - destruct (IH (c + 1)%Z) as [H1 [H2 H3]]; [lia|].
    cbn [batch_events]. rewrite sleeps_app, stores_app.
    unfold resend_events. rewrite sleeps_app, stores_app, H3.
    pose proof (div30_step Hc) as Hstep.
    replace (c + Z.of_nat (List.length (d :: ds)))%Z
      with (c + 1 + Z.of_nat (List.length ds))%Z
      by (cbn [List.length]; lia).
    destruct ((c + 1) mod 30 =? 0)%Z;
      cbn [sleeps stores app List.length map];
      repeat split; auto; lia.
Qed.

Lemma replace_cr (s : Py.bytes) :
  Py.replace [Py.CR] [] s = filter (fun c => negb (Py.CR =? c)%N) s.
Proof.
  unfold Py.replace. induction s as [|c r IH]; [reflexivity|].
  cbn [Py.replace_aux Py.startswith filter option_map List.length].
  assert (Hnil : Py.startswith r [] = true) by now destruct r.
  rewrite Hnil. change (1 - 1)%nat with 0%nat.
  destruct (Py.CR =? c)%N; cbn [andb negb app].
  - exact IH.
  - now rewrite IH.
Qed.

Lemma replace_cr_free (s : Py.bytes) :
  Forall (fun c => c <> Py.CR) (Py.replace [Py.CR] [] s).
Proof.
  rewrite replace_cr. apply Forall_forall. intros c Hc.
  apply filter_In in Hc as [_ Hc]. apply negb_true_iff, N.eqb_neq in Hc.
  congruence.
Qed.

Lemma rstrip_with_framed f (m tl : list N) (z : N) :
  f z = false -> Forall (fun c => f c = true) tl ->
  Py.rstrip_with f ((m ++ [z]) ++ tl) = m ++ [z].
Proof.
  intros Hz Htl. unfold Py.rstrip_with.
  rewrite rev_app_distr, dropwhile_all by now apply Forall_rev.
  rewrite rev_app_distr. cbn [rev app Py.dropwhile]. rewrite Hz.
  change (z :: rev m) with (rev [z] ++ rev m).
  now rewrite <- rev_app_distr, rev_involutive.
Qed.

Section ResendMore.
Context {W : Type} {C : Collab W}.
Variables mailserver mailuser : Py.str.

(** X14.  A batch that ends normally has paused as many times as 30
    goes into the number of its messages, 60 seconds each time, and has
    issued one STORE per message, in the order of the index, each on
    the flag [\Seen]. *)
Theorem resend_messages_counts (messages : Dict.t Z) (s s' : st W) :
  resend_messages mailserver mailuser messages s = (Ret tt, s') ->
  exists evs,
    trace s' = trace s ++ evs
    /\ Forall (fun secs => secs = 60%Z) (sleeps evs)
    /\ Z.of_nat (List.length (sleeps evs))
       = (Z.of_nat (List.length messages) / 30)%Z
    /\ List.length (stores evs) = List.length messages
    /\ map (fun st => Some (fst (fst st))) (stores evs)
       = map (fun k => option_map Py.str_of_int (Dict.get k messages))
           (Dict.keys messages)
    /\ Forall (fun st => snd st = SEEN) (stores evs).
Proof.
  unfold resend_messages. destruct messages as [|e m] eqn:Hm.
  - intros H. inversion H; subst. exists []. cbn.
    rewrite app_nil_r. repeat split; constructor.
  - rewrite <- Hm. clear Hm e m. unfold bind. intros H.
    destruct (resend_loop_run mailserver mailuser messages
                (Dict.keys messages) (fun k H => H) 0%Z s)
      as [_ [ds [Hds [Hnums Hlen]]]].
    destruct (for_each _ _ _ _) as [[c1|e] s1]; [|discriminate].
    unfold ret in H. inversion H; subst s'. clear H.
    cbn [fst snd] in *.
    assert (Hl : List.length ds = List.length messages).
    { rewrite Hlen by eauto. unfold Dict.keys. apply length_map. }
    destruct (batch_events_counts mailserver mailuser ds (c := 0))
      as [H1 [H2 H3]]; [lia|].
    exists (batch_events mailserver mailuser 0 ds).
    split; [exact Hds|]. split; [exact H1|].
    split; [rewrite H2, Hl; cbn; now rewrite Z.sub_0_r|].
    rewrite H3. split; [now rewrite length_map|]. split.
    + rewrite map_map. cbn [fst].
      rewrite firstn_all2 in Hnums
        by (rewrite length_map; unfold Dict.keys; rewrite length_map; lia).
      rewrite <- (map_map (fun k => Dict.get k messages)
                    (option_map Py.str_of_int)).
      rewrite <- Hnums, map_map. reflexivity.
    + apply Forall_forall. intros x Hx. apply in_map_iff in Hx as [d [<- _]].
      reflexivity.
Qed.

(** X15.  The envelope sender of a relayed message is the value of its
    From header: when the FROM fetch answers the bytes "From: ", an
    address that does not end in a blank, and blanks, the session is
    opened for that address and for the stripped, CR-free text of the
    message. *)
Theorem resend_sender_from_header (messages : Dict.t Z) (k : Py.str)
  (c num : Z) (s : st W) (r r2 : response) (w1 w2 : W)
  (addr0 tl : Py.bytes) (z : N) :
  Dict.get k messages = Some num ->
  imap_fetch (Py.str_of_int num) (Py.lit "(BODY.PEEK[])") (world s)
  = (r, w1) ->
  typ r = OK ->
  imap_fetch (Py.str_of_int num) (Py.lit "(BODY.PEEK[HEADER.FIELDS (FROM)])")
    w1 = (r2, w2) ->
  typ r2 = OK ->
  payload r2 = Py.lit "From: " ++ (addr0 ++ [z]) ++ tl ->
  Py.isspace_b z = false ->
  Forall (fun x => Py.isspace_b x = true) tl ->
  exists sent,
    trace (snd (resend_body mailserver mailuser messages k c s))
    = trace s
      ++ resend_events mailserver mailuser (c + 1)
           {| dl_num := num; dl_from := addr0 ++ [z];
              dl_text := Py.replace [Py.CR] [] (Py.strip_b (payload r));
              dl_sent := sent |}.
Proof.
  intros Hget Hf1 Ht1 Hf2 Ht2 Hp Hz Htl.
  unfold resend_body. rewrite Hget.
  unfold server_fetch, server_store.
  unfold bind, call, assert, emit, effect, ret, raise.
  cbn [world trace]. rewrite Hf1. cbv beta iota zeta. cbn [world trace].
  rewrite Ht1, eqb_refl. cbv beta iota zeta. cbn [world trace].
  rewrite Hf2. cbv beta iota zeta. cbn [world trace].
  rewrite Ht2, eqb_refl. cbv beta iota zeta. cbn [world trace].
  assert (Hfrom : (if Py.startswith (Py.rstrip_b (payload r2))
                        (Py.lit "From: ")
                   then skipn (List.length (Py.lit "From: "))
                          (Py.rstrip_b (payload r2))
                   else Py.rstrip_b (payload r2)) = addr0 ++ [z]).
  { rewrite Hp. unfold Py.rstrip_b.
    replace (Py.lit "From: " ++ (addr0 ++ [z]) ++ tl)
      with (((Py.lit "From: " ++ addr0) ++ [z]) ++ tl)
      by now rewrite <- !app_assoc.
    rewrite rstrip_with_framed by assumption.
    rewrite <- app_assoc.
    assert (Hsw : forall p x, Py.startswith (p ++ x) p = true).
    { induction p as [|a p IH]; intros x; [now destruct x|].
      simpl. now rewrite N.eqb_refl, IH. }
    rewrite Hsw. apply skipn_app_length. }
  rewrite Hfrom.
  set (text_ := Py.replace [Py.CR] [] _).
  destruct (smtp_session mailserver 25 (addr0 ++ [z]) mailuser text_ w2)
    as [sent w3].
  exists sent.
  unfold resend_events. cbn [dl_num dl_from dl_text dl_sent].
  cbv beta iota zeta. cbn [world trace].
  destruct sent; cbv beta iota zeta; cbn [world trace];
    match goal with
    | |- context [imap_store ?a ?b ?c ?w] =>
        destruct (imap_store a b c w) as [stored w4]
    end;
    cbv beta iota zeta; cbn [world trace];
    destruct (smtp_quit w4) as [quit w5];
    cbv beta iota zeta; cbn [world trace];
    destruct ((c + 1) mod 30 =? 0)%Z;
    cbv beta iota zeta; cbn [world trace fst snd];
    rewrite <- ?app_assoc; reflexivity.
Qed.

(** X16.  No message goes to the relay with a carriage return in it,
    whatever the server sent. *)
Theorem resend_messages_no_cr (messages : Dict.t Z) :
  emits relays_no_cr (resend_messages mailserver mailuser messages).
Proof.
  unfold resend_messages. destruct messages as [|e m]; [apply emits_ret|].
  apply emits_bind; [|intros; apply emits_ret].
  apply emits_for_each. intros k c. unfold resend_body.
  destruct (Dict.get k (e :: m)); [|apply emits_raise].
  unfold server_fetch, server_store. cbv zeta.
  repeat
    match goal with
    | |- emits _ (bind _ _) => apply emits_bind; [|intros]
    | |- emits _ (ret _) => apply emits_ret
    | |- emits _ (emit (EvSendmail _ _ _ _ _ _)) =>
        apply emits_emit; cbn [relays_no_cr]; apply replace_cr_free
    | |- emits _ (emit _) => apply emits_emit; exact I
    | |- emits _ (call _) => apply emits_call
    | |- emits _ (effect _) => apply emits_effect
    | |- emits _ (assert _) => apply emits_assert
    | |- emits _ (if ?x then _ else _) => destruct x
    end.
Qed.

End ResendMore.

(** ** More on boundary quoting *)

(** Every text is a first line and the lines after it. *)
Lemma text_lines (text : Py.bytes) :
  exists first lines,
    text = text_of first lines /\ one_line first /\ Forall one_line lines.
Proof.
  induction text as [|c r [first [lines [Hr [Hf Hl]]]]].
  - exists [], []. repeat split; constructor.
  - destruct (N.eqb_spec c Py.LF) as [-> | Hc].
    + exists [], (first :: lines). subst r.
      repeat split; [constructor | now constructor].
    + exists (c :: first), lines. subst r.
      repeat split; [now constructor | exact Hl].
Qed.

Lemma quote_line_one_line (l : Py.bytes) : one_line l -> one_line (quote_line l).
Proof.
  intros H. unfold quote_line. destruct (is_from_line l); [|exact H].
  constructor; [discriminate | exact H].
Qed.

Lemma space_line_one_line (l : Py.bytes) : one_line l -> one_line (space_line l).
Proof.
  intros H. unfold space_line. destruct (Py.startswith l FROM_); [|exact H].
  constructor; [discriminate | exact H].
Qed.

(** X17.  Whatever was fetched, and in either mode, the text written
    for a message is a first line, which is the first line of the
    stripped CR-free text unchanged, and lines none of which starts
    with "From ". *)
Theorem quote_message_later_lines (thunderbird : bool) (data_bytes : Py.bytes) :
  exists first lines lines',
    Py.replace [Py.CR] [] (Py.strip_b data_bytes) = text_of first lines
    /\ quote_message thunderbird data_bytes = text_of first lines'
    /\ one_line first
    /\ lines' = map (if thunderbird then space_line else quote_line) lines
    /\ Forall (fun l => one_line l /\ Py.startswith l FROM_ = false) lines'.
Proof.
  destruct (text_lines (Py.replace [Py.CR] [] (Py.strip_b data_bytes)))
    as [first [lines [Htext [Hf Hl]]]].
  exists first, lines,
    (map (if thunderbird then space_line else quote_line) lines).
  split; [exact Htext|]. unfold quote_message. rewrite Htext.
  destruct thunderbird.
  - split; [now apply thunderbird_lines|]. split; [exact Hf|].
    split; [reflexivity|]. apply Forall_map.
    revert Hl. apply Forall_impl. intros l Hl.
    split; [now apply space_line_one_line | apply space_line_not_envelope].
  - split; [now apply from_re_sub_lines|]. split; [exact Hf|].
    split; [reflexivity|]. apply Forall_map.
    revert Hl. apply Forall_impl. intros l Hl.
    split; [now apply quote_line_one_line | apply quote_line_not_envelope].
Qed.

Lemma line_app_inj (a b x y : Py.bytes) :
  one_line a -> one_line b -> line_end x -> line_end y ->
  a ++ x = b ++ y -> a = b /\ x = y.
Proof.
  intros Ha. revert b. induction Ha as [|c a Hc _ IH]; intros b Hb Hx Hy H.
  - destruct Hb as [|d b Hd _]; [now split|].
    cbn [app] in H. destruct Hx as [-> | [r ->]]; [discriminate|].
    inversion H; subst. now elim Hd.
  - destruct Hb as [|d b Hd Hb].
    + cbn [app] in H. destruct Hy as [-> | [r ->]]; [discriminate|].
      inversion H; subst. now elim Hc.
    + cbn [app] in H. inversion H; subst.
      destruct (IH b Hb Hx Hy H2) as [-> ->]. now split.
Qed.

Lemma lines_inj (l1 : list Py.bytes) :
  Forall one_line l1 ->
  forall l2,
    Forall one_line l2 ->
    List.concat (map (cons Py.LF) l1) = List.concat (map (cons Py.LF) l2) ->
    l1 = l2.
Proof.
  induction 1 as [|a l1 Ha _ IH]; intros l2 H2 H.
  - destruct l2; [reflexivity | discriminate].
  - destruct H2 as [|b l2 Hb H2]; [discriminate|].
    cbn [map List.concat app] in H. inversion H as [H'].
    destruct (@line_app_inj a b (List.concat (map (cons Py.LF) l1))
                (List.concat (map (cons Py.LF) l2)) Ha Hb) as [-> Hr];
      [apply (line_end_concat (fun l => l))
      | apply (line_end_concat (fun l => l)) | exact H' |].
    f_equal. now apply IH.
Qed.

Lemma text_of_inj (f1 f2 : Py.bytes) (l1 l2 : list Py.bytes) :
  one_line f1 -> one_line f2 -> Forall one_line l1 -> Forall one_line l2 ->
  text_of f1 l1 = text_of f2 l2 -> f1 = f2 /\ l1 = l2.
Proof.
  intros Hf1 Hf2 Hl1 Hl2 H. unfold text_of in H.
  destruct (@line_app_inj f1 f2 _ _ Hf1 Hf2
              (line_end_concat (fun l => l) l1)
              (line_end_concat (fun l => l) l2) H) as [-> Hr].
  split; [reflexivity | now apply lines_inj].
Qed.

Lemma is_from_line_quoted (l : Py.bytes) :
  is_from_line (GT :: l) = is_from_line l.
Proof. reflexivity. Qed.

Lemma quote_line_inj (a b : Py.bytes) : quote_line a = quote_line b -> a = b.
Proof.
  unfold quote_line.
  destruct (is_from_line a) eqn:Ea, (is_from_line b) eqn:Eb; intros H.
  - now inversion H.
  - subst b. rewrite is_from_line_quoted in Eb. congruence.
  - subst a. rewrite is_from_line_quoted in Ea. congruence.
  - exact H.
Qed.

(** X18.  The default quoting loses nothing: two texts that are quoted
    to the same text are the same text.  The Thunderbird replacement
    does lose something: a text with a line "From ..." and the text
    that has the same line after one space are different texts, and
    are written as the same text. *)
Theorem from_re_sub_injective (t1 t2 : Py.bytes) :
  (from_re_sub t1 = from_re_sub t2 -> t1 = t2)
  /\ (forall first lines l,
        one_line first -> Forall one_line lines -> one_line l ->
        text_of first ((FROM_ ++ l) :: lines)
        <> text_of first ((Py.SP :: FROM_ ++ l) :: lines)
        /\ Py.replace (Py.LF :: FROM_) (Py.LF :: Py.SP :: FROM_)
             (text_of first ((FROM_ ++ l) :: lines))
           = Py.replace (Py.LF :: FROM_) (Py.LF :: Py.SP :: FROM_)
               (text_of first ((Py.SP :: FROM_ ++ l) :: lines))).
Proof.
  split.
  - destruct (text_lines t1) as [f1 [l1 [-> [Hf1 Hl1]]]].
    destruct (text_lines t2) as [f2 [l2 [-> [Hf2 Hl2]]]].
    rewrite !from_re_sub_lines by assumption. intros H.
    apply text_of_inj in H as [-> Hmap]; auto.
    + f_equal. clear -Hmap. revert l2 Hmap.
      induction l1 as [|a l1 IH]; intros [|b l2] H; try discriminate;
        [reflexivity|].
      cbn [map] in H. inversion H as [[Ha Hr]].
      apply quote_line_inj in Ha. subst. f_equal. now apply IH.
    + apply Forall_map. revert Hl1. apply Forall_impl.
      apply quote_line_one_line.
    + apply Forall_map. revert Hl2. apply Forall_impl.
      apply quote_line_one_line.
  - intros first lines l Hfirst Hlines Hl.
    assert (Hfrom : one_line (FROM_ ++ l)).
    { apply Forall_app. split; [|exact Hl].
      repeat constructor; discriminate. }
    assert (Hsp : one_line (Py.SP :: FROM_ ++ l)).
    { constructor; [discriminate | exact Hfrom]. }
    split.
    + unfold text_of. intros H. apply app_inv_head in H. discriminate H.
    + rewrite !thunderbird_lines by (try constructor; assumption).
      cbn [map]. do 2 f_equal. unfold space_line.
      assert (H1 : Py.startswith (FROM_ ++ l) FROM_ = true)
        by (destruct l; reflexivity).
      assert (H2 : Py.startswith (Py.SP :: FROM_ ++ l) FROM_ = false)
        by reflexivity.
      now rewrite H1, H2.
Qed.

(** ** A folder the server refuses *)

Section RunErrors.
Context {W : Type} {C : Collab W}.

(** X20.  A refused SELECT costs the run one folder only: the folder is
    skipped, with no search, no fetch and nothing relayed, the refusal
    is reported, and the loop of [main] goes on with the folders that
    follow. *)
Theorem refused_select_skips_folder (cfg : config) (basedir : Py.str)
  (excl : list Py.str) (foldername filename : Py.str)
  (rest : list (Py.str * Py.str)) (s : st W) (r : response) (w1 : W) :
  existsb (Py.eqb foldername) excl = false ->
  imap_select ([34%N] ++ foldername ++ [34%N]) (world s) = (r, w1) ->
  Py.eqb OK (typ r) = false ->
  for_each (fun name_pair _ =>
              except_skip (main_folder cfg basedir excl name_pair))
    ((foldername, filename) :: rest) tt s
  = for_each (fun name_pair _ =>
                except_skip (main_folder cfg basedir excl name_pair))
      rest tt
      (mkst w1
         (trace s
          ++ [EvSkipped
                (SkipFolderException (Py.lit "SELECT failed: ")
                   (payload r))])).
Proof.
  intros Hex Hsel Hno. cbn [for_each]. unfold bind at 1.
  unfold except_skip at 1, main_folder at 1. rewrite Hex.
  unfold bind at 1, scan_folder. cbv zeta. unfold bind at 1, call.
  rewrite Hsel. cbv beta iota. rewrite Hno. cbn [negb].
  unfold raise, emit. cbn [world trace]. reflexivity.
Qed.

End RunErrors.

(** ** A password from the command line *)

Lemma strip_with_idempotent f (s : list N) :
  Py.strip_with f (Py.strip_with f s) = Py.strip_with f s.
Proof.
  assert (Hdd : forall l, Py.dropwhile f (Py.dropwhile f l) = Py.dropwhile f l).
  { induction l as [|c l IH]; [reflexivity|]. simpl.
    destruct (f c) eqn:E; [exact IH | simpl; now rewrite E]. }
  assert (Hkeep : forall l,
             Py.dropwhile f l = l ->
             Py.dropwhile f (rev (Py.dropwhile f (rev l)))
             = rev (Py.dropwhile f (rev l))).
  { intros l Hl. destruct l as [|c l]; [reflexivity|].
    simpl in Hl. destruct (f c) eqn:E.
    - exfalso. pose proof (dropwhile_length f l) as Hlen.
      rewrite Hl in Hlen. simpl in Hlen. lia.
    - clear Hl. cbn [rev].
      assert (Hr : forall m,
                 exists m', rev (Py.dropwhile f (m ++ [c])) = c :: m').
      { induction m as [|x m [m' IHm]]; cbn [app Py.dropwhile].
        - rewrite E. exists []. reflexivity.
        - destruct (f x); [eauto|].
          exists (rev m ++ [x]).
          change (x :: m ++ [c]) with ((x :: m) ++ [c]).
          now rewrite rev_app_distr. }
      destruct (Hr (rev l)) as [m' Hm']. rewrite Hm'.
      simpl. now rewrite E. }
  unfold Py.strip_with, Py.rstrip_with, Py.lstrip_with.
  rewrite (Hkeep (Py.dropwhile f s) (Hdd s)).
  now rewrite rev_involutive, Hdd.
Qed.

(** X21.  A value with a leading backslash is returned without it and
    otherwise as it is, with no file read, so that every string can be
    given literally; a value that starts with neither a backslash nor
    an at sign is returned unchanged; and what is read from a file is
    returned stripped, so it neither starts nor ends with a blank. *)
Theorem string_from_file_cases (expanduser : Py.str -> Py.str)
  (read_text : Py.str -> exn + Py.str) (value : Py.str) :
  string_from_file expanduser read_text (92%N :: value) = inr value
  /\ (Py.startswith value [92%N] = false ->
      Py.startswith value [64%N] = false ->
      string_from_file expanduser read_text value = inr value)
  /\ (forall content,
        read_text (expanduser value) = inr content ->
        exists text,
          string_from_file expanduser read_text (64%N :: value) = inr text
          /\ text = Py.strip content /\ Py.strip text = text).
Proof.
  split; [reflexivity|]. split.
  - destruct value as [|c rest]; [reflexivity|].
    unfold string_from_file.
    destruct (N.eqb_spec c 92) as [->|H1];
      [intros H; destruct rest; discriminate H|].
    destruct (N.eqb_spec c 64) as [->|H2];
      [intros _ H; destruct rest; discriminate H|].
    reflexivity.
  - intros content H. exists (Py.strip content).
    cbn. rewrite H. repeat split. apply strip_with_idempotent.
Qed.

(** ** What a download writes *)


Section Download.
Context {W : Type} {C : Collab W}.




End Download.

(** ** The further properties on sample runs *)

Module Further.
Import Demo.

Lemma scan_folder_index_well_formed_witness :
  exists messages s',
    scan_folder INBOX (start one_seen) = (Ret messages, s')
    /\ NoDup (Dict.keys messages)
    /\ reconcile messages [] = Some (filter (absent_from []) messages).
Proof.
  assert (E : exists messages s',
             scan_folder INBOX (start one_seen) = (Ret messages, s'))
    by (eexists; eexists; vm_compute; reflexivity).
  destruct E as [messages [s' E]].
  destruct (@scan_folder_index_well_formed world collab INBOX
              (start one_seen) s' messages E) as [H1 [_ H3]].
  exists messages, s'. split; [exact E|]. split; [exact H1 | apply H3].
Defined.

Lemma overwrite_relays_whole_index_witness :
  exists fol_messages s1,
    scan_folder INBOX (start one_folder) = (Ret fol_messages, s1)
    /\ main_folder
         {| cfg_thunderbird := false; cfg_overwrite := true;
            cfg_folders := None; cfg_exclude_folders := None;
            cfg_basedir := Py.lit "/backup" |}
         (Py.lit "/backup") [] (INBOX, Py.lit "INBOX.mbox")
         (start one_folder)
       = resend_messages RELAY_HOST RELAY_USER fol_messages s1.
Proof.
  assert (E : exists messages s',
             scan_folder INBOX (start one_folder) = (Ret messages, s'))
    by (eexists; eexists; vm_compute; reflexivity).
  destruct E as [messages [s' E]].
  exists messages, s'. split; [exact E|].
  apply (@overwrite_relays_whole_index world collab); [reflexivity| |exact E].
  reflexivity.
Defined.

Lemma reconcile_settled_witness :
  reconcile [(Py.lit "<a@x>", 1%Z); (Py.lit "<b@x>", 2%Z)]
    [(Py.lit "<b@x>", Py.lit "<b@x>"); (Py.lit "<a@x>", Py.lit "<a@x>")]
  = Some [].
Proof.
  assert (ND : NoDup (Dict.keys [(Py.lit "<a@x>", 1%Z);
                                 (Py.lit "<b@x>", 2%Z)])).
  { repeat constructor; simpl; intuition discriminate. }
  apply (proj1 (@reconcile_settled _ _ ND)).
  intros msg_id Hin. simpl in Hin.
  destruct Hin as [<- | [<- | []]]; vm_compute; reflexivity.
Defined.

Lemma scan_file_index_witness :
  exists messages s',
    scan_file (Py.lit "INBOX.mbox") false (Py.lit "/backup")
      (start one_folder) = (Ret messages, s')
    /\ NoDup (Dict.keys messages).
Proof.
  destruct (@scan_file_index world collab (Py.lit "INBOX.mbox")
              (Py.lit "/backup") (start one_folder))
    as [messages [s' [H1 [_ [H3 _]]]]]; [vm_compute; reflexivity|].
  exists messages, s'. split; [exact H1 | exact H3].
Defined.

Lemma archived_identifier_read_back_witness :
  entry_id (Some (Py.lit "<a@x>")) = Some (Py.lit "<a@x>").
Proof.
  refine (proj1 (@archived_identifier_read_back world
                   (Py.lit "INBOX.mbox") (Py.lit "<a@x>") 0%Z []
                   (start one_folder) _ _)).
  - discriminate.
  - unfold nonspace. vm_compute. repeat constructor.
Defined.

Lemma synthesised_identifier_survives_witness :
  Py.contains UUID synthesised_bob_hi = true
  /\ entry_id (Some synthesised_bob_hi) = Some synthesised_bob_hi.
Proof.
  apply (@synthesised_identifier_survives
           (identity_fields (without_id "bob" "hi"))).
  vm_compute. reflexivity.
Defined.

Lemma message_id_header_verbatim_witness :
  exists s',
    scan_folder_body (Py.lit "1") [] (start same_id)
    = (Ret [(Py.lit "<a@x>", 1%Z)], s').
Proof.
  destruct (@message_id_header_verbatim world collab (Py.lit "1")
              (Py.lit "Message-ID: ") (Py.lit "<a@x>") [] (start same_id)
              1%Z) as [_ [s' H]].
  - vm_compute. reflexivity.
  - unfold ascii7. vm_compute. repeat constructor.
  - unfold ascii7. vm_compute. repeat constructor.
  - discriminate.
  - unfold nonspace. vm_compute. repeat constructor.
  - vm_compute. reflexivity.
  - vm_compute. reflexivity.
  - exists s'. exact H.
Defined.

Lemma synth_msg_id_ascii_witness :
  synth_msg_id (identity_fields (without_id "bob" "hi"))
  = Some synthesised_bob_hi.
Proof.
  rewrite synth_msg_id_ascii.
  - vm_compute. reflexivity.
  - unfold ascii7. vm_compute. repeat constructor.
Defined.

Lemma parse_paren_list_progress_witness :
  parse_paren_list_limited 2 (Py.lit "((\Noselect) \HasChildren) x")
  = parse_paren_list (Py.lit "((\Noselect) \HasChildren) x")
  /\ (exists attribs rest,
        parse_paren_list_limited 2 (Py.lit "((\Noselect) \HasChildren) x")
        = Some (inr (attribs, rest))
        /\ (List.length rest + 2
            <= List.length (Py.lit "((\Noselect) \HasChildren) x"))%nat)
  /\ parse_paren_list_limited 0 (Py.lit "((\Noselect) \HasChildren) x")
     = Some (inl RecursionError).
Proof.
  destruct (parse_paren_list_progress 2
              (Py.lit "((\Noselect) \HasChildren) x"))
    as [_ [H2 [_ [_ H5]]]].
  split; [apply H5; vm_compute; lia|].
  split; [|vm_compute; reflexivity].
  assert (E : exists attribs rest,
             parse_paren_list_limited 2
               (Py.lit "((\Noselect) \HasChildren) x")
             = Some (inr (attribs, rest)))
    by (eexists; eexists; vm_compute; reflexivity).
  destruct E as [attribs [rest E]]. exists attribs, rest.
  split; [exact E | exact (H2 attribs rest E)].
Defined.

Lemma map_name_replaces_delimiter_witness :
  map_name false (Py.lit "/") (Py.lit "INBOX/Sent") = Py.lit "INBOX.Sent.mbox"
  /\ map_name true (Py.lit "/") (Py.lit "INBOX/Sent")
     = Py.lit "Inbox.sbd/Sent".
Proof.
  destruct (@map_name_replaces_delimiter (Py.lit "/") (Py.lit "INBOX/Sent"))
    as [H1 H2]; [discriminate|].
  rewrite H1, H2. split; vm_compute; reflexivity.
Defined.

Lemma get_names_all_rows_witness :
  exists names,
    get_names false (start nested_inbox) = (Ret names, start nested_inbox)
    /\ Forall2 (names_row false) [row_inbox_inbox] names.
Proof.
  destruct (@get_names_all_rows world collab false (start nested_inbox)
              [row_inbox_inbox] nested_inbox) as [H _]; [reflexivity|].
  destruct H as [names Hn].
  - constructor; [|constructor].
    apply parses_b_sound. vm_compute. reflexivity.
  - exists names. exact Hn.
Defined.

Lemma parse_list_rendered_witness :
  parse_list
    (render_row [Py.lit "HasNoChildren"] (Py.lit "/") (Py.lit "Sent Items"))
  = Some (inr ([Name (Py.lit "\HasNoChildren")], Py.lit "/",
               Py.lit "Sent Items")).
Proof.
  apply (@parse_list_rendered [Py.lit "HasNoChildren"] (Py.lit "/")
           (Py.lit "Sent Items")).
  - constructor; [|constructor].
    split; [discriminate | vm_compute; repeat constructor].
  - split; [discriminate | vm_compute; repeat constructor].
  - split; [discriminate | vm_compute; repeat constructor].
Defined.

Lemma resend_messages_counts_witness :
  exists s' evs,
    resend_messages RELAY_HOST RELAY_USER batch35 (start relay35)
    = (Ret tt, s')
    /\ trace s' = evs
    /\ List.length (sleeps evs) = 1%nat
    /\ List.length (stores evs) = 35%nat.
Proof.
  assert (E : exists s',
             resend_messages RELAY_HOST RELAY_USER batch35 (start relay35)
             = (Ret tt, s'))
    by (eexists; vm_compute; reflexivity).
  destruct E as [s' E].
  destruct (@resend_messages_counts world collab RELAY_HOST RELAY_USER
              batch35 (start relay35) s' E) as [evs [H1 [_ [H3 [H4 _]]]]].
  exists s', evs. split; [exact E|]. split; [exact H1|].
  split; [|rewrite H4; reflexivity].
  apply Nat2Z.inj. rewrite H3. reflexivity.
Defined.

Lemma resend_sender_from_header_witness :
  exists sent,
    trace (snd (resend_body RELAY_HOST RELAY_USER [(Py.lit "<a@x>", 1%Z)]
                  (Py.lit "<a@x>") 0%Z (start same_id)))
    = resend_events RELAY_HOST RELAY_USER 1
        {| dl_num := 1%Z; dl_from := Py.lit "bob";
           dl_text :=
             Py.replace [Py.CR] []
               (Py.strip_b (rfc822 (with_id "<a@x>" "bob" "hi")));
           dl_sent := sent |}.
Proof.
  destruct (@resend_sender_from_header world collab RELAY_HOST RELAY_USER
              [(Py.lit "<a@x>", 1%Z)] (Py.lit "<a@x>") 0%Z 1%Z
              (start same_id)
              {| typ := OK; payload := rfc822 (with_id "<a@x>" "bob" "hi") |}
              {| typ := OK;
                 payload := from_field (with_id "<a@x>" "bob" "hi") |}
              same_id same_id (Py.lit "bo") (CRLF ++ CRLF) 98%N)
    as [sent H].
  - vm_compute. reflexivity.
  - vm_compute. reflexivity.
  - vm_compute. reflexivity.
  - vm_compute. reflexivity.
  - vm_compute. reflexivity.
  - vm_compute. reflexivity.
  - vm_compute. reflexivity.
  - vm_compute. repeat constructor.
  - exists sent. exact H.
Defined.

Lemma from_re_sub_injective_witness :
  text_of [] [FROM_] <> text_of [] [Py.SP :: FROM_]
  /\ Py.replace (Py.LF :: FROM_) (Py.LF :: Py.SP :: FROM_) (text_of [] [FROM_])
     = Py.replace (Py.LF :: FROM_) (Py.LF :: Py.SP :: FROM_)
         (text_of [] [Py.SP :: FROM_]).
Proof.
  pose proof (proj2 (from_re_sub_injective [] []) [] [] []) as H.
  rewrite app_nil_r in H. apply H; constructor.
Defined.

Lemma refused_select_skips_folder_witness :
  for_each (fun name_pair _ =>
              except_skip
                (main_folder (C := Offline.collab) plain (Py.lit "/backup")
                   [] name_pair))
    [(INBOX, Py.lit "INBOX.mbox"); (Py.lit "Sent", Py.lit "Sent.mbox")] tt
    (mkst tt [])
  = (Ret tt,
     mkst tt
       [EvSkipped (SkipFolderException (Py.lit "SELECT failed: ")
                     (Py.lit "no such mailbox"));
        EvSkipped (SkipFolderException (Py.lit "SELECT failed: ")
                     (Py.lit "no such mailbox"))]).
Proof.
  pose proof (@refused_select_skips_folder unit Offline.collab plain
                (Py.lit "/backup") [] INBOX (Py.lit "INBOX.mbox")
                [(Py.lit "Sent", Py.lit "Sent.mbox")] (mkst tt [])
                Offline.refuse tt eq_refl eq_refl eq_refl) as H1.
  pose proof (@refused_select_skips_folder unit Offline.collab plain
                (Py.lit "/backup") [] (Py.lit "Sent") (Py.lit "Sent.mbox")
                []
                (mkst tt
                   [EvSkipped (SkipFolderException (Py.lit "SELECT failed: ")
                                 (Py.lit "no such mailbox"))])
                Offline.refuse tt eq_refl eq_refl eq_refl) as H2.
  exact (eq_trans H1 H2).
Defined.

Lemma string_from_file_cases_witness :
  string_from_file (fun p => p) (fun _ => inl OSError) (Py.lit "secret")
  = inr (Py.lit "secret")
  /\ string_from_file (fun p => p)
       (fun _ => inr (Py.lit " secret" ++ [Py.LF])) (Py.lit "@pw")
     = inr (Py.lit "secret").
Proof.
  split.
  - apply (proj1 (proj2 (@string_from_file_cases (fun p => p)
                           (fun _ => inl OSError) (Py.lit "secret")))).
    + vm_compute. reflexivity.
    + vm_compute. reflexivity.
  - destruct (proj2 (proj2 (@string_from_file_cases (fun p => p)
                              (fun _ => inr (Py.lit " secret" ++ [Py.LF]))
                              (Py.lit "pw")))
                (Py.lit " secret" ++ [Py.LF]))
      as [text [H1 [H2 _]]]; [reflexivity|].
    change (Py.lit "@pw") with (64%N :: Py.lit "pw").
    rewrite H1, H2. vm_compute. reflexivity.
Defined.


End Further.
